(** * DeskPets: behaviour, physics and mailbox of the desktop pets

    A shallow embedding of [DeskPets_repo/pets.py] (class [Pet]),
    [DeskPets_repo/messaging.py], the message bubble of
    [DeskPets_repo/window.py] and the asset loader of [old/pet_demo.py],
    followed by the properties of the behaviour engine and of the mailbox.

    Conventions of the embedding.
    - Python [int] values are [Z].  Values that the code computes with
      [float] arithmetic (positions after a throw, velocities, speeds,
      time stamps) are exact rationals [Q]: the float literals 0.2, 0.85,
      0.6 and 1.5 are the rationals 1/5, 17/20, 3/5 and 3/2, and rounding
      is not modelled.
    - A Python [str] is the [string] of its UTF-8 bytes.  Equality and
      concatenation are those of the bytes; [strip], [len] and slicing
      work on characters and are written out where the code uses them.
    - A Python [dict] is an association list in insertion order.
    - A method that mutates [self] is a function from [Pet] to [Pet].
    - A [try: ... except Exception: print(e)] wrapper makes the method
      return normally with the mutations done before the exception; the
      model returns the object as it is at the raising statement. *)

From Stdlib Require Import ZArith QArith Qabs Qround Lqa Lia List String Ascii
  Bool.
From stdpp Require Import base gmap strings.
Import ListNotations.
Open Scope Z_scope.

(** ** Numbers *)

(** Strict comparison of two numbers, [a < b] in Python. *)
Definition Qltb (a b : Q) : bool :=
  Qnum a * QDen b <? Qnum b * QDen a.

(** [min(a, b)] and [max(a, b)] of Python: the first argument wins ties. *)
Definition py_min (a b : Q) : Q := if Qltb b a then b else a.
Definition py_max (a b : Q) : Q := if Qltb a b then b else a.

(** The float literals of the physics code. *)
Definition THROW_EPS : Q := 2 # 10.      (* 0.2  *)
Definition DAMPING : Q := 85 # 100.      (* 0.85 *)
Definition BOUNCE : Q := 6 # 10.         (* 0.6  *)
Definition RELEASE : Q := 15 # 10.       (* 1.5  *)

(** ** Dictionaries *)

Definition dict (V : Type) : Type := list (string * V).

Fixpoint dict_get {V : Type} (k : string) (d : dict V) : option V :=
  match d with
  | [] => None
  | (k', v) :: d' => if String.eqb k k' then Some v else dict_get k d'
  end.

(** [d[k] = v]: overwrite in place, or append a new key. *)
Fixpoint dict_set {V : Type} (k : string) (v : V) (d : dict V) : dict V :=
  match d with
  | [] => [(k, v)]
  | (k', v') :: d' =>
      if String.eqb k k' then (k, v) :: d' else (k', v') :: dict_set k v d'
  end.

Definition dict_keys {V : Type} (d : dict V) : list string := map fst d.

(** [x in keys] and [keys.remove(x)] on a list of strings. *)
Fixpoint str_in (s : string) (l : list string) : bool :=
  match l with
  | [] => false
  | t :: l' => String.eqb s t || str_in s l'
  end.

Fixpoint list_remove (s : string) (l : list string) : list string :=
  match l with
  | [] => []
  | t :: l' => if String.eqb s t then l' else t :: list_remove s l'
  end.

(** ** The state catalog ([pets_data.json]) *)

(** One entry of [defaults]: every key is read with [.get(key, fallback)]. *)
Record StateDefaults : Type := mkStateDefaults {
  d_hold : option Z;
  d_movement_speed : option Q;
  d_speed_animation : option Q
}.

Definition no_defaults : StateDefaults :=
  {| d_hold := None; d_movement_speed := None; d_speed_animation := None |}.

(** One species of [pets_data.json]: [states] maps a colour to its
    state-name -> gif-path dictionary; [sd_defaults] is [None] when the
    species has no ["defaults"] key. *)
Record SpeciesData : Type := mkSpeciesData {
  sd_colors : list string;
  sd_states : dict (dict string);
  sd_defaults : option (dict StateDefaults)
}.

(** [species_data.get("defaults", {})] *)
Definition defaults_or_empty (sd : SpeciesData) : dict StateDefaults :=
  match sd_defaults sd with
  | Some defaults => defaults
  | None => []
  end.

(** An entry of [Pet.STATES_INFO]. *)
Record StateInfo : Type := mkStateInfo {
  gif : string;
  hold : Z;
  movement_speed : Q;
  speed_animation : Q
}.

(** An instance of class [State] ([state.py]): the descriptor of the
    running behaviour with its tick counter and traversal direction.  The
    class itself is not among the modelled sources; the fields are the
    constructor arguments used by [pets.py] and the two attributes it
    writes, [direction] and [counter].  The counter of a new state is
    chosen by the constructor, which is a collaborator. *)
Record State : Type := mkState {
  name : string;
  st_gif : string;
  st_hold : Z;
  st_movement_speed : Q;
  st_speed_animation : Q;
  direction : Z;
  counter : Z
}.

Definition set_direction (v : Z) (s : State) : State :=
  {| name := name s; st_gif := st_gif s; st_hold := st_hold s;
     st_movement_speed := st_movement_speed s;
     st_speed_animation := st_speed_animation s;
     direction := v; counter := counter s |}.

Definition set_counter (v : Z) (s : State) : State :=
  {| name := name s; st_gif := st_gif s; st_hold := st_hold s;
     st_movement_speed := st_movement_speed s;
     st_speed_animation := st_speed_animation s;
     direction := direction s; counter := v |}.

(** ** The pet *)

(** The attributes of a constructed [Pet] that the behaviour code reads or
    writes.  [frames] keeps the (width, height) of every resized frame;
    [main_window] tells whether a main window is attached. *)
Record Pet : Type := mkPet {
  species : string;
  color : string;
  fps : Z;
  size : string;
  screen_width : Z;
  screen_height : Z;
  dragging : bool;
  drag_offset : Q * Q;
  drag_last_pos : option (Z * Z);
  throw_velocity : Q * Q;
  _right_click_consumed : bool;
  STATES_INFO : dict StateInfo;
  state : option State;
  frames : list (Z * Z);
  width : Z;
  height : Z;
  frame_count : Z;
  current_frame : Z;
  frame_interval : option Q;
  y_def : Z;
  x : Q;
  y : Q;
  immunity : bool;
  lie_duration : Z;
  wall_scene_step : option Z;
  height_lie : Z;
  main_window : bool
}.

Definition set_dragging (v : bool) (p : Pet) : Pet :=
  {| species := species p; color := color p; fps := fps p; size := size p;
     screen_width := screen_width p; screen_height := screen_height p;
     dragging := v; drag_offset := drag_offset p;
     drag_last_pos := drag_last_pos p; throw_velocity := throw_velocity p;
     _right_click_consumed := _right_click_consumed p;
     STATES_INFO := STATES_INFO p; state := state p; frames := frames p;
     width := width p; height := height p; frame_count := frame_count p;
     current_frame := current_frame p; frame_interval := frame_interval p;
     y_def := y_def p; x := x p; y := y p; immunity := immunity p;
     lie_duration := lie_duration p; wall_scene_step := wall_scene_step p;
     height_lie := height_lie p; main_window := main_window p |}.

Definition set_drag_offset (v : Q * Q) (p : Pet) : Pet :=
  {| species := species p; color := color p; fps := fps p; size := size p;
     screen_width := screen_width p; screen_height := screen_height p;
     dragging := dragging p; drag_offset := v;
     drag_last_pos := drag_last_pos p; throw_velocity := throw_velocity p;
     _right_click_consumed := _right_click_consumed p;
     STATES_INFO := STATES_INFO p; state := state p; frames := frames p;
     width := width p; height := height p; frame_count := frame_count p;
     current_frame := current_frame p; frame_interval := frame_interval p;
     y_def := y_def p; x := x p; y := y p; immunity := immunity p;
     lie_duration := lie_duration p; wall_scene_step := wall_scene_step p;
     height_lie := height_lie p; main_window := main_window p |}.

Definition set_drag_last_pos (v : option (Z * Z)) (p : Pet) : Pet :=
  {| species := species p; color := color p; fps := fps p; size := size p;
     screen_width := screen_width p; screen_height := screen_height p;
     dragging := dragging p; drag_offset := drag_offset p;
     drag_last_pos := v; throw_velocity := throw_velocity p;
     _right_click_consumed := _right_click_consumed p;
     STATES_INFO := STATES_INFO p; state := state p; frames := frames p;
     width := width p; height := height p; frame_count := frame_count p;
     current_frame := current_frame p; frame_interval := frame_interval p;
     y_def := y_def p; x := x p; y := y p; immunity := immunity p;
     lie_duration := lie_duration p; wall_scene_step := wall_scene_step p;
     height_lie := height_lie p; main_window := main_window p |}.

Definition set_throw_velocity (v : Q * Q) (p : Pet) : Pet :=
  {| species := species p; color := color p; fps := fps p; size := size p;
     screen_width := screen_width p; screen_height := screen_height p;
     dragging := dragging p; drag_offset := drag_offset p;
     drag_last_pos := drag_last_pos p; throw_velocity := v;
     _right_click_consumed := _right_click_consumed p;
     STATES_INFO := STATES_INFO p; state := state p; frames := frames p;
     width := width p; height := height p; frame_count := frame_count p;
     current_frame := current_frame p; frame_interval := frame_interval p;
     y_def := y_def p; x := x p; y := y p; immunity := immunity p;
     lie_duration := lie_duration p; wall_scene_step := wall_scene_step p;
     height_lie := height_lie p; main_window := main_window p |}.

Definition set_right_click_consumed (v : bool) (p : Pet) : Pet :=
  {| species := species p; color := color p; fps := fps p; size := size p;
     screen_width := screen_width p; screen_height := screen_height p;
     dragging := dragging p; drag_offset := drag_offset p;
     drag_last_pos := drag_last_pos p; throw_velocity := throw_velocity p;
     _right_click_consumed := v; STATES_INFO := STATES_INFO p;
     state := state p; frames := frames p; width := width p;
     height := height p; frame_count := frame_count p;
     current_frame := current_frame p; frame_interval := frame_interval p;
     y_def := y_def p; x := x p; y := y p; immunity := immunity p;
     lie_duration := lie_duration p; wall_scene_step := wall_scene_step p;
     height_lie := height_lie p; main_window := main_window p |}.

Definition set_state (v : option State) (p : Pet) : Pet :=
  {| species := species p; color := color p; fps := fps p; size := size p;
     screen_width := screen_width p; screen_height := screen_height p;
     dragging := dragging p; drag_offset := drag_offset p;
     drag_last_pos := drag_last_pos p; throw_velocity := throw_velocity p;
     _right_click_consumed := _right_click_consumed p;
     STATES_INFO := STATES_INFO p; state := v; frames := frames p;
     width := width p; height := height p; frame_count := frame_count p;
     current_frame := current_frame p; frame_interval := frame_interval p;
     y_def := y_def p; x := x p; y := y p; immunity := immunity p;
     lie_duration := lie_duration p; wall_scene_step := wall_scene_step p;
     height_lie := height_lie p; main_window := main_window p |}.

Definition set_frames (v : list (Z * Z)) (p : Pet) : Pet :=
  {| species := species p; color := color p; fps := fps p; size := size p;
     screen_width := screen_width p; screen_height := screen_height p;
     dragging := dragging p; drag_offset := drag_offset p;
     drag_last_pos := drag_last_pos p; throw_velocity := throw_velocity p;
     _right_click_consumed := _right_click_consumed p;
     STATES_INFO := STATES_INFO p; state := state p; frames := v;
     width := width p; height := height p; frame_count := frame_count p;
     current_frame := current_frame p; frame_interval := frame_interval p;
     y_def := y_def p; x := x p; y := y p; immunity := immunity p;
     lie_duration := lie_duration p; wall_scene_step := wall_scene_step p;
     height_lie := height_lie p; main_window := main_window p |}.

Definition set_width (v : Z) (p : Pet) : Pet :=
  {| species := species p; color := color p; fps := fps p; size := size p;
     screen_width := screen_width p; screen_height := screen_height p;
     dragging := dragging p; drag_offset := drag_offset p;
     drag_last_pos := drag_last_pos p; throw_velocity := throw_velocity p;
     _right_click_consumed := _right_click_consumed p;
     STATES_INFO := STATES_INFO p; state := state p; frames := frames p;
     width := v; height := height p; frame_count := frame_count p;
     current_frame := current_frame p; frame_interval := frame_interval p;
     y_def := y_def p; x := x p; y := y p; immunity := immunity p;
     lie_duration := lie_duration p; wall_scene_step := wall_scene_step p;
     height_lie := height_lie p; main_window := main_window p |}.

Definition set_height (v : Z) (p : Pet) : Pet :=
  {| species := species p; color := color p; fps := fps p; size := size p;
     screen_width := screen_width p; screen_height := screen_height p;
     dragging := dragging p; drag_offset := drag_offset p;
     drag_last_pos := drag_last_pos p; throw_velocity := throw_velocity p;
     _right_click_consumed := _right_click_consumed p;
     STATES_INFO := STATES_INFO p; state := state p; frames := frames p;
     width := width p; height := v; frame_count := frame_count p;
     current_frame := current_frame p; frame_interval := frame_interval p;
     y_def := y_def p; x := x p; y := y p; immunity := immunity p;
     lie_duration := lie_duration p; wall_scene_step := wall_scene_step p;
     height_lie := height_lie p; main_window := main_window p |}.

Definition set_frame_count (v : Z) (p : Pet) : Pet :=
  {| species := species p; color := color p; fps := fps p; size := size p;
     screen_width := screen_width p; screen_height := screen_height p;
     dragging := dragging p; drag_offset := drag_offset p;
     drag_last_pos := drag_last_pos p; throw_velocity := throw_velocity p;
     _right_click_consumed := _right_click_consumed p;
     STATES_INFO := STATES_INFO p; state := state p; frames := frames p;
     width := width p; height := height p; frame_count := v;
     current_frame := current_frame p; frame_interval := frame_interval p;
     y_def := y_def p; x := x p; y := y p; immunity := immunity p;
     lie_duration := lie_duration p; wall_scene_step := wall_scene_step p;
     height_lie := height_lie p; main_window := main_window p |}.

Definition set_current_frame (v : Z) (p : Pet) : Pet :=
  {| species := species p; color := color p; fps := fps p; size := size p;
     screen_width := screen_width p; screen_height := screen_height p;
     dragging := dragging p; drag_offset := drag_offset p;
     drag_last_pos := drag_last_pos p; throw_velocity := throw_velocity p;
     _right_click_consumed := _right_click_consumed p;
     STATES_INFO := STATES_INFO p; state := state p; frames := frames p;
     width := width p; height := height p; frame_count := frame_count p;
     current_frame := v; frame_interval := frame_interval p;
     y_def := y_def p; x := x p; y := y p; immunity := immunity p;
     lie_duration := lie_duration p; wall_scene_step := wall_scene_step p;
     height_lie := height_lie p; main_window := main_window p |}.

Definition set_frame_interval (v : option Q) (p : Pet) : Pet :=
  {| species := species p; color := color p; fps := fps p; size := size p;
     screen_width := screen_width p; screen_height := screen_height p;
     dragging := dragging p; drag_offset := drag_offset p;
     drag_last_pos := drag_last_pos p; throw_velocity := throw_velocity p;
     _right_click_consumed := _right_click_consumed p;
     STATES_INFO := STATES_INFO p; state := state p; frames := frames p;
     width := width p; height := height p; frame_count := frame_count p;
     current_frame := current_frame p; frame_interval := v; y_def := y_def p;
     x := x p; y := y p; immunity := immunity p;
     lie_duration := lie_duration p; wall_scene_step := wall_scene_step p;
     height_lie := height_lie p; main_window := main_window p |}.

Definition set_x (v : Q) (p : Pet) : Pet :=
  {| species := species p; color := color p; fps := fps p; size := size p;
     screen_width := screen_width p; screen_height := screen_height p;
     dragging := dragging p; drag_offset := drag_offset p;
     drag_last_pos := drag_last_pos p; throw_velocity := throw_velocity p;
     _right_click_consumed := _right_click_consumed p;
     STATES_INFO := STATES_INFO p; state := state p; frames := frames p;
     width := width p; height := height p; frame_count := frame_count p;
     current_frame := current_frame p; frame_interval := frame_interval p;
     y_def := y_def p; x := v; y := y p; immunity := immunity p;
     lie_duration := lie_duration p; wall_scene_step := wall_scene_step p;
     height_lie := height_lie p; main_window := main_window p |}.

Definition set_y (v : Q) (p : Pet) : Pet :=
  {| species := species p; color := color p; fps := fps p; size := size p;
     screen_width := screen_width p; screen_height := screen_height p;
     dragging := dragging p; drag_offset := drag_offset p;
     drag_last_pos := drag_last_pos p; throw_velocity := throw_velocity p;
     _right_click_consumed := _right_click_consumed p;
     STATES_INFO := STATES_INFO p; state := state p; frames := frames p;
     width := width p; height := height p; frame_count := frame_count p;
     current_frame := current_frame p; frame_interval := frame_interval p;
     y_def := y_def p; x := x p; y := v; immunity := immunity p;
     lie_duration := lie_duration p; wall_scene_step := wall_scene_step p;
     height_lie := height_lie p; main_window := main_window p |}.

Definition set_immunity (v : bool) (p : Pet) : Pet :=
  {| species := species p; color := color p; fps := fps p; size := size p;
     screen_width := screen_width p; screen_height := screen_height p;
     dragging := dragging p; drag_offset := drag_offset p;
     drag_last_pos := drag_last_pos p; throw_velocity := throw_velocity p;
     _right_click_consumed := _right_click_consumed p;
     STATES_INFO := STATES_INFO p; state := state p; frames := frames p;
     width := width p; height := height p; frame_count := frame_count p;
     current_frame := current_frame p; frame_interval := frame_interval p;
     y_def := y_def p; x := x p; y := y p; immunity := v;
     lie_duration := lie_duration p; wall_scene_step := wall_scene_step p;
     height_lie := height_lie p; main_window := main_window p |}.

Definition set_height_lie (v : Z) (p : Pet) : Pet :=
  {| species := species p; color := color p; fps := fps p; size := size p;
     screen_width := screen_width p; screen_height := screen_height p;
     dragging := dragging p; drag_offset := drag_offset p;
     drag_last_pos := drag_last_pos p; throw_velocity := throw_velocity p;
     _right_click_consumed := _right_click_consumed p;
     STATES_INFO := STATES_INFO p; state := state p; frames := frames p;
     width := width p; height := height p; frame_count := frame_count p;
     current_frame := current_frame p; frame_interval := frame_interval p;
     y_def := y_def p; x := x p; y := y p; immunity := immunity p;
     lie_duration := lie_duration p; wall_scene_step := wall_scene_step p;
     height_lie := v; main_window := main_window p |}.

Definition set_wall_scene_step (v : option Z) (p : Pet) : Pet :=
  {| species := species p; color := color p; fps := fps p; size := size p;
     screen_width := screen_width p; screen_height := screen_height p;
     dragging := dragging p; drag_offset := drag_offset p;
     drag_last_pos := drag_last_pos p; throw_velocity := throw_velocity p;
     _right_click_consumed := _right_click_consumed p;
     STATES_INFO := STATES_INFO p; state := state p; frames := frames p;
     width := width p; height := height p; frame_count := frame_count p;
     current_frame := current_frame p; frame_interval := frame_interval p;
     y_def := y_def p; x := x p; y := y p; immunity := immunity p;
     lie_duration := lie_duration p; wall_scene_step := v;
     height_lie := height_lie p; main_window := main_window p |}.

(** ** Throw physics: [Pet._apply_throw] *)

Definition below_eps (v : Q * Q) : bool :=
  Qltb (Qabs (fst v)) THROW_EPS && Qltb (Qabs (snd v)) THROW_EPS.

(** [self.x = b; self.throw_velocity[0] = -self.throw_velocity[0] * 0.6] *)
Definition bounce_x (b : Z) (p : Pet) : Pet :=
  let v := throw_velocity p in
  set_throw_velocity ((- fst v * BOUNCE)%Q, snd v) (set_x (inject_Z b) p).

Definition bounce_y (b : Z) (p : Pet) : Pet :=
  let v := throw_velocity p in
  set_throw_velocity (fst v, (- snd v * BOUNCE)%Q) (set_y (inject_Z b) p).

(** The four boundary tests, in the order of the source. *)
Definition throw_collide (p : Pet) : Pet :=
  let max_x := screen_width p - width p in
  let max_y := screen_height p - height p in
  let p := if Qltb (x p) 0 then bounce_x 0 p else p in
  let p := if Qltb (inject_Z max_x) (x p) then bounce_x max_x p else p in
  let p := if Qltb (y p) 0 then bounce_y 0 p else p in
  let p := if Qltb (inject_Z max_y) (y p) then bounce_y max_y p else p in
  p.

(** [self.x += vx; self.y += vy; velocity *= 0.85] *)
Definition throw_move (p : Pet) : Pet :=
  let '(vx, vy) := throw_velocity p in
  let p := set_x (x p + vx)%Q p in
  let p := set_y (y p + vy)%Q p in
  set_throw_velocity ((vx * DAMPING)%Q, (vy * DAMPING)%Q) p.

(** Returns the pet and the boolean result: [true] while the throw is
    still moving the pet. *)
Definition _apply_throw (p : Pet) : Pet * bool :=
  if below_eps (throw_velocity p)
  then (set_throw_velocity (0%Q, 0%Q) p, false)
  else (throw_collide (throw_move p), true).

(** ** Collaborators that live outside the modelled files *)

(** What one tick samples from the outside: the pointer position and the
    two button states ([GetCursorPos], [GetAsyncKeyState]) and the draws
    of the random source used by [random.choice]. *)
Record Input : Type := mkInput {
  mouse_x : Z;
  mouse_y : Z;
  left_down : bool;
  right_down : bool;
  rnd_name : nat;
  rnd_dir : nat
}.

(** The methods and helpers imported by [pets.py] from modules that are
    not part of the modelled sources ([state.py], [squirrel_climb.py],
    [remove_alpha.py]).  They are parameters of the engine.
    [load_gif_frames] gives the (width, height) of each frame of a gif; a
    load that fails behaves like an empty sequence.  [default_direction]
    and [initial_counter] are the direction that the constructor of
    [State] gives a state built without one, and the counter that it gives
    every new state.  [resize_raises orig target] tells whether
    [Image.resize] of the imaging library raises for a frame of size
    [orig] and the target size [target]; the library refuses a target
    with a side below 1. *)
Record Ext : Type := mkExt {
  State_next : Input -> Pet -> Pet * bool;
  squirrel_climb : Input -> Pet -> Pet;
  go_climb : Input -> Pet -> Pet;
  load_gif_frames : string -> list (Z * Z);
  default_direction : Z;
  initial_counter : Z;
  resize_raises : Z * Z -> Z * Z -> bool
}.

(** ** Frames: [Pet.frame_animation] *)

Definition lower_ascii (c : ascii) : ascii :=
  let n := nat_of_ascii c in
  if ((65 <=? n) && (n <=? 90))%nat then ascii_of_nat (n + 32) else c.

(** [s.lower()], as far as the comparisons of the code need it: the
    letters A-Z are lowered.  The six size names hold no letter that a
    character outside ASCII lowers to, so the comparisons with them are
    decided as by the code. *)
Fixpoint lower (s : string) : string :=
  match s with
  | EmptyString => EmptyString
  | String c s' => String (lower_ascii c) (lower s')
  end.

(** The target height of a size bucket; [None] when no branch of the
    [if/elif] chain binds [new_height]. *)
Definition bucket_height (size : string) (orig_height : Z) : option Z :=
  let s := lower size in
  if String.eqb s "very small" then Some 20
  else if String.eqb s "small" then Some 40
  else if String.eqb s "original" then Some orig_height
  else if String.eqb s "medium" then Some 125
  else if String.eqb s "big" then Some 150
  else if String.eqb s "really big" then Some 200
  else None.

(** The loop over the gif frames.  The accumulator is [self.frames]; the
    second component is the last value bound to [new_height]; the result
    is [inl] when an iteration raises: [new_height] is not bound, the
    original height is zero, or [resize] refuses the target size. *)
Fixpoint resize_frames (ext : Ext) (size : string) (src : list (Z * Z))
    (acc : list (Z * Z)) (last : option Z)
    : list (Z * Z) + list (Z * Z) * option Z :=
  match src with
  | [] => inr (acc, last)
  | (orig_width, orig_height) :: src' =>
      match bucket_height size orig_height with
      | None => inl acc
      | Some new_height =>
          if orig_height =? 0 then inl acc
          else
            let new_width := Z.quot (orig_width * new_height) orig_height in
            if resize_raises ext (orig_width, orig_height)
                             (new_width, new_height)
            then inl acc
            else
              resize_frames ext size src' (acc ++ [(new_width, new_height)])
                            (Some new_height)
      end
  end.

Definition frame_animation (ext : Ext) (p : Pet) : Pet :=
  let p := set_frames [] p in
  match state p with
  | None => p
  | Some s =>
      match resize_frames ext (size p) (load_gif_frames ext (st_gif s))
                          [] None with
      | inl fr => set_frames fr p
      | inr (fr, None) => set_frames fr p
      | inr (fr, Some new_height) =>
          let p := set_height_lie new_height (set_frames fr p) in
          match fr with
          | [] => p
          | (w, h) :: _ =>
              let p := set_height h (set_width w p) in
              let p := set_frame_count (Z.of_nat (length fr)) p in
              let p := set_current_frame 0 p in
              let p := set_state (Some (set_counter 0 s)) p in
              if Qeq_bool (st_speed_animation s) 0 then p
              else if fps p =? 0 then p
              else set_frame_interval
                     (Some (1 / (inject_Z (fps p) * st_speed_animation s))%Q) p
          end
      end
  end.

(** ** State selection: [Pet.random_state] *)

(** The [exception] argument: [None], one name, or a list of names. *)
Inductive Exception : Type :=
| ExcNone
| ExcStr (s : string)
| ExcList (l : list string).

(** The names that the [for ex in exception] loop visits; an argument that
    is falsy ([None], the empty string, the empty list) visits none. *)
Definition exception_names (e : Exception) : list string :=
  match e with
  | ExcNone => []
  | ExcStr s => if String.eqb s "" then [] else [s]
  | ExcList l => l
  end.

Definition remove_excluded (keys : list string) (exs : list string)
    : list string :=
  fold_left (fun ks ex => if str_in ex ks then list_remove ex ks else ks)
            exs keys.

(** [random.choice(seq)] with the draw [r]; an empty sequence raises. *)
Definition choice {A : Type} (r : nat) (seq : list A) : option A :=
  match seq with
  | [] => None
  | _ => nth_error seq (r mod length seq)%nat
  end.

(** [None] is the value returned after the [except] branch. *)
Definition random_state (ext : Ext) (info : dict StateInfo)
    (exception : Exception) (r_name r_dir : nat) : option State :=
  let keys := remove_excluded (dict_keys info) (exception_names exception) in
  let keys := match keys with [] => dict_keys info | _ => keys end in
  match choice r_name keys with
  | None => None
  | Some nm =>
      match dict_get nm info with
      | None => None
      | Some i =>
          match choice r_dir [-1; 1] with
          | None => None
          | Some d =>
              Some {| name := nm; st_gif := gif i; st_hold := hold i;
                      st_movement_speed := movement_speed i;
                      st_speed_animation := speed_animation i;
                      direction := d; counter := initial_counter ext |}
          end
      end
  end.

(** The standing exclusion list of the two call sites. *)
Definition TRANSIENT_STATES : list string :=
  ["with_ball"; "wallclimb"; "walldig"; "wallgrab"; "wallnap";
   "fall_from_grab"]%string.

(** ** One tick: [Pet.update_state] *)

Inductive Event : Type := check_messages.

Definition in_bounds (p : Pet) (i : Input) : bool :=
  Qle_bool (x p) (inject_Z (mouse_x i))
  && Qle_bool (inject_Z (mouse_x i)) (x p + inject_Z (width p))
  && Qle_bool (y p) (inject_Z (mouse_y i))
  && Qle_bool (inject_Z (mouse_y i)) (y p + inject_Z (height p)).

(** Lines 131-136: the secondary button. *)
Definition right_click (inb : bool) (i : Input) (p : Pet)
    : Pet * list Event :=
  let '(p, ev) :=
    if right_down i && inb && negb (_right_click_consumed p)
    then (set_right_click_consumed true p,
          if main_window p then [check_messages] else [])
    else (p, []) in
  (if negb (right_down i) then set_right_click_consumed false p else p, ev).

(** Lines 138-142: a drag begins. *)
Definition begin_drag (inb : bool) (i : Input) (p : Pet) : Pet :=
  if left_down i && inb && negb (dragging p)
  then
    let p := set_dragging true p in
    let p := set_drag_offset ((inject_Z (mouse_x i) - x p)%Q,
                              (inject_Z (mouse_y i) - y p)%Q) p in
    let p := set_drag_last_pos (Some (mouse_x i, mouse_y i)) p in
    set_throw_velocity (0%Q, 0%Q) p
  else p.

(** Lines 146-155: the pet follows the pointer. *)
Definition drag_move (i : Input) (p : Pet) : Pet :=
  let new_x := (inject_Z (mouse_x i) - fst (drag_offset p))%Q in
  let new_y := (inject_Z (mouse_y i) - snd (drag_offset p))%Q in
  let p :=
    match drag_last_pos p with
    | Some (lx, ly) =>
        set_throw_velocity (inject_Z (mouse_x i - lx),
                            inject_Z (mouse_y i - ly)) p
    | None => p
    end in
  let p := set_drag_last_pos (Some (mouse_x i, mouse_y i)) p in
  let p := set_x (py_max 0 (py_min new_x
                     (inject_Z (screen_width p - width p)))) p in
  set_y (py_max 0 (py_min new_y (inject_Z (screen_height p - height p)))) p.

(** Lines 156-159: the button was released. *)
Definition drag_release (p : Pet) : Pet :=
  let p := set_dragging false p in
  let v := throw_velocity p in
  let p := set_throw_velocity ((fst v * RELEASE)%Q, (snd v * RELEASE)%Q) p in
  set_drag_last_pos None p.

(** [distance < h] for the Euclidean distance between the pet's origin and
    the pointer, decided on the squares. *)
Definition distance_sq (p : Pet) (i : Input) : Q :=
  ((x p - inject_Z (mouse_x i)) ^ 2 + (y p - inject_Z (mouse_y i)) ^ 2)%Q.

Definition distance_lt (p : Pet) (i : Input) (h : Z) : bool :=
  (0 <? h) && Qltb (distance_sq p i) (inject_Z (h * h)).

(** [self.state.direction *= -1] unless the state is "walldig"; [None]
    when [self.state] is [None] and the attribute access raises. *)
Definition flip_direction (p : Pet) : option Pet :=
  match state p with
  | None => None
  | Some s =>
      if negb (String.eqb (name s) "walldig")
      then Some (set_state (Some (set_direction (direction s * -1) s)) p)
      else Some p
  end.

(** Lines 190-199: the lateral band. *)
Definition lateral (p : Pet) : Pet :=
  let min_x := screen_width p - screen_width p / 4 in
  let max_x := screen_width p - width p in
  let left :=
    if Qltb (x p) (inject_Z min_x)
    then
      let p := set_x (inject_Z min_x) p in
      match flip_direction p with Some q => inr q | None => inl p end
    else inr p in
  match left with
  | inl p => p
  | inr p =>
      if Qltb (inject_Z max_x) (x p)
      then
        let p := set_x (inject_Z max_x) p in
        match flip_direction p with Some q => q | None => p end
      else p
  end.

(** The state built by the proximity override (lines 172-177);
    [defaults] is [PETS_DATA[self.species]["defaults"]]. *)
Definition lie_state (ext : Ext) (defaults : dict StateDefaults)
    (gif_path : string) (p : Pet) : State :=
  let dflt := match dict_get "lie" defaults with
              | Some d => d | None => no_defaults end in
  {| name := "lie"; st_gif := gif_path; st_hold := lie_duration p;
     st_movement_speed :=
       match d_movement_speed dflt with Some v => v | None => 0%Q end;
     st_speed_animation :=
       match d_speed_animation dflt with Some v => v | None => 1%Q end;
     direction := default_direction ext;
     counter := initial_counter ext |}.

(** The code after the throw step either leaves [update_state] early (a
    [return], or an exception caught by the handler), or falls through to
    the lateral constraint of line 190.  [inl p] is the pet of a tick that
    ended early, [inr p] the pet that arrives at line 190. *)

(** Lines 181-188: the running state advances; on completion a new state
    is chosen.  [self.state.next] raises when [self.state] is [None]. *)
Definition behave_next (ext : Ext) (i : Input) (p : Pet) : Pet + Pet :=
  match state p with
  | None => inl p
  | Some _ =>
      let '(p, finished) := State_next ext i p in
      if finished
      then
        let p :=
          if String.eqb (species p) "squirrel"
          then go_climb ext i p
          else set_state (random_state ext (STATES_INFO p)
                            (ExcList TRANSIENT_STATES)
                            (rnd_name i) (rnd_dir i)) p in
        let p := set_immunity false p in
        inr (frame_animation ext p)
      else inr p
  end.

(** Lines 164-188: the wall scene, the proximity override, or the running
    state. *)
Definition behave (ext : Ext) (PETS_DATA : dict SpeciesData) (i : Input)
    (p : Pet) : Pet + Pet :=
  match wall_scene_step p with
  | Some _ => inl (squirrel_climb ext i p)
  | None =>
      match dict_get (species p) PETS_DATA with
      | None => inl p
      | Some sd =>
          match dict_get (color p) (sd_states sd) with
          | None => inl p
          | Some color_states =>
              match dict_get "lie" color_states with
              | Some gif_path =>
                  if distance_lt p i (height_lie p) && negb (immunity p)
                  then
                    match sd_defaults sd with
                    | None => inl p
                    | Some defaults =>
                        let p :=
                          set_state
                            (Some (lie_state ext defaults gif_path p)) p in
                        let p := set_immunity true p in
                        inr (frame_animation ext p)
                    end
                  else behave_next ext i p
              | None => behave_next ext i p
              end
          end
      end
  end.

(** Lines 161-199: the throw step, then the behaviour and the lateral
    constraint. *)
Definition after_drag (ext : Ext) (PETS_DATA : dict SpeciesData) (i : Input)
    (p : Pet) : Pet :=
  let '(p, active) := _apply_throw p in
  if active then p
  else
    match behave ext PETS_DATA i p with
    | inl q => q
    | inr q => lateral q
    end.

Definition update_state (ext : Ext) (PETS_DATA : dict SpeciesData)
    (i : Input) (p : Pet) : Pet * list Event :=
  let inb := in_bounds p i in
  let '(p, ev) := right_click inb i p in
  let p := begin_drag inb i p in
  if dragging p
  then
    if left_down i then (drag_move i p, ev)
    else (after_drag ext PETS_DATA i (drag_release p), ev)
  else (after_drag ext PETS_DATA i p, ev).

(** Several ticks in a row, with the callbacks they made. *)
Fixpoint run (ext : Ext) (PETS_DATA : dict SpeciesData) (inputs : list Input)
    (p : Pet) : Pet * list Event :=
  match inputs with
  | [] => (p, [])
  | i :: inputs' =>
      let '(p, ev) := update_state ext PETS_DATA i p in
      let '(q, evs) := run ext PETS_DATA inputs' p in
      (q, ev ++ evs)
  end.

(** *** Which part of the code owns a tick *)

(** The tick ends at the [return] of line 155: the primary button is down
    and the pet is, or has just begun, being dragged. *)
Definition drag_active (i : Input) (p : Pet) : bool :=
  left_down i && (dragging p || in_bounds p i).

(** The pet that enters [_apply_throw] on a tick that no drag owns. *)
Definition pre_throw (i : Input) (p : Pet) : Pet :=
  let inb := in_bounds p i in
  let p := begin_drag inb i (fst (right_click inb i p)) in
  if dragging p then drag_release p else p.

(** The tick ends at the [return] of line 162. *)
Definition throw_active (i : Input) (p : Pet) : bool :=
  negb (drag_active i p) && negb (below_eps (throw_velocity (pre_throw i p))).

(** The pet that enters the behaviour code on a tick owned by neither. *)
Definition pre_behave (i : Input) (p : Pet) : Pet :=
  fst (_apply_throw (pre_throw i p)).

(** The tick is owned by neither and runs on to the lateral constraint of
    line 190. *)
Definition normal_tick (ext : Ext) (PETS_DATA : dict SpeciesData)
    (i : Input) (p : Pet) : bool :=
  negb (drag_active i p) && negb (throw_active i p)
  && match behave ext PETS_DATA i (pre_behave i p) with
     | inr _ => true
     | inl _ => false
     end.

(** The collaborators leave the flag of the secondary button alone. *)
Definition keeps_click_flag (ext : Ext) : Prop :=
  forall (i : Input) (p : Pet),
    _right_click_consumed (fst (State_next ext i p)) = _right_click_consumed p
    /\ _right_click_consumed (squirrel_climb ext i p) = _right_click_consumed p
    /\ _right_click_consumed (go_climb ext i p) = _right_click_consumed p.

(** Repeated throw steps. *)
Fixpoint throw_ticks (n : nat) (p : Pet) : Pet :=
  match n with
  | O => p
  | S n' => throw_ticks n' (fst (_apply_throw p))
  end.

(** A factor by which the collision tests scale one velocity component:
    no bounce, one bounce, or a bounce on each of the two tests. *)
Definition bounce_factor (c : Q) : Prop :=
  (c == 1 \/ c == - BOUNCE \/ c == BOUNCE * BOUNCE)%Q.

(** Two pets with the same position and throw velocity. *)
Definition same_motion (p p' : Pet) : Prop :=
  x p = x p' /\ y p = y p' /\ throw_velocity p = throw_velocity p'.

(** The bound 10 * 0.85^k on the speed after [k] throw steps. *)
Fixpoint decay (k : nat) : Q :=
  match k with
  | O => 10
  | S k' => (decay k' * DAMPING)%Q
  end.

(** The squared magnitude of a velocity. *)
Definition speed_sq (v : Q * Q) : Q := (fst v * fst v + snd v * snd v)%Q.

(** The position is inside the screen rectangle. *)
Definition on_screen (p : Pet) : Prop :=
  (0 <= x p <= inject_Z (screen_width p - width p))%Q
  /\ (0 <= y p <= inject_Z (screen_height p - height p))%Q.

(** The pet is not larger than the screen. *)
Definition fits_screen (p : Pet) : Prop :=
  0 <= screen_width p - width p /\ 0 <= screen_height p - height p.

(** ** Construction: [Pet.__init__] *)

Inductive PyExn : Type :=
| KeyError (key : string)
| TypeError
| AttributeError
| FileNotFoundError (what : string).

(** How a call ends: with a value, or with an exception that reaches the
    caller. *)
Inductive Outcome (A : Type) : Type :=
| Returns (a : A)
| Raises (e : PyExn).
Arguments Returns {A} a.
Arguments Raises {A} e.

(** What the constructor asks the operating system: [GetSystemMetrics(0)],
    [GetSystemMetrics(1)] and [Windows.taskbar_settings()]. *)
Record Screen : Type := mkScreen {
  metrics_width : Z;
  metrics_height : Z;
  taskbar_height : Z;
  taskbar_autohide : bool;
  taskbar_edge : Z
}.

(** The object left behind when the body of [__init__] raises: the
    attributes assigned before line 49, and [STATES_INFO] and [state] when
    their assignments were reached ([None]: the attribute holds no catalog
    or state yet).  Position, size, window handle and [immunity] are not
    assigned. *)
Record HalfPet : Type := mkHalfPet {
  h_species : string;
  h_color : string;
  h_fps : Z;
  h_size : string;
  h_screen_width : Z;
  h_screen_height : Z;
  h_STATES_INFO : option (dict StateInfo);
  h_state : option (option State)
}.

Inductive PetObject : Type :=
| Constructed (p : Pet)
| HalfConstructed (h : HalfPet).

(** Lines 52-59: the loop that fills [STATES_INFO]. *)
Definition state_info (fps : Z) (defaults : dict StateDefaults)
    (state_name gif_path : string) : StateInfo :=
  let dflt := match dict_get state_name defaults with
              | Some d => d | None => no_defaults end in
  {| gif := gif_path;
     hold := match d_hold dflt with Some h => h | None => fps end;
     movement_speed :=
       match d_movement_speed dflt with Some v => v | None => 0%Q end;
     speed_animation :=
       match d_speed_animation dflt with Some v => v | None => 1%Q end |}.

Definition build_STATES_INFO (fps : Z) (defaults : dict StateDefaults)
    (color_states : dict string) : dict StateInfo :=
  fold_left (fun acc kv =>
               dict_set (fst kv) (state_info fps defaults (fst kv) (snd kv)) acc)
            color_states [].

(** Whether [frame_animation] reaches the assignment of [width] and
    [height]. *)
Definition frames_loaded (ext : Ext) (size : string) (st : option State)
    : bool :=
  match st with
  | None => false
  | Some s =>
      match resize_frames ext size (load_gif_frames ext (st_gif s))
                          [] None with
      | inr (_ :: _, Some _) => true
      | _ => false
      end
  end.

(** The body of the constructor; [inl] carries the object at the raising
    statement together with the exception. *)
Definition init_body (ext : Ext) (PETS_DATA : dict SpeciesData)
    (scr : Screen) (species color : string) (fps : Z) (size : string)
    (r_name r_dir : nat) : HalfPet * PyExn + Pet :=
  let half info st :=
    {| h_species := species; h_color := color; h_fps := fps; h_size := size;
       h_screen_width := metrics_width scr;
       h_screen_height := metrics_height scr;
       h_STATES_INFO := info; h_state := st |} in
  match dict_get species PETS_DATA with
  | None => inl (half None None, KeyError species)
  | Some species_data =>
      match dict_get color (sd_states species_data) with
      | None => inl (half (Some []) None, KeyError color)
      | Some color_states =>
          let info := build_STATES_INFO fps (defaults_or_empty species_data)
                                        color_states in
          let st := random_state ext info (ExcList TRANSIENT_STATES)
                                 r_name r_dir in
          if frames_loaded ext size st
          then
            let p0 :=
              {| species := species; color := color; fps := fps; size := size;
                 screen_width := metrics_width scr;
                 screen_height := metrics_height scr;
                 dragging := false; drag_offset := (0%Q, 0%Q);
                 drag_last_pos := None; throw_velocity := (0%Q, 0%Q);
                 _right_click_consumed := false;
                 STATES_INFO := info; state := st; frames := [];
                 width := 0; height := 0; frame_count := 0;
                 current_frame := 0; frame_interval := None;
                 y_def := 0; x := 0%Q; y := 0%Q; immunity := false;
                 lie_duration := 24; wall_scene_step := None;
                 height_lie := 20; main_window := false |} in
            let p := frame_animation ext p0 in
            let rest :=
              if taskbar_autohide scr || negb (taskbar_edge scr =? 3)
              then screen_height p - height p
              else screen_height p - height p - taskbar_height scr in
            inr {| species := species; color := color; fps := fps;
                   size := size;
                   screen_width := screen_width p;
                   screen_height := screen_height p;
                   dragging := false; drag_offset := (0%Q, 0%Q);
                   drag_last_pos := None; throw_velocity := (0%Q, 0%Q);
                   _right_click_consumed := false;
                   STATES_INFO := info; state := state p;
                   frames := frames p;
                   width := width p; height := height p;
                   frame_count := frame_count p;
                   current_frame := current_frame p;
                   frame_interval := frame_interval p;
                   y_def := rest; x := inject_Z (screen_width p - width p);
                   y := inject_Z rest; immunity := false;
                   lie_duration := 24; wall_scene_step := None;
                   height_lie := 20; main_window := false |}
          else inl (half (Some info) (Some st), TypeError)
      end
  end.

(** [Pet(species, color, fps, size)]: the body runs inside
    [try: ... except Exception as e: print(e)], so the call returns an
    object whatever happened. *)
Definition Pet__init__ (ext : Ext) (PETS_DATA : dict SpeciesData)
    (scr : Screen) (species color : string) (fps : Z) (size : string)
    (r_name r_dir : nat) : Outcome PetObject :=
  match init_body ext PETS_DATA scr species color fps size r_name r_dir with
  | inl (h, _) => Returns (HalfConstructed h)
  | inr p => Returns (Constructed p)
  end.

(** ** The asset loader of the old demo: [load_deskpets_mapping] *)

Record DeskPetsMapping : Type := mkDeskPetsMapping {
  m_species : string;
  m_variant : string;
  m_states : dict string;
  m_defaults : dict StateDefaults
}.

(** The folder [desk_root]: the parsed [pets_data.json] when the file
    exists, and the existence test of the asset files. *)
Record DeskRoot : Type := mkDeskRoot {
  pets_data_json : option (dict SpeciesData);
  asset_exists : string -> bool
}.

Fixpoint first_missing (root : DeskRoot) (states : dict string)
    : option string :=
  match states with
  | [] => None
  | (st, rel) :: states' =>
      if asset_exists root rel then first_missing root states' else Some st
  end.

Definition load_deskpets_mapping (root : DeskRoot) (species variant : string)
    : Outcome DeskPetsMapping :=
  match pets_data_json root with
  | None => Raises (FileNotFoundError "pets_data.json")
  | Some data =>
      match dict_get species data with
      | None => Raises (KeyError species)
      | Some sp =>
          match dict_get variant (sd_states sp) with
          | None => Raises (KeyError variant)
          | Some states =>
              match first_missing root states with
              | Some st => Raises (FileNotFoundError st)
              | None =>
                  Returns {| m_species := species; m_variant := variant;
                             m_states := states;
                             m_defaults := defaults_or_empty sp |}
              end
          end
      end
  end.

(** ** The mailbox: [messaging.py] *)

(** A JSON value as [json.loads] returns it. *)
#[warnings="-register-all"]
Inductive json : Type :=
| JNull
| JBool (b : bool)
| JNum (q : Q)
| JStr (s : string)
| JArr (l : list json)
| JObj (d : list (string * json)).

(** A line of a [.jsonl] file, by what [read_jsonl] makes of it: blank
    after [strip()], rejected by [json.loads], or parsed to a value.
    [json.dumps(r)] writes the line that parses back to [r].  These three
    end in a line feed.  The last line of a file may lack the line feed:
    [OpenBlank] is such a line that is blank, [OpenText row] one that is
    not, with [row] what [json.loads] makes of it.  [Glued] is a line that
    consists of a line of the kind [OpenText] and, right after it, the
    JSON text of an object: [json.loads] accepts a text that ends in the
    text of an object only when what stands before it is blank, so it
    rejects such a line. *)
Inductive line : Type :=
| Blank
| Malformed (text : string)
| Parsed (v : json)
| OpenBlank
| OpenText (row : option json)
| Glued.

(** The shared folder: file -> lines.  A file is identified by the name
    under which the file system knows it. *)
Abbreviation files := (gmap string (list line)).


(** *** [str.strip()] *)

(** The characters that [str.strip()] removes are those with
    [str.isspace]: U+0009-U+000D, U+001C-U+0020, U+0085, U+00A0, U+1680,
    U+2000-U+200A, U+2028, U+2029, U+202F, U+205F and U+3000.  In UTF-8
    the first ten are single bytes, the next two a pair of bytes and the
    others three bytes. *)
Definition is_space (c : ascii) : bool :=
  let n := nat_of_ascii c in
  (((9 <=? n) && (n <=? 13)) || ((28 <=? n) && (n <=? 32)))%nat.

(** U+0085 is C2 85 and U+00A0 is C2 A0. *)
Definition is_space2 (c1 c2 : ascii) : bool :=
  let n1 := nat_of_ascii c1 in
  let n2 := nat_of_ascii c2 in
  ((n1 =? 194) && ((n2 =? 133) || (n2 =? 160)))%nat.

(** U+1680 is E1 9A 80; U+2000-U+200A are E2 80 80 - E2 80 8A; U+2028,
    U+2029 and U+202F are E2 80 A8, E2 80 A9 and E2 80 AF; U+205F is
    E2 81 9F; U+3000 is E3 80 80. *)
Definition is_space3 (c1 c2 c3 : ascii) : bool :=
  let n1 := nat_of_ascii c1 in
  let n2 := nat_of_ascii c2 in
  let n3 := nat_of_ascii c3 in
  (((n1 =? 225) && (n2 =? 154) && (n3 =? 128))
   || ((n1 =? 226) && (n2 =? 128)
       && (((128 <=? n3) && (n3 <=? 138))
           || (n3 =? 168) || (n3 =? 169) || (n3 =? 175)))
   || ((n1 =? 226) && (n2 =? 129) && (n3 =? 159))
   || ((n1 =? 227) && (n2 =? 128) && (n3 =? 128)))%nat.

(** Drop from the front every character that one of the three tests
    accepts; [p1], [p2] and [p3] test the characters of one, two and three
    bytes. *)
Fixpoint lstrip_with (p1 : ascii -> bool) (p2 : ascii -> ascii -> bool)
    (p3 : ascii -> ascii -> ascii -> bool) (s : string) : string :=
  match s with
  | EmptyString => EmptyString
  | String c1 s1 =>
      if p1 c1 then lstrip_with p1 p2 p3 s1
      else
        match s1 with
        | EmptyString => s
        | String c2 s2 =>
            if p2 c1 c2 then lstrip_with p1 p2 p3 s2
            else
              match s2 with
              | EmptyString => s
              | String c3 s3 =>
                  if p3 c1 c2 c3 then lstrip_with p1 p2 p3 s3 else s
              end
        end
  end.

Definition lstrip (s : string) : string :=
  lstrip_with is_space is_space2 is_space3 s.

Fixpoint string_rev (s : string) : string :=
  match s with
  | EmptyString => EmptyString
  | String c s' => (string_rev s' +:+ String c EmptyString)%string
  end.

(** White space dropped from the end: the bytes are read backwards, so
    the tests see the bytes of a character in reverse order. *)
Definition rstrip (s : string) : string :=
  string_rev
    (lstrip_with is_space (fun c2 c1 => is_space2 c1 c2)
                 (fun c3 c2 c1 => is_space3 c1 c2 c3) (string_rev s)).

Definition strip (s : string) : string := rstrip (lstrip s).

(** Truth value of a JSON value in a Python condition. *)
Definition truthy (v : json) : bool :=
  match v with
  | JNull => false
  | JBool b => b
  | JNum q => negb (Qeq_bool q 0)
  | JStr s => negb (String.eqb s "")
  | JArr l => match l with [] => false | _ => true end
  | JObj d => match d with [] => false | _ => true end
  end.

(** A directory given as a [pathlib.Path], by what the mailbox asks of
    it: [truediv shared_dir name] is the file that [shared_dir / name]
    names, and [with_suffix_tmp shared_dir name] the file that
    [(shared_dir / name).with_suffix(".tmp")] names.  The library
    normalises a path and the file system may fold the case of names, so
    that different names can denote one file. *)
Record Dir : Type := mkDir {
  truediv : string -> string;
  with_suffix_tmp : string -> string
}.

(** [f"inbox_{user_id}.jsonl"] *)
Definition inbox_name (user_id : string) : string :=
  ("inbox_" +:+ user_id +:+ ".jsonl")%string.

Definition inbox_path (shared_dir : Dir) (user_id : string) : string :=
  truediv shared_dir (inbox_name user_id).

(** [path.with_suffix(".tmp")] of an inbox path. *)
Definition tmp_path (shared_dir : Dir) (user_id : string) : string :=
  with_suffix_tmp shared_dir (inbox_name user_id).

Fixpoint parsed_rows (ls : list line) : list json :=
  match ls with
  | [] => []
  | Parsed v :: ls' => v :: parsed_rows ls'
  | OpenText (Some v) :: ls' => v :: parsed_rows ls'
  | _ :: ls' => parsed_rows ls'
  end.

Definition read_jsonl (fs : files) (path : string) : list json :=
  match fs !! path with
  | None => []
  | Some ls => parsed_rows ls
  end.

(** Write the rows to the temporary file, then rename it over [path]. *)
Definition overwrite_jsonl (fs : files) (path tmp : string)
    (rows : list json) : files :=
  let fs := <[tmp := map Parsed rows]> fs in
  <[path := map Parsed rows]> (delete tmp fs).

(** The lines of a file after the text [json.dumps(obj) + "\n"] has been
    written at its end: a line of its own when the file ends in a line
    feed, and otherwise the end of the last line. *)
Definition append_line (ls : list line) (obj : json) : list line :=
  match List.last ls Blank with
  | OpenBlank => removelast ls ++ [Parsed obj]
  | OpenText _ => removelast ls ++ [Glued]
  | _ => ls ++ [Parsed obj]
  end.

Definition atomic_append_jsonl (fs : files) (path : string) (obj : json)
    : files :=
  match fs !! path with
  | None => <[path := [Parsed obj]]> fs
  | Some ls => <[path := append_line ls obj]> fs
  end.

(** [send_message]; [msg_id] and [now] are the values of [uuid.uuid4()]
    and [now_ts()]. *)
Definition send_message (fs : files) (shared_dir : Dir)
    (sender receiver : string) (text : string) (msg_id : string) (now : Q)
    : files :=
  let text := strip text in
  if String.eqb text "" then fs
  else
    atomic_append_jsonl fs (inbox_path shared_dir receiver)
      (JObj [("msg_id", JStr msg_id); ("sender", JStr sender);
             ("receiver", JStr receiver); ("created_at", JNum now);
             ("text", JStr text); ("delivered", JBool false)]%string).

(** [r.get("delivered") is True] *)
Definition is_delivered (d : dict json) : bool :=
  match dict_get "delivered" d with
  | Some (JBool true) => true
  | _ => false
  end.

(** [(r.get("text", "") or "").strip()]; [None] when the value is truthy
    and has no [strip] method. *)
Definition row_text (d : dict json) : option string :=
  let v := match dict_get "text" d with Some v => v | None => JStr "" end in
  if truthy v
  then match v with JStr s => Some (strip s) | _ => None end
  else Some (strip "").

(** [r["delivered"] = True; r["delivered_at"] = t] *)
Definition mark_delivered (t : Q) (d : dict json) : dict json :=
  dict_set "delivered_at" (JNum t) (dict_set "delivered" (JBool true) d).

(** The loop of [fetch_undelivered] over the rows: the rows after the
    in-place updates, the list [out] and the flag [changed]; an exception
    leaves the loop at once. *)
Fixpoint deliver_rows (t : Q) (rows : list json)
    : Outcome (list json * list json * bool) :=
  match rows with
  | [] => Returns ([], [], false)
  | r :: rows' =>
      match r with
      | JObj d =>
          if is_delivered d
          then
            match deliver_rows t rows' with
            | Returns (rs, out, changed) => Returns (r :: rs, out, changed)
            | Raises e => Raises e
            end
          else
            let r' := JObj (mark_delivered t d) in
            match row_text (mark_delivered t d) with
            | None => Raises AttributeError
            | Some text =>
                match deliver_rows t rows' with
                | Returns (rs, out, _) =>
                    Returns (r' :: rs,
                             if String.eqb text "" then out else r' :: out,
                             true)
                | Raises e => Raises e
                end
            end
      | _ => Raises AttributeError
      end
  end.

(** [fetch_undelivered(shared_dir, user_id)] at clock reading [t]: the
    result of the call and the folder afterwards. *)
Definition fetch_undelivered (fs : files) (shared_dir : Dir)
    (user_id : string) (t : Q) : Outcome (list json) * files :=
  let path := inbox_path shared_dir user_id in
  let rows := read_jsonl fs path in
  match rows with
  | [] => (Returns [], fs)
  | _ =>
      match deliver_rows t rows with
      | Raises e => (Raises e, fs)
      | Returns (rows', out, changed) =>
          (Returns out,
           if changed
           then overwrite_jsonl fs path (tmp_path shared_dir user_id) rows'
           else fs)
      end
  end.

(** *** Notions used to state the mailbox properties *)

(** A row as [send_message] writes them: a JSON object whose ["text"] is
    missing, falsy or a string, so that the loop can read its text. *)
Definition message_row (r : json) : bool :=
  match r with
  | JObj d => match row_text d with Some _ => true | None => false end
  | _ => false
  end.

Definition row_delivered (r : json) : bool :=
  match r with
  | JObj d => is_delivered d
  | _ => false
  end.

(** Not yet delivered, with a text that is not blank. *)
Definition row_wanted (r : json) : bool :=
  match r with
  | JObj d =>
      negb (is_delivered d)
      && match row_text d with
         | Some text => negb (String.eqb text "")
         | None => false
         end
  | _ => false
  end.

(** The row after the call: marked when it was not delivered yet. *)
Definition delivered_row (t : Q) (r : json) : json :=
  match r with
  | JObj d => if is_delivered d then r else JObj (mark_delivered t d)
  | _ => r
  end.

(** ** Further notions of the mailbox *)

(** A row that the loop of [fetch_undelivered] gets past: a JSON object
    that is already delivered, or whose text can be read. *)
Definition row_readable (r : json) : bool :=
  match r with
  | JObj d =>
      is_delivered d
      || match row_text d with Some _ => true | None => false end
  | _ => false
  end.

(** The rows of an inbox are messages. *)
Definition inbox_ok (fs : files) (path : string) : Prop :=
  forallb message_row (read_jsonl fs path) = true.

(** The object that [send_message] appends. *)
Definition new_message (sender receiver text msg_id : string) (now : Q)
    : json :=
  JObj [("msg_id", JStr msg_id); ("sender", JStr sender);
        ("receiver", JStr receiver); ("created_at", JNum now);
        ("text", JStr (strip text)); ("delivered", JBool false)]%string.

(** The string begins with a character that one of the tests accepts. *)
Definition head_space (p1 : ascii -> bool) (p2 : ascii -> ascii -> bool)
    (p3 : ascii -> ascii -> ascii -> bool) (s : string) : bool :=
  match s with
  | EmptyString => false
  | String c1 s1 =>
      p1 c1
      || match s1 with
         | EmptyString => false
         | String c2 s2 =>
             p2 c1 c2
             || match s2 with
                | EmptyString => false
                | String c3 _ => p3 c1 c2 c3
                end
         end
  end.


(** The rows that the last line of a file contributes when it lacks the
    line feed and is not blank. *)
Definition open_row (row : option json) : list json :=
  match row with
  | Some v => [v]
  | None => []
  end.



(** ** Notions used to state the frame properties *)

(** One gif frame resized to the target height [new_height]. *)
Definition resized (new_height : Z) (frame : Z * Z) : Z * Z :=
  (Z.quot (fst frame * new_height) (snd frame), new_height).

(** The size of a resized frame for a size setting: the setting's height,
    or the frame's own height for "original". *)
Definition resized_for (size : string) (frame : Z * Z) : option (Z * Z) :=
  match bucket_height size (snd frame) with
  | Some new_height => Some (resized new_height frame)
  | None => None
  end.

(** No frame has height 0. *)
Definition all_tall (src : list (Z * Z)) : bool :=
  forallb (fun f => negb (snd f =? 0)) src.

(** [resize] accepts the target size of every frame. *)
Definition all_resizable (ext : Ext) (size : string) (src : list (Z * Z))
    : bool :=
  forallb (fun f =>
             match resized_for size f with
             | Some target => negb (resize_raises ext f target)
             | None => true
             end) src.

(** ** Notions used to state the end of a throw *)

(** 0.85^k: what [k] throw steps leave of a velocity component that never
    bounces. *)
Fixpoint damping_pow (k : nat) : Q :=
  match k with
  | O => 1
  | S k' => (damping_pow k' * DAMPING)%Q
  end.

(** A number of throw steps that is enough to end a throw of velocity
    [v]: 29 * (|vx| + |vy|), rounded up. *)
Definition throw_bound (v : Q * Q) : nat :=
  Z.to_nat (Qceiling (29 * (Qabs (fst v) + Qabs (snd v)))).

(** Two pets that agree on all that the throw step reads and writes:
    position, velocity and the sizes of pet and screen. *)
Definition same_flight (p p' : Pet) : Prop :=
  same_motion p p'
  /\ screen_width p = screen_width p' /\ width p = width p'
  /\ screen_height p = screen_height p' /\ height p = height p'.

(** No tick of the run sees the primary button down. *)
Definition hands_off (inputs : list Input) : Prop :=
  Forall (fun i => left_down i = false) inputs.

(** ** Notions used to state the stability of the lateral band *)

(** The state after [self.state.direction *= -1], which the code skips
    for the state "walldig". *)
Definition turned_state (s : State) : State :=
  if String.eqb (name s) "walldig" then s
  else set_direction (- direction s) s.

(** ** The message bubble: [MainWindow.check_messages] of [window.py] *)

(** [int(v)] of a number: truncation towards zero. *)
Definition py_int (v : Q) : Z := Z.quot (Qnum v) (QDen v).

(** The line feed of the string literals. *)
Definition LF : string := String "010"%char EmptyString.

(** A byte that continues a character in UTF-8: 10xxxxxx. *)
Definition is_continuation (c : ascii) : bool :=
  let n := nat_of_ascii c in ((128 <=? n) && (n <=? 191))%nat.

(** [len(s)]: the number of characters, that is, of bytes that begin
    one. *)
Fixpoint py_len (s : string) : nat :=
  match s with
  | EmptyString => O
  | String c s' => if is_continuation c then py_len s' else S (py_len s')
  end.

(** [s[:n]]: the first [n] characters. *)
Fixpoint py_take (n : nat) (s : string) : string :=
  match s with
  | EmptyString => EmptyString
  | String c s' =>
      if is_continuation c then String c (py_take n s')
      else
        match n with
        | O => EmptyString
        | S n' => String c (py_take n' s')
        end
  end.

Module MainWindow.

Inductive MessageIcon : Type := Information | Warning | Critical.

(** The calls that the method makes on the tray icon and on the bubble.
    They are taken not to raise. *)
Inductive Ui : Type :=
| tray_showMessage (title body : string) (icon : MessageIcon) (msecs : Z)
| bubble_show_text (text : string) (seconds : Q)
| bubble_set_anchor (bx by_ : Z).

(** What the method reads of the window.  [me] is a string or [None];
    [shared_dir] is a [Path], which is always true in a condition, or
    [None]; [pets] is the empty list while the attribute is not set. *)
Record t : Type := mk {
  me : option string;
  partner : option string;
  shared_dir : option Dir;
  pets : list PetObject
}.

Definition SEPARATOR : string := (LF +:+ LF +:+ "---" +:+ LF +:+ LF)%string.
Definition ELLIPSIS : string := (LF +:+ "..." +:+ LF)%string.
Definition NOT_CONFIGURED : string :=
  ("Messaging not configured." +:+ LF
   +:+ "Run with --me --partner --shared.")%string.

Section Formatting.

(** [str(v)] of a JSON value that is no string. *)
Variable py_str : json -> string.

(** The text that an f-string puts in for a value. *)
Definition format_value (v : json) : string :=
  match v with
  | JStr s => s
  | _ => py_str v
  end.

(** [m.get("sender", "?")] *)
Definition sender_of (d : dict json) : json :=
  match dict_get "sender" d with
  | Some v => v
  | None => JStr "?"
  end.

(** [f"From {sender}:\n{text}"] *)
Definition chunk (sender : json) (text : string) : string :=
  ("From " +:+ format_value sender +:+ ":" +:+ LF +:+ text)%string.

(** Lines 270-275: the loop over the messages; [None] when a message has
    no [get] method or its text has no [strip] method, and the loop
    raises. *)
Fixpoint chunks_of (msgs : list json) : option (list string) :=
  match msgs with
  | [] => Some []
  | m :: msgs' =>
      match m with
      | JObj d =>
          match row_text d with
          | None => None
          | Some text =>
              match chunks_of msgs' with
              | None => None
              | Some chunks =>
                  Some (if String.eqb text "" then chunks
                        else chunk (sender_of d) text :: chunks)
              end
          end
      | _ => None
      end
  end.

(** Lines 280-282: the text of the bubble. *)
Definition bubble_text_of (chunks : list string) : string :=
  let bubble_text := String.concat SEPARATOR chunks in
  if (800 <? py_len bubble_text)%nat
  then (py_take 800 bubble_text +:+ ELLIPSIS)%string
  else bubble_text.

(** [check_messages(force_feedback)] at clock reading [now]: the calls
    made on tray icon and bubble, in order, and the folder afterwards.
    The body runs inside [try: ... except Exception: pass]. *)
Definition check_messages (w : t) (force_feedback : bool) (now : Q)
    (fs : files) : list Ui * files :=
  let not_configured :=
    (if force_feedback
     then [tray_showMessage "DeskPets Messaging" NOT_CONFIGURED Warning 4000]
     else [], fs) in
  match shared_dir w, me w with
  | Some dir, Some user =>
      if String.eqb user "" then not_configured
      else
        match fetch_undelivered fs dir user now with
        | (Raises _, fs) => ([], fs)
        | (Returns msgs, fs) =>
            match msgs with
            | [] =>
                (if force_feedback
                 then [bubble_show_text "Inbox empty." 3]
                 else [], fs)
            | _ =>
                match chunks_of (firstn 5 msgs) with
                | None => ([], fs)
                | Some [] => ([], fs)
                | Some chunks =>
                    let bubble_text := bubble_text_of chunks in
                    match pets w with
                    | [] => ([bubble_show_text bubble_text 12], fs)
                    | Constructed pet :: _ =>
                        let bx :=
                          py_int (x pet + inject_Z (width pet) + 10) in
                        let by_ := py_int (y pet - 10) in
                        ([bubble_set_anchor bx by_;
                          bubble_show_text bubble_text 12], fs)
                    | HalfConstructed _ :: _ => ([], fs)
                    end
                end
            end
        end
  | _, _ => not_configured
  end.

(** *** Notions used to state the properties of the bubble *)

(** The texts that the calls show in the bubble. *)
Fixpoint shown (calls : list Ui) : list string :=
  match calls with
  | [] => []
  | bubble_show_text text _ :: calls' => text :: shown calls'
  | _ :: calls' => shown calls'
  end.

(** The chunk of a waiting message. *)
Definition row_chunk (r : json) : string :=
  match r with
  | JObj d =>
      chunk (sender_of d)
            (match row_text d with Some text => text | None => "" end)
  | _ => ""
  end.

End Formatting.

(** Messaging is configured for the user [user] in the folder [dir]. *)
Definition configured (w : t) (dir : Dir) (user : string) : Prop :=
  shared_dir w = Some dir /\ me w = Some user /\ user <> ""%string.

(** The first pet, if there is one, has a position. *)
Definition first_pet_placed (w : t) : Prop :=
  match pets w with
  | HalfConstructed _ :: _ => False
  | _ => True
  end.

End MainWindow.

(** ** Example data *)

(** Modelled from the spec: [State.next] of [state.py], a module that is
    not part of the modelled sources.  The spec's cycle-completion test:
    the state counter is incremented once per tick while the state is
    active, and the state is complete when the counter reaches the hold
    count.  The examples only run it on states whose movement speed is 0. *)
Definition State_next_spec (i : Input) (p : Pet) : Pet * bool :=
  match state p with
  | None => (p, false)
  | Some s =>
      let c := counter s + 1 in
      (set_state (Some (set_counter c s)) p, st_hold s <=? c)
  end.

(** Frame sizes of the example gifs: the "lie" animation is taller and
    wider than the others. *)
Definition example_frames (gif_path : string) : list (Z * Z) :=
  if String.eqb gif_path "media/dog/akita_lie_8fps.gif"
  then [(80, 60); (80, 60)]
  else [(60, 40); (60, 40); (60, 40)].

(** The rule of the imaging library: a target size with a side below 1
    is refused. *)
Definition side_below_one (orig target : Z * Z) : bool :=
  (fst target <? 1) || (snd target <? 1).

(** The collaborators of the examples.  The examples never use the species
    "squirrel" and never enter a wall scene, so the two climb helpers are
    not consulted; they leave the pet as it is.  A new state looks to the
    right and starts with the counter at 0. *)
Definition example_ext : Ext :=
  {| State_next := State_next_spec;
     squirrel_climb := fun _ p => p;
     go_climb := fun _ p => p;
     load_gif_frames := example_frames;
     default_direction := 1;
     initial_counter := 0;
     resize_raises := side_below_one |}.

Definition example_defaults : dict StateDefaults :=
  [("idle", {| d_hold := Some 8; d_movement_speed := Some 0%Q;
               d_speed_animation := Some (1 # 2)%Q |});
   ("lie", {| d_hold := Some 8; d_movement_speed := Some 0%Q;
              d_speed_animation := Some 1%Q |});
   ("with_ball", {| d_hold := Some 16; d_movement_speed := Some 0%Q;
                    d_speed_animation := Some 1%Q |})]%string.

(** A catalog with a dog that can lie down and a snake that cannot. *)
Definition example_PETS_DATA : dict SpeciesData :=
  [("dog",
    {| sd_colors := ["akita"];
       sd_states :=
         [("akita", [("idle", "media/dog/akita_idle_8fps.gif");
                     ("lie", "media/dog/akita_lie_8fps.gif");
                     ("with_ball", "media/dog/akita_with_ball_8fps.gif")])];
       sd_defaults := Some example_defaults |});
   ("snake",
    {| sd_colors := ["green"];
       sd_states :=
         [("green", [("idle", "media/snake/green_idle_8fps.gif")])];
       sd_defaults := Some example_defaults |})]%string.

(** A 1920 x 1080 screen whose taskbar hides itself. *)
Definition example_screen : Screen :=
  {| metrics_width := 1920; metrics_height := 1080;
     taskbar_height := 40; taskbar_autohide := true; taskbar_edge := 3 |}.

Definition example_idle : State :=
  {| name := "idle"; st_gif := "media/dog/akita_idle_8fps.gif";
     st_hold := 8; st_movement_speed := 0; st_speed_animation := 1 # 2;
     direction := 1; counter := 0 |}.

(** A dog at rest in the lower right corner, 60 x 40 pixels. *)
Definition example_pet : Pet :=
  {| species := "dog"; color := "akita"; fps := 8; size := "small";
     screen_width := 1920; screen_height := 1080;
     dragging := false; drag_offset := (0, 0)%Q; drag_last_pos := None;
     throw_velocity := (0, 0)%Q; _right_click_consumed := false;
     STATES_INFO :=
       build_STATES_INFO 8 example_defaults
         [("idle", "media/dog/akita_idle_8fps.gif");
          ("lie", "media/dog/akita_lie_8fps.gif");
          ("with_ball", "media/dog/akita_with_ball_8fps.gif")]%string;
     state := Some example_idle;
     frames := [(60, 40); (60, 40); (60, 40)];
     width := 60; height := 40; frame_count := 3; current_frame := 0;
     frame_interval := Some (1 # 4)%Q;
     y_def := 1040; x := 1860; y := 1040;
     immunity := false; lie_duration := 24; wall_scene_step := None;
     height_lie := 40; main_window := true |}.

(** The pointer far away from the pet, no button pressed. *)
Definition example_idle_input : Input :=
  {| mouse_x := 100; mouse_y := 100; left_down := false;
     right_down := false; rnd_name := 0; rnd_dir := 0 |}.

(** The example pet just thrown to the right at 10 pixels per tick; it
    stands against the right screen edge. *)
Definition thrown_pet : Pet := set_throw_velocity (10, 0)%Q example_pet.

(** The same throw started in the open, away from every screen edge. *)
Definition flying_pet : Pet := set_x 100%Q (set_y 500%Q thrown_pet).

(** The example pet left in the middle of the screen, outside the lateral
    band [1440, 1860]. *)
Definition strayed_pet : Pet := set_x 1000%Q example_pet.

(** The pointer two pixels right of and below the origin of a pet that
    rests in the lower right corner; no button pressed. *)
Definition near_input : Input :=
  {| mouse_x := 1862; mouse_y := 1042; left_down := false;
     right_down := false; rnd_name := 0; rnd_dir := 0 |}.

(** A snake of the example catalog, which has no "lie" animation, at rest
    in the lower right corner. *)
Definition example_snake : Pet :=
  {| species := "snake"; color := "green"; fps := 8; size := "small";
     screen_width := 1920; screen_height := 1080;
     dragging := false; drag_offset := (0, 0)%Q; drag_last_pos := None;
     throw_velocity := (0, 0)%Q; _right_click_consumed := false;
     STATES_INFO :=
       build_STATES_INFO 8 example_defaults
         [("idle", "media/snake/green_idle_8fps.gif")]%string;
     state := Some {| name := "idle";
                      st_gif := "media/snake/green_idle_8fps.gif";
                      st_hold := 8; st_movement_speed := 0;
                      st_speed_animation := 1 # 2;
                      direction := 1; counter := 0 |};
     frames := [(60, 40); (60, 40); (60, 40)];
     width := 60; height := 40; frame_count := 3; current_frame := 0;
     frame_interval := Some (1 # 4)%Q;
     y_def := 1040; x := 1860; y := 1040;
     immunity := false; lie_duration := 24; wall_scene_step := None;
     height_lie := 40; main_window := true |}.

(** The example dog in the middle of a wall scene. *)
Definition climbing_pet : Pet := set_wall_scene_step (Some 0) example_pet.

(** The primary button goes down on the example pet, ten pixels right of
    and below its origin. *)
Definition grab_input : Input :=
  {| mouse_x := 1870; mouse_y := 1050; left_down := true;
     right_down := false; rnd_name := 0; rnd_dir := 0 |}.

(** The pointer has moved by (-30, -20) with the button held. *)
Definition pull_input : Input :=
  {| mouse_x := 1840; mouse_y := 1030; left_down := true;
     right_down := false; rnd_name := 0; rnd_dir := 0 |}.

(** The button is up again. *)
Definition drop_input : Input :=
  {| mouse_x := 1840; mouse_y := 1030; left_down := false;
     right_down := false; rnd_name := 0; rnd_dir := 0 |}.

(** The secondary button held down on the example pet, and released. *)
Definition press_input : Input :=
  {| mouse_x := 1870; mouse_y := 1050; left_down := false;
     right_down := true; rnd_name := 0; rnd_dir := 0 |}.

Definition release_input : Input :=
  {| mouse_x := 1870; mouse_y := 1050; left_down := false;
     right_down := false; rnd_name := 0; rnd_dir := 0 |}.

(** An inbox with a new message, a blank line, a line that is not JSON, a
    message delivered earlier and a new message whose text is blank. *)
Definition example_message (text : string) (delivered : bool) : json :=
  JObj [("msg_id", JStr "7f0c"); ("sender", JStr "sanga");
        ("receiver", JStr "jinho"); ("created_at", JNum 1700000000);
        ("text", JStr text); ("delivered", JBool delivered)]%string.

(** The name without its last suffix, followed by ".tmp". *)
Definition tmp_name (name : string) : string :=
  let fix drop (r : string) : string :=
    match r with
    | EmptyString => string_rev name
    | String c r' => if Ascii.eqb c "." then r' else drop r'
    end in
  (string_rev (drop (string_rev name)) +:+ ".tmp")%string.

(** The folder "shared" on a file system that tells all names apart. *)
Definition example_shared : Dir :=
  {| truediv := fun name => ("shared/" +:+ name)%string;
     with_suffix_tmp := fun name => ("shared/" +:+ tmp_name name)%string |}.

Definition example_inbox : files :=
  {[ inbox_path example_shared "jinho" :=
       [Parsed (example_message "lunch?" false);
        Blank;
        Malformed "{oops";
        Parsed (example_message "hello" true);
        Parsed (example_message "   " false)] ]}.

(** The example pet with a size setting that is none of the known ones. *)
Definition odd_size_pet : Pet :=
  {| species := "dog"; color := "akita"; fps := 8; size := "huge";
     screen_width := 1920; screen_height := 1080;
     dragging := false; drag_offset := (0, 0)%Q; drag_last_pos := None;
     throw_velocity := (0, 0)%Q; _right_click_consumed := false;
     STATES_INFO := STATES_INFO example_pet;
     state := Some example_idle;
     frames := [(60, 40); (60, 40); (60, 40)];
     width := 60; height := 40; frame_count := 3; current_frame := 0;
     frame_interval := Some (1 # 4)%Q;
     y_def := 1040; x := 1860; y := 1040;
     immunity := false; lie_duration := 24; wall_scene_step := None;
     height_lie := 40; main_window := true |}.

(** A window configured for the user "jinho", with the example pet. *)
Definition example_window : MainWindow.t :=
  {| MainWindow.me := Some "jinho"%string;
     MainWindow.partner := Some "sanga"%string;
     MainWindow.shared_dir := Some example_shared;
     MainWindow.pets := [Constructed example_pet] |}.

(** The senders of the examples are strings, so that [str()] of other
    values is never consulted. *)
Definition example_py_str (v : json) : string := "".

(** Six messages wait for "jinho". *)
Definition crowded_inbox : files :=
  {[ inbox_path example_shared "jinho" :=
       map (fun text => Parsed (example_message text false))
           ["one"; "two"; "three"; "four"; "five"; "six"]%string ]}.



(** A catalog whose dog has no "defaults" entry, and a dog as the
    constructor builds it from that catalog. *)
Definition bare_PETS_DATA : dict SpeciesData :=
  [("dog",
    {| sd_colors := ["akita"];
       sd_states :=
         [("akita", [("idle", "media/dog/akita_idle_8fps.gif");
                     ("lie", "media/dog/akita_lie_8fps.gif")])];
       sd_defaults := None |})]%string.

Definition bare_pet : Pet :=
  {| species := "dog"; color := "akita"; fps := 8; size := "small";
     screen_width := 1920; screen_height := 1080;
     dragging := false; drag_offset := (0, 0)%Q; drag_last_pos := None;
     throw_velocity := (0, 0)%Q; _right_click_consumed := false;
     STATES_INFO :=
       build_STATES_INFO 8 []
         [("idle", "media/dog/akita_idle_8fps.gif");
          ("lie", "media/dog/akita_lie_8fps.gif")]%string;
     state := Some {| name := "idle";
                      st_gif := "media/dog/akita_idle_8fps.gif";
                      st_hold := 8; st_movement_speed := 0;
                      st_speed_animation := 1;
                      direction := 1; counter := 0 |};
     frames := [(60, 40); (60, 40); (60, 40)];
     width := 60; height := 40; frame_count := 3; current_frame := 0;
     frame_interval := Some (1 # 8)%Q;
     y_def := 1040; x := 1860; y := 1040;
     immunity := false; lie_duration := 24; wall_scene_step := None;
     height_lie := 20; main_window := true |}.

(** A dog 600 pixels wide, more than a quarter of the 1920 pixel screen,
    standing left of the lateral band. *)
Definition wide_pet : Pet :=
  {| species := "dog"; color := "akita"; fps := 8; size := "original";
     screen_width := 1920; screen_height := 1080;
     dragging := false; drag_offset := (0, 0)%Q; drag_last_pos := None;
     throw_velocity := (0, 0)%Q; _right_click_consumed := false;
     STATES_INFO := STATES_INFO example_pet;
     state := Some example_idle;
     frames := [(600, 400); (600, 400); (600, 400)];
     width := 600; height := 400; frame_count := 3; current_frame := 0;
     frame_interval := Some (1 # 4)%Q;
     y_def := 680; x := 1000; y := 680;
     immunity := false; lie_duration := 24; wall_scene_step := None;
     height_lie := 400; main_window := true |}.

(** A gif whose only frame is one pixel wide and a hundred high, and
    the example pet with the size setting "very small": the frame would
    be resized to 0 x 20. *)
Definition thin_ext : Ext :=
  {| State_next := State_next_spec;
     squirrel_climb := fun _ p => p;
     go_climb := fun _ p => p;
     load_gif_frames := fun _ => [(1, 100)];
     default_direction := 1;
     initial_counter := 0;
     resize_raises := side_below_one |}.

Definition tiny_pet : Pet :=
  {| species := "dog"; color := "akita"; fps := 8; size := "very small";
     screen_width := 1920; screen_height := 1080;
     dragging := false; drag_offset := (0, 0)%Q; drag_last_pos := None;
     throw_velocity := (0, 0)%Q; _right_click_consumed := false;
     STATES_INFO := STATES_INFO example_pet;
     state := Some example_idle;
     frames := [(60, 40); (60, 40); (60, 40)];
     width := 60; height := 40; frame_count := 3; current_frame := 0;
     frame_interval := Some (1 # 4)%Q;
     y_def := 1040; x := 1860; y := 1040;
     immunity := false; lie_duration := 24; wall_scene_step := None;
     height_lie := 40; main_window := true |}.

(** * Properties *)

(** ** Comparisons and clamping *)

Lemma Qltb_lt (a b : Q) : Qltb a b = true <-> (a < b)%Q.
Proof. unfold Qltb, Qlt. apply Z.ltb_lt. Qed.

Lemma Qltb_ge (a b : Q) : Qltb a b = false <-> (b <= a)%Q.
Proof. unfold Qltb, Qle. rewrite Z.ltb_ge. reflexivity. Qed.

Lemma Qltb_reflect (a b : Q) : reflect (a < b)%Q (Qltb a b).
Proof.
  destruct (Qltb a b) eqn:E; constructor.
  - now apply Qltb_lt.
  - apply Qltb_ge in E. lra.
Qed.

Lemma py_min_spec (a b : Q) :
  ((a <= b /\ py_min a b = a) \/ (b < a /\ py_min a b = b))%Q.
Proof.
  unfold py_min. destruct (Qltb_reflect b a); [right | left]; split; auto; lra.
Qed.

Lemma py_max_spec (a b : Q) :
  ((b <= a /\ py_max a b = a) \/ (a < b /\ py_max a b = b))%Q.
Proof.
  unfold py_max. destruct (Qltb_reflect a b); [right | left]; split; auto; lra.
Qed.

(** [max(0, min(v, b))] lies in [0, b] as soon as [0 <= b]. *)
Lemma clamp_range (v b : Q) :
  (0 <= b -> 0 <= py_max 0 (py_min v b) <= b)%Q.
Proof.
  intros Hb.
  destruct (py_max_spec 0 (py_min v b)) as [[H1 ->] | [H1 ->]];
    destruct (py_min_spec v b) as [[H2 E] | [H2 E]]; rewrite ?E in *; lra.
Qed.

Lemma clamp_inside (v b : Q) :
  (0 <= v <= b -> py_max 0 (py_min v b) == v)%Q.
Proof.
  intros Hv.
  destruct (py_max_spec 0 (py_min v b)) as [[H1 ->] | [H1 ->]];
    destruct (py_min_spec v b) as [[H2 E] | [H2 E]]; rewrite ?E in *; lra.
Qed.

Lemma clamp_low (v b : Q) :
  (0 <= b -> v < 0 -> py_max 0 (py_min v b) = 0)%Q.
Proof.
  intros Hb Hv.
  destruct (py_max_spec 0 (py_min v b)) as [[H1 ->] | [H1 E1]];
    destruct (py_min_spec v b) as [[H2 E] | [H2 E]]; rewrite ?E in *;
    try reflexivity; lra.
Qed.

Lemma clamp_high (v b : Q) :
  (0 <= b -> b < v -> py_max 0 (py_min v b) == b)%Q.
Proof.
  intros Hb Hv.
  destruct (py_max_spec 0 (py_min v b)) as [[H1 ->] | [H1 ->]];
    destruct (py_min_spec v b) as [[H2 E] | [H2 E]]; rewrite ?E in *; lra.
Qed.

(** ** The throw step *)

Lemma throw_move_x (p : Pet) :
  x (throw_move p) = (x p + fst (throw_velocity p))%Q.
Proof. unfold throw_move. destruct (throw_velocity p); reflexivity. Qed.

Lemma throw_move_y (p : Pet) :
  y (throw_move p) = (y p + snd (throw_velocity p))%Q.
Proof. unfold throw_move. destruct (throw_velocity p); reflexivity. Qed.

Lemma throw_move_velocity (p : Pet) :
  throw_velocity (throw_move p)
  = ((fst (throw_velocity p) * DAMPING)%Q, (snd (throw_velocity p) * DAMPING)%Q).
Proof. unfold throw_move. destruct (throw_velocity p); reflexivity. Qed.

Lemma throw_move_frame (p : Pet) :
  screen_width (throw_move p) = screen_width p
  /\ screen_height (throw_move p) = screen_height p
  /\ width (throw_move p) = width p /\ height (throw_move p) = height p
  /\ state (throw_move p) = state p /\ immunity (throw_move p) = immunity p.
Proof. unfold throw_move. destruct (throw_velocity p); repeat split. Qed.

Lemma bounce_x_frame (b : Z) (p : Pet) :
  screen_width (bounce_x b p) = screen_width p
  /\ screen_height (bounce_x b p) = screen_height p
  /\ width (bounce_x b p) = width p /\ height (bounce_x b p) = height p
  /\ y (bounce_x b p) = y p
  /\ snd (throw_velocity (bounce_x b p)) = snd (throw_velocity p).
Proof. repeat split. Qed.

Lemma bounce_y_frame (b : Z) (p : Pet) :
  screen_width (bounce_y b p) = screen_width p
  /\ screen_height (bounce_y b p) = screen_height p
  /\ width (bounce_y b p) = width p /\ height (bounce_y b p) = height p
  /\ x (bounce_y b p) = x p
  /\ fst (throw_velocity (bounce_y b p)) = fst (throw_velocity p).
Proof. repeat split. Qed.

(** The x axis of the collision tests, when the pet is not wider than the
    screen: at most one of the two tests fires. *)
Lemma throw_collide_x (p : Pet) :
  0 <= screen_width p - width p ->
  let q := throw_collide p in
  let max_x := inject_Z (screen_width p - width p) in
  ((x p < 0 ->
      x q = 0 /\ fst (throw_velocity q) = - fst (throw_velocity p) * BOUNCE)
   /\ (max_x < x p ->
      x q = max_x /\ fst (throw_velocity q) = - fst (throw_velocity p) * BOUNCE)
   /\ (0 <= x p <= max_x ->
      x q = x p /\ fst (throw_velocity q) = fst (throw_velocity p)))%Q.
Proof.
  intros Hfit q max_x. subst q max_x. unfold throw_collide.
  assert (Hm : (0 <= inject_Z (screen_width p - width p))%Q).
  { change 0%Q with (inject_Z 0). rewrite <- Zle_Qle. exact Hfit. }
  destruct (Qltb_reflect (x p) 0) as [H0 | H0]; simpl.
  - destruct (Qltb_reflect (inject_Z (screen_width p - width p)) (inject_Z 0))
      as [H1 | H1]; [change (inject_Z 0) with 0%Q in H1; lra |].
    simpl.
    repeat match goal with
           | |- context [Qltb ?a ?b] => destruct (Qltb a b)
           end; simpl; repeat split; intros; auto; lra.
  - destruct (Qltb_reflect (inject_Z (screen_width p - width p)) (x p))
      as [H1 | H1]; simpl;
    repeat match goal with
           | |- context [Qltb ?a ?b] => destruct (Qltb a b)
           end; simpl; repeat split; intros; auto; lra.
Qed.

Lemma throw_collide_y (p : Pet) :
  0 <= screen_height p - height p ->
  let q := throw_collide p in
  let max_y := inject_Z (screen_height p - height p) in
  ((y p < 0 ->
      y q = 0 /\ snd (throw_velocity q) = - snd (throw_velocity p) * BOUNCE)
   /\ (max_y < y p ->
      y q = max_y /\ snd (throw_velocity q) = - snd (throw_velocity p) * BOUNCE)
   /\ (0 <= y p <= max_y ->
      y q = y p /\ snd (throw_velocity q) = snd (throw_velocity p)))%Q.
Proof.
  intros Hfit q max_y. subst q max_y. unfold throw_collide.
  assert (Hm : (0 <= inject_Z (screen_height p - height p))%Q).
  { change 0%Q with (inject_Z 0). rewrite <- Zle_Qle. exact Hfit. }
  set (p1 := if Qltb (x p) 0 then bounce_x 0 p else p).
  set (p2 := if Qltb (inject_Z (screen_width p - width p)) (x p1)
             then bounce_x (screen_width p - width p) p1 else p1).
  assert (E : y p2 = y p /\ snd (throw_velocity p2) = snd (throw_velocity p)
              /\ screen_height p2 = screen_height p /\ height p2 = height p).
  { subst p2 p1. destruct (Qltb (x p) 0);
      match goal with |- context [Qltb ?a ?b] => destruct (Qltb a b) end;
      repeat split. }
  destruct E as (Ey & Ev & _ & _).
  destruct (Qltb_reflect (y p2) 0) as [H0 | H0]; simpl.
  - destruct (Qltb_reflect (inject_Z (screen_height p - height p)) (inject_Z 0))
      as [H1 | H1]; [change (inject_Z 0) with 0%Q in H1; lra |].
    simpl. rewrite Ev, Ey in *. repeat split; intros; auto; lra.
  - destruct (Qltb_reflect (inject_Z (screen_height p - height p)) (y p2))
      as [H1 | H1]; simpl; rewrite ?Ev, ?Ey in *;
      repeat split; intros; auto; lra.
Qed.

(** C4.  On a throw tick (the velocity is not below the threshold) of a
    pet that fits on the screen, let [m] be the pet after
    [position += velocity; velocity *= 0.85].  If the x of [m] is below 0
    the tick ends with x = 0 exactly, if it is above
    [screen_width - width] the tick ends with x = [screen_width - width]
    exactly, and in both cases the x velocity is -0.6 times the velocity
    of [m]; the same holds on the y axis against [screen_height - height]. *)
Theorem C4_throw_bounce (p : Pet) :
  below_eps (throw_velocity p) = false ->
  0 <= screen_width p - width p ->
  0 <= screen_height p - height p ->
  let m := throw_move p in
  let q := fst (_apply_throw p) in
  let max_x := inject_Z (screen_width p - width p) in
  let max_y := inject_Z (screen_height p - height p) in
  (snd (_apply_throw p) = true
   /\ x m = x p + fst (throw_velocity p)
   /\ y m = y p + snd (throw_velocity p)
   /\ (x m < 0 ->
       x q = 0 /\ fst (throw_velocity q) == - (6 # 10) * fst (throw_velocity m))
   /\ (max_x < x m ->
       x q = max_x
       /\ fst (throw_velocity q) == - (6 # 10) * fst (throw_velocity m))
   /\ (y m < 0 ->
       y q = 0 /\ snd (throw_velocity q) == - (6 # 10) * snd (throw_velocity m))
   /\ (max_y < y m ->
       y q = max_y
       /\ snd (throw_velocity q) == - (6 # 10) * snd (throw_velocity m)))%Q.
Proof.
  intros Hact Hx Hy m q max_x max_y. subst m q max_x max_y.
  unfold _apply_throw. rewrite Hact. simpl fst; simpl snd.
  destruct (throw_move_frame p) as (Esw & Esh & Ew & Eh & _).
  pose proof (throw_collide_x (throw_move p)) as Cx.
  pose proof (throw_collide_y (throw_move p)) as Cy.
  rewrite Esw, Ew in Cx. rewrite Esh, Eh in Cy.
  specialize (Cx Hx). specialize (Cy Hy). simpl in Cx, Cy.
  destruct Cx as (Cx0 & Cx1 & _). destruct Cy as (Cy0 & Cy1 & _).
  split; [reflexivity |].
  split; [apply throw_move_x |].
  split; [apply throw_move_y |].
  split; [intros H; apply Cx0 in H | split; [intros H; apply Cx1 in H |
    split; [intros H; apply Cy0 in H | intros H; apply Cy1 in H]]];
    destruct H as [H1 H2]; rewrite H1, H2; (split; [reflexivity |]);
    unfold BOUNCE; ring.
Qed.

Lemma C4_throw_bounce_witness :
  x (fst (_apply_throw thrown_pet)) = inject_Z 1860
  /\ (fst (throw_velocity (fst (_apply_throw thrown_pet)))
      == - (6 # 10) * fst (throw_velocity (throw_move thrown_pet)))%Q.
Proof.
  assert (Hx : 0 <= screen_width thrown_pet - width thrown_pet)
    by (simpl; lia).
  assert (Hy : 0 <= screen_height thrown_pet - height thrown_pet)
    by (simpl; lia).
  destruct (C4_throw_bounce thrown_pet eq_refl Hx Hy)
    as (_ & _ & _ & _ & H & _).
  apply H. reflexivity.
Defined.

(** ** Decay of the throw velocity *)

Lemma bounce_factor_abs (c : Q) : bounce_factor c -> (Qabs c <= 1)%Q.
Proof.
  intros [H | [H | H]]; rewrite H; vm_compute; discriminate.
Qed.

Ltac pick_factor :=
  unfold bounce_factor;
  first [ left; reflexivity
        | right; left; reflexivity
        | right; right; reflexivity ].

Ltac with_factors cx cy :=
  solve [ exists cx, cy;
          split; [pick_factor | split; [pick_factor | split; simpl; ring]] ].

Lemma throw_collide_velocity (p : Pet) :
  exists cx cy : Q,
    bounce_factor cx /\ bounce_factor cy
    /\ (fst (throw_velocity (throw_collide p)) == cx * fst (throw_velocity p))%Q
    /\ (snd (throw_velocity (throw_collide p)) == cy * snd (throw_velocity p))%Q.
Proof.
  unfold throw_collide.
  repeat match goal with
         | |- context [if Qltb ?a ?b then _ else _] => destruct (Qltb a b)
         end;
  first [ with_factors 1%Q 1%Q
        | with_factors 1%Q (- BOUNCE)%Q
        | with_factors 1%Q (BOUNCE * BOUNCE)%Q
        | with_factors (- BOUNCE)%Q 1%Q
        | with_factors (- BOUNCE)%Q (- BOUNCE)%Q
        | with_factors (- BOUNCE)%Q (BOUNCE * BOUNCE)%Q
        | with_factors (BOUNCE * BOUNCE)%Q 1%Q
        | with_factors (BOUNCE * BOUNCE)%Q (- BOUNCE)%Q
        | with_factors (BOUNCE * BOUNCE)%Q (BOUNCE * BOUNCE)%Q ].
Qed.

(** One active throw step scales each velocity component by the damping
    and a bounce factor. *)
Lemma apply_throw_velocity (p : Pet) :
  below_eps (throw_velocity p) = false ->
  exists cx cy : Q,
    bounce_factor cx /\ bounce_factor cy
    /\ (fst (throw_velocity (fst (_apply_throw p)))
        == cx * (fst (throw_velocity p) * DAMPING))%Q
    /\ (snd (throw_velocity (fst (_apply_throw p)))
        == cy * (snd (throw_velocity p) * DAMPING))%Q.
Proof.
  intros Hact. unfold _apply_throw. rewrite Hact. simpl fst.
  destruct (throw_collide_velocity (throw_move p)) as (cx & cy & Hx & Hy & Ex & Ey).
  rewrite throw_move_velocity in Ex, Ey. simpl in Ex, Ey.
  exists cx, cy. auto.
Qed.

Lemma below_eps_true (v : Q * Q) :
  below_eps v = true
  <-> (Qabs (fst v) < THROW_EPS /\ Qabs (snd v) < THROW_EPS)%Q.
Proof.
  unfold below_eps. rewrite andb_true_iff, !Qltb_lt. reflexivity.
Qed.

Lemma below_eps_false (v : Q * Q) :
  below_eps v = false
  <-> (THROW_EPS <= Qabs (fst v) \/ THROW_EPS <= Qabs (snd v))%Q.
Proof.
  unfold below_eps. rewrite andb_false_iff, !Qltb_ge. reflexivity.
Qed.

Lemma Qabs_sq (a : Q) : (Qabs a * Qabs a == a * a)%Q.
Proof.
  apply Qabs_case; intros _; ring.
Qed.

Lemma scaled_sq_le (c a a' : Q) :
  (Qabs c <= 1 -> a' == c * (a * DAMPING)
   -> a' * a' <= (7225 # 10000) * (a * a))%Q.
Proof.
  intros Hc E. rewrite E.
  assert (Hcc : (c * c <= 1)%Q).
  { rewrite <- Qabs_sq. pose proof (Qabs_nonneg c). nra. }
  assert (Haa : (0 <= a * a)%Q) by nra.
  unfold DAMPING. nra.
Qed.

(** While the throw is active its speed strictly decreases. *)
Lemma apply_throw_slows (p : Pet) :
  below_eps (throw_velocity p) = false ->
  (speed_sq (throw_velocity (fst (_apply_throw p)))
   < speed_sq (throw_velocity p))%Q.
Proof.
  intros Hact.
  destruct (apply_throw_velocity p Hact) as (cx & cy & Hx & Hy & Ex & Ey).
  apply bounce_factor_abs in Hx, Hy.
  pose proof (scaled_sq_le _ _ _ Hx Ex) as Bx.
  pose proof (scaled_sq_le _ _ _ Hy Ey) as By.
  apply below_eps_false in Hact. unfold speed_sq.
  set (a := fst (throw_velocity p)) in *.
  set (b := snd (throw_velocity p)) in *.
  assert (Ha : (0 <= a * a)%Q) by nra.
  assert (Hb : (0 <= b * b)%Q) by nra.
  assert (Hpos : (0 < a * a + b * b)%Q).
  { unfold THROW_EPS in Hact. destruct Hact as [H | H].
    - rewrite <- (Qabs_sq a). pose proof (Qabs_nonneg a). nra.
    - rewrite <- (Qabs_sq b). pose proof (Qabs_nonneg b). nra. }
  lra.
Qed.

Lemma throw_ticks_S (k : nat) (p : Pet) :
  throw_ticks (S k) p = fst (_apply_throw (throw_ticks k p)).
Proof.
  revert p. induction k as [| k IH]; intros p; [reflexivity |].
  change (throw_ticks (S (S k)) p) with (throw_ticks (S k) (fst (_apply_throw p))).
  rewrite IH. reflexivity.
Qed.

Lemma apply_throw_rest (p : Pet) :
  below_eps (throw_velocity p) = true ->
  _apply_throw p = (set_throw_velocity (0, 0)%Q p, false).
Proof. intros H. unfold _apply_throw. rewrite H. reflexivity. Qed.

Lemma decay_pos (k : nat) : (0 < decay k)%Q.
Proof.
  induction k as [| k IH]; simpl; [reflexivity |]. unfold DAMPING. lra.
Qed.

(** From (10, 0) the x speed stays below 10 * 0.85^k and the y velocity
    stays zero, whatever the bounces. *)
Lemma throw_ticks_bound (p : Pet) :
  throw_velocity p = (10, 0)%Q ->
  forall k : nat,
    (Qabs (fst (throw_velocity (throw_ticks k p))) <= decay k
     /\ snd (throw_velocity (throw_ticks k p)) == 0)%Q.
Proof.
  intros Hv k. induction k as [| k [IHx IHy]].
  - simpl. rewrite Hv. simpl. split; [vm_compute; discriminate | reflexivity].
  - rewrite throw_ticks_S. set (q := throw_ticks k p) in *.
    destruct (below_eps (throw_velocity q)) eqn:Hb.
    + rewrite (apply_throw_rest q Hb).
      cbn [fst snd throw_velocity set_throw_velocity].
      split; [| reflexivity].
      pose proof (decay_pos k). change (Qabs 0) with 0%Q. simpl decay.
      unfold DAMPING. lra.
    + destruct (apply_throw_velocity q Hb) as (cx & cy & Hx & Hy & Ex & Ey).
      split.
      * rewrite Ex, !Qabs_Qmult. apply bounce_factor_abs in Hx.
        change (Qabs DAMPING) with DAMPING. simpl decay.
        pose proof (Qabs_nonneg cx).
        pose proof (Qabs_nonneg (fst (throw_velocity q))).
        unfold DAMPING in *. nra.
      * rewrite Ey, IHy. ring.
Qed.

(** The first index at which a boolean sequence is true. *)
Lemma first_true (P : nat -> bool) (m : nat) :
  P m = true ->
  exists n : nat,
    (n <= m)%nat /\ P n = true /\ forall k : nat, (k < n)%nat -> P k = false.
Proof.
  revert P. induction m as [| m IH]; intros P Hm.
  - exists O. repeat split; auto. intros k Hk. lia.
  - destruct (P O) eqn:H0.
    + exists O. repeat split; auto; [lia |]. intros k Hk. lia.
    + destruct (IH (fun k => P (S k)) Hm) as (n & Hn & Pn & Hlt).
      exists (S n). repeat split; auto; [lia |].
      intros [| k] Hk; [exact H0 | apply Hlt; lia].
Qed.

Lemma throw_ticks_rest (p : Pet) (m : nat) :
  throw_velocity p = (0, 0)%Q -> throw_velocity (throw_ticks m p) = (0, 0)%Q.
Proof.
  revert p. induction m as [| m IH]; intros p Hv; [exact Hv |].
  simpl. apply IH. rewrite apply_throw_rest; [reflexivity |].
  rewrite Hv. reflexivity.
Qed.

Lemma throw_ticks_add (a b : nat) (p : Pet) :
  throw_ticks (a + b) p = throw_ticks b (throw_ticks a p).
Proof.
  revert p. induction a as [| a IH]; intros p; [reflexivity |].
  simpl. apply IH.
Qed.

Lemma throw_collide_inside (p : Pet) : on_screen p -> throw_collide p = p.
Proof.
  intros [[Hx0 Hx1] [Hy0 Hy1]]. unfold throw_collide. cbv zeta.
  rewrite (proj2 (Qltb_ge (x p) 0) Hx0).
  rewrite (proj2 (Qltb_ge _ (x p)) Hx1).
  rewrite (proj2 (Qltb_ge (y p) 0) Hy0).
  rewrite (proj2 (Qltb_ge _ (y p)) Hy1).
  reflexivity.
Qed.

Lemma decay_antitone (a b : nat) : (a <= b)%nat -> (decay b <= decay a)%Q.
Proof.
  induction 1 as [| b Hle IH]; [apply Qle_refl |].
  pose proof (decay_pos b). simpl. unfold DAMPING. nra.
Qed.

(** Without a bounce the velocity after [k] steps is (10 * 0.85^k, 0). *)
Lemma free_flight_velocity (p : Pet) (n : nat) :
  throw_velocity p = (10, 0)%Q ->
  (forall k : nat,
      (k < n)%nat ->
      below_eps (throw_velocity (throw_ticks k p)) = false
      /\ on_screen (throw_move (throw_ticks k p))) ->
  (fst (throw_velocity (throw_ticks n p)) == decay n)%Q.
Proof.
  intros Hv. induction n as [| n IH]; intros H.
  - simpl. rewrite Hv. reflexivity.
  - destruct (H n (Nat.lt_succ_diag_r n)) as [Hb Hin].
    rewrite throw_ticks_S. unfold _apply_throw. rewrite Hb. cbn [fst].
    rewrite (throw_collide_inside _ Hin), throw_move_velocity. cbn [fst].
    rewrite IH by (intros k Hk; apply H; lia). reflexivity.
Qed.

(** C3.  From the throw velocity (10, 0), with [_apply_throw] applied tick
    after tick, there is a tick count [n] with [1 <= n <= 25]
    (25 = ceil(log(0.2/10)/log(0.85))) such that:
    - on each of the first [n] ticks the throw is active: [_apply_throw]
      returns [True]; it adds the velocity to the position and multiplies
      the velocity by 0.85 before the boundary tests, which leave the pet
      as it is when it is inside the screen; after the tick the x
      velocity is 0.85 times the one before, times the factor of the
      bounces (1, -0.6 or 0.36), the y velocity is still 0, and the
      magnitude of the velocity (stated on its square, [speed_sq]) is
      strictly lower;
    - after [n] ticks both axis magnitudes are below 0.2 for the first
      time; the tick that follows sets the velocity to exactly (0, 0),
      reports that the throw is over and leaves the position alone, and
      the velocity stays (0, 0) from then on;
    - when the pet meets no screen edge, [n] is exactly 25. *)
Theorem C3_throw_decay (p : Pet) :
  throw_velocity p = (10, 0)%Q ->
  exists n : nat,
    (1 <= n <= 25)%nat
    /\ (forall k : nat,
           (k < n)%nat ->
           let q := throw_ticks k p in
           let q' := throw_ticks (S k) p in
           below_eps (throw_velocity q) = false
           /\ _apply_throw q = (q', true)
           /\ q' = throw_collide (throw_move q)
           /\ x (throw_move q) = (x q + fst (throw_velocity q))%Q
           /\ y (throw_move q) = (y q + snd (throw_velocity q))%Q
           /\ throw_velocity (throw_move q)
              = ((fst (throw_velocity q) * (85 # 100))%Q,
                 (snd (throw_velocity q) * (85 # 100))%Q)
           /\ (on_screen (throw_move q) -> q' = throw_move q)
           /\ (exists cx : Q,
                  bounce_factor cx
                  /\ (fst (throw_velocity q')
                      == cx * (fst (throw_velocity q) * (85 # 100)))%Q)
           /\ (snd (throw_velocity q') == 0)%Q
           /\ (speed_sq (throw_velocity q') < speed_sq (throw_velocity q))%Q)
    /\ below_eps (throw_velocity (throw_ticks n p)) = true
    /\ _apply_throw (throw_ticks n p)
       = (set_throw_velocity (0, 0)%Q (throw_ticks n p), false)
    /\ x (throw_ticks (S n) p) = x (throw_ticks n p)
    /\ y (throw_ticks (S n) p) = y (throw_ticks n p)
    /\ (forall m : nat,
           (n < m)%nat -> throw_velocity (throw_ticks m p) = (0, 0)%Q)
    /\ ((forall k : nat,
            (k < n)%nat -> on_screen (throw_move (throw_ticks k p))) ->
        n = 25%nat).
Proof.
  intros Hv.
  assert (H25 : below_eps (throw_velocity (throw_ticks 25 p)) = true).
  { destruct (throw_ticks_bound p Hv 25) as [Bx By].
    apply below_eps_true. split.
    - apply Qle_lt_trans with (decay 25); [exact Bx | reflexivity].
    - rewrite By. reflexivity. }
  destruct (first_true (fun k => below_eps (throw_velocity (throw_ticks k p)))
              25 H25) as (n & Hn & Pn & Hlt).
  assert (Hn1 : (1 <= n)%nat).
  { destruct n as [| n]; [| lia]. simpl in Pn. rewrite Hv in Pn.
    discriminate. }
  exists n. split; [lia |].
  pose proof (apply_throw_rest _ Pn) as Hrest.
  split; [| split; [exact Pn | split; [exact Hrest |]]].
  - intros k Hk q q'. subst q q'.
    pose proof (Hlt k Hk) as Hb.
    set (q := throw_ticks k p) in *.
    assert (Eq' : throw_ticks (S k) p = throw_collide (throw_move q)).
    { rewrite throw_ticks_S. fold q. unfold _apply_throw. rewrite Hb.
      reflexivity. }
    split; [exact Hb |].
    split; [rewrite Eq'; unfold _apply_throw; rewrite Hb; reflexivity |].
    split; [exact Eq' |].
    split; [apply throw_move_x |]. split; [apply throw_move_y |].
    split; [apply throw_move_velocity |].
    split; [intros Hin; rewrite Eq'; apply throw_collide_inside; exact Hin |].
    destruct (apply_throw_velocity q Hb) as (cx & cy & Hx & Hy & Ex & Ey).
    assert (Es : throw_ticks (S k) p = fst (_apply_throw q))
      by (rewrite throw_ticks_S; reflexivity).
    split; [exists cx; split; [exact Hx | rewrite Es; exact Ex] |].
    split; [apply (throw_ticks_bound p Hv (S k)) |].
    rewrite Es. apply apply_throw_slows. exact Hb.
  - rewrite throw_ticks_S, Hrest. simpl.
    split; [reflexivity |]. split; [reflexivity |]. split.
    + intros m Hm. replace m with (S n + (m - S n))%nat by lia.
      rewrite throw_ticks_add. apply throw_ticks_rest.
      rewrite throw_ticks_S, Hrest. reflexivity.
    + intros Hfree.
      assert (Hd : (fst (throw_velocity (throw_ticks n p)) == decay n)%Q).
      { apply free_flight_velocity; [exact Hv |].
        intros k Hk. split; [apply Hlt; exact Hk | apply Hfree; exact Hk]. }
      apply below_eps_true in Pn. destruct Pn as [Px _].
      rewrite Hd in Px.
      destruct (Nat.eq_dec n 25%nat) as [E | Hne]; [exact E | exfalso].
      assert (H24 : (n <= 24)%nat) by lia.
      pose proof (decay_antitone n 24%nat H24) as Ha.
      pose proof (decay_pos n) as Hp.
      rewrite Qabs_pos in Px by (apply Qlt_le_weak; exact Hp).
      assert (Hc : (THROW_EPS <= decay 24)%Q) by (vm_compute; discriminate).
      apply (Qlt_irrefl THROW_EPS).
      eapply Qle_lt_trans; [exact Hc |].
      eapply Qle_lt_trans; [exact Ha | exact Px].
Qed.

Lemma C3_throw_decay_witness :
  (forall k : nat,
      (k < 25)%nat ->
      below_eps (throw_velocity (throw_ticks k flying_pet)) = false)
  /\ below_eps (throw_velocity (throw_ticks 25 flying_pet)) = true
  /\ _apply_throw (throw_ticks 25 flying_pet)
     = (set_throw_velocity (0, 0)%Q (throw_ticks 25 flying_pet), false)
  /\ x (throw_ticks 1 flying_pet) = (100 + 10)%Q
  /\ throw_velocity (throw_ticks 1 flying_pet)
     = ((10 * (85 # 100))%Q, (0 * (85 # 100))%Q).
Proof.
  destruct (C3_throw_decay flying_pet eq_refl)
    as (n & Hn & Hact & Hb & Hz & _ & _ & _ & Hfree).
  assert (E : n = 25%nat).
  { apply Hfree. intros k Hk.
    assert (Hk25 : (k < 25)%nat) by lia. clear - Hk25.
    do 25 (destruct k as [| k];
           [vm_compute; repeat split; discriminate |]).
    lia. }
  subst n.
  split; [intros k Hk; apply (Hact k Hk) |].
  split; [exact Hb |]. split; [exact Hz |].
  destruct (Hact 0%nat ltac:(lia))
    as (_ & _ & E1 & Hx & _ & Hv & Hin & _).
  cbv zeta in *.
  assert (Hon : on_screen (throw_move (throw_ticks 0 flying_pet)))
    by (vm_compute; repeat split; discriminate).
  rewrite (Hin Hon). split; [exact Hx | exact Hv].
Defined.

(** In free flight the bound is met exactly: the velocity is still above
    the threshold after 24 steps and below it after 25. *)
Example free_flight_25 :
  below_eps (throw_velocity (throw_ticks 24 flying_pet)) = false
  /\ below_eps (throw_velocity (throw_ticks 25 flying_pet)) = true
  /\ throw_velocity (throw_ticks 26 flying_pet) = (0, 0)%Q.
Proof. vm_compute. repeat split. Qed.

(** ** Which code owns a tick *)

Lemma right_click_pet (inb : bool) (i : Input) (p : Pet) :
  fst (right_click inb i p) = p
  \/ exists b : bool, fst (right_click inb i p) = set_right_click_consumed b p
  \/ fst (right_click inb i p)
     = set_right_click_consumed b (set_right_click_consumed true p).
Proof.
  unfold right_click.
  destruct (right_down i && inb && negb (_right_click_consumed p));
    destruct (negb (right_down i)); simpl; eauto.
Qed.

(** The secondary button only touches the consumed flag. *)
Ltac right_click_cases inb i p :=
  destruct (right_click_pet inb i p) as [-> | [? [-> | ->]]].

Lemma right_click_dragging (inb : bool) (i : Input) (p : Pet) :
  dragging (fst (right_click inb i p)) = dragging p.
Proof. right_click_cases inb i p; reflexivity. Qed.

Lemma update_state_drag (ext : Ext) (data : dict SpeciesData) (i : Input)
    (p : Pet) :
  drag_active i p = true ->
  fst (update_state ext data i p)
  = drag_move i (begin_drag (in_bounds p i) i
                            (fst (right_click (in_bounds p i) i p))).
Proof.
  unfold drag_active, update_state. intros H.
  apply andb_true_iff in H. destruct H as [Hl Hd].
  pose proof (right_click_dragging (in_bounds p i) i p) as Hrc.
  destruct (right_click (in_bounds p i) i p) as [p1 ev]. simpl in *.
  unfold begin_drag. rewrite Hl, Hrc.
  destruct (dragging p) eqn:Ed; simpl in *.
  - rewrite andb_false_r. rewrite Hrc. reflexivity.
  - rewrite Hd. simpl. reflexivity.
Qed.

Lemma update_state_free (ext : Ext) (data : dict SpeciesData) (i : Input)
    (p : Pet) :
  drag_active i p = false ->
  fst (update_state ext data i p) = after_drag ext data i (pre_throw i p).
Proof.
  unfold drag_active, update_state, pre_throw. intros H.
  pose proof (right_click_dragging (in_bounds p i) i p) as Hrc.
  destruct (right_click (in_bounds p i) i p) as [p1 ev]. simpl in *.
  assert (Hb : begin_drag (in_bounds p i) i p1 = p1).
  { unfold begin_drag. rewrite Hrc.
    destruct (left_down i), (dragging p), (in_bounds p i);
      simpl in *; try discriminate; reflexivity. }
  rewrite Hb, Hrc.
  destruct (dragging p); simpl in *; [| reflexivity].
  rewrite andb_true_r in H. rewrite H. reflexivity.
Qed.

Lemma update_state_throw (ext : Ext) (data : dict SpeciesData) (i : Input)
    (p : Pet) :
  throw_active i p = true ->
  fst (update_state ext data i p) = throw_collide (throw_move (pre_throw i p)).
Proof.
  unfold throw_active. intros H. apply andb_true_iff in H.
  destruct H as [Hd Ht]. apply negb_true_iff in Hd, Ht.
  rewrite (update_state_free _ _ _ _ Hd).
  unfold after_drag, _apply_throw. rewrite Ht. reflexivity.
Qed.

Lemma update_state_normal (ext : Ext) (data : dict SpeciesData) (i : Input)
    (p : Pet) :
  drag_active i p = false ->
  throw_active i p = false ->
  fst (update_state ext data i p)
  = match behave ext data i (pre_behave i p) with
    | inl q => q
    | inr q => lateral q
    end.
Proof.
  intros Hd Ht. rewrite (update_state_free _ _ _ _ Hd).
  unfold throw_active in Ht. rewrite Hd in Ht. simpl in Ht.
  apply negb_false_iff in Ht.
  unfold after_drag, pre_behave, _apply_throw. rewrite Ht. reflexivity.
Qed.

(** ** The lateral band *)

Lemma flip_direction_frame (p q : Pet) :
  flip_direction p = Some q ->
  x q = x p /\ y q = y p /\ screen_width q = screen_width p
  /\ width q = width p /\ state q <> None.
Proof.
  unfold flip_direction. destruct (state p) as [s |] eqn:Es; [| discriminate].
  destruct (negb (name s =? "walldig")%string); intros [= <-]; simpl;
    repeat split; congruence.
Qed.

Lemma flip_direction_some (p : Pet) :
  state p <> None -> exists q, flip_direction p = Some q.
Proof.
  unfold flip_direction. destruct (state p) as [s |]; [| congruence].
  intros _. destruct (negb (name s =? "walldig")%string); eauto.
Qed.

Lemma lateral_frame (p : Pet) :
  screen_width (lateral p) = screen_width p
  /\ width (lateral p) = width p /\ y (lateral p) = y p
  /\ (state (lateral p) = None <-> state p = None).
Proof.
  unfold lateral, flip_direction.
  destruct (state p) as [s |] eqn:Es;
    repeat match goal with
           | |- context [if ?b then _ else _] => destruct b; simpl; rewrite ?Es; simpl
           end;
    repeat split; intros; congruence.
Qed.

Lemma flip_direction_eq (p : Pet) (s : State) :
  state p = Some s ->
  flip_direction p
  = Some (if String.eqb (name s) "walldig" then p
          else set_state (Some (set_direction (- direction s) s)) p).
Proof.
  intros Es. unfold flip_direction. rewrite Es.
  replace (direction s * -1) with (- direction s) by lia.
  destruct (name s =? "walldig")%string; reflexivity.
Qed.

(** What the lateral constraint does to a pet that has a state. *)
Lemma lateral_spec (p : Pet) (s : State) :
  state p = Some s ->
  let min_x := inject_Z (screen_width p - screen_width p / 4) in
  let max_x := inject_Z (screen_width p - width p) in
  let turned :=
    if String.eqb (name s) "walldig" then s
    else set_direction (- direction s) s in
  ((x p < min_x -> min_x <= max_x ->
      x (lateral p) = min_x /\ state (lateral p) = Some turned)
   /\ (x p < min_x -> max_x < min_x -> x (lateral p) = max_x)
   /\ (min_x <= x p -> max_x < x p ->
      x (lateral p) = max_x /\ state (lateral p) = Some turned)
   /\ (min_x <= x p <= max_x -> lateral p = p))%Q.
Proof.
  intros Es min_x max_x turned. unfold lateral. fold min_x max_x.
  destruct (Qltb_reflect (x p) min_x) as [H0 | H0].
  - rewrite (flip_direction_eq (set_x min_x p) s Es).
    set (p1 := if (name s =? "walldig")%string then set_x min_x p
               else set_state (Some (set_direction (- direction s) s))
                              (set_x min_x p)).
    assert (E1 : x p1 = min_x /\ state p1 = Some turned
                 /\ screen_width p1 = screen_width p /\ width p1 = width p).
    { subst p1 turned. destruct (name s =? "walldig")%string; simpl; auto. }
    destruct E1 as (Ex & Est & Esw & Ew).
    cbv iota. rewrite Ex.
    destruct (Qltb_reflect max_x min_x) as [H1 | H1].
    + destruct (flip_direction_some (set_x max_x p1)) as [q Eq];
        [simpl; congruence |].
      rewrite Eq. apply flip_direction_frame in Eq.
      destruct Eq as (Eqx & _).
      repeat split; intros; try lra. rewrite Eqx. reflexivity.
    + repeat split; intros; auto; lra.
  - cbv iota.
    destruct (Qltb_reflect max_x (x p)) as [H1 | H1].
    + rewrite (flip_direction_eq (set_x max_x p) s Es).
      subst turned. destruct (name s =? "walldig")%string; simpl;
        repeat split; intros; auto; lra.
    + repeat split; intros; auto; lra.
Qed.

(** After the lateral constraint the x position of a pet that has a state
    does not exceed the right-most allowed x, and is not below the smaller
    of the two boundaries. *)
Lemma lateral_x_range (p : Pet) :
  state p <> None ->
  let min_x := inject_Z (screen_width p - screen_width p / 4) in
  let max_x := inject_Z (screen_width p - width p) in
  (x (lateral p) <= max_x /\ (min_x <= x (lateral p) \/ max_x <= x (lateral p)))%Q.
Proof.
  intros Hs. destruct (state p) as [s |] eqn:Es; [| congruence].
  destruct (lateral_spec p s Es) as (A & B & C & D). cbv zeta.
  set (min_x := inject_Z (screen_width p - screen_width p / 4)) in *.
  set (max_x := inject_Z (screen_width p - width p)) in *.
  destruct (Qlt_le_dec (x p) min_x) as [H0 | H0].
  - destruct (Qlt_le_dec max_x min_x) as [H1 | H1].
    + rewrite (B H0 H1). split; [lra | right; lra].
    + destruct (A H0 H1) as [-> _]. split; [lra | left; lra].
  - destruct (Qlt_le_dec max_x (x p)) as [H1 | H1].
    + destruct (C H0 H1) as [-> _]. split; [lra | right; lra].
    + rewrite (D (conj H0 H1)). split; [lra | left; lra].
Qed.

(** C7.  On a tick owned by neither drag nor throw that runs on to line
    190 with the pet [r] (the pet after the physics and the state update,
    in state [s]), when the left inset [screen_width - screen_width // 4]
    does not exceed the right-most allowed x [screen_width - width]:
    if the x of [r] is below the left inset the tick ends with x equal to
    the left inset, if it is above the right-most allowed x the tick ends
    with x equal to it, and in both cases the direction of the state is
    negated unless the state is "walldig", which keeps its direction;
    otherwise the constraint changes nothing. *)
Theorem C7_lateral_constraint (ext : Ext) (data : dict SpeciesData)
    (i : Input) (p r : Pet) (s : State) :
  drag_active i p = false ->
  throw_active i p = false ->
  behave ext data i (pre_behave i p) = inr r ->
  state r = Some s ->
  screen_width r - screen_width r / 4 <= screen_width r - width r ->
  let q := fst (update_state ext data i p) in
  let min_x := inject_Z (screen_width r - screen_width r / 4) in
  let max_x := inject_Z (screen_width r - width r) in
  let turned :=
    if String.eqb (name s) "walldig" then s
    else set_direction (- direction s) s in
  ((x r < min_x -> x q = min_x /\ state q = Some turned)
   /\ (max_x < x r -> x q = max_x /\ state q = Some turned)
   /\ (min_x <= x r <= max_x -> q = r))%Q.
Proof.
  intros Hd Ht Hb Es Hband q min_x max_x turned. subst q.
  rewrite (update_state_normal _ _ _ _ Hd Ht), Hb.
  destruct (lateral_spec r s Es) as (A & _ & C & D).
  fold min_x max_x turned in A, C, D.
  assert (Hle : (min_x <= max_x)%Q) by (subst min_x max_x; rewrite <- Zle_Qle; exact Hband).
  split; [| split].
  - intros H. apply A; assumption.
  - intros H. apply C; [lra | assumption].
  - exact D.
Qed.

Lemma C7_lateral_constraint_witness :
  x (fst (update_state example_ext example_PETS_DATA example_idle_input
                       strayed_pet)) = inject_Z 1440
  /\ state (fst (update_state example_ext example_PETS_DATA example_idle_input
                              strayed_pet))
     = Some (set_direction (-1) (set_counter 1 example_idle)).
Proof.
  pose (r := set_state (Some (set_counter 1 example_idle)) strayed_pet).
  assert (Hb : behave example_ext example_PETS_DATA example_idle_input
                      (pre_behave example_idle_input strayed_pet) = inr r)
    by reflexivity.
  assert (Hband : screen_width r - screen_width r / 4
                  <= screen_width r - width r)
    by (vm_compute; discriminate).
  destruct (C7_lateral_constraint example_ext example_PETS_DATA
              example_idle_input strayed_pet r (set_counter 1 example_idle)
              eq_refl eq_refl Hb eq_refl Hband) as (H & _ & _).
  apply H. reflexivity.
Defined.

(** A dog 600 pixels wide on a screen of 1920 pixels: the left inset is
    1440 and the right-most allowed x is 1320.  The dog stands at
    x = 1000, left of the inset, on a normal tick.  The tick ends with
    x = 1320, which is not the boundary that was crossed, and with the
    direction it had: both tests of lines 192-199 fire and the direction
    is negated twice. *)
Lemma C7_counterexample :
  let q := fst (update_state example_ext example_PETS_DATA example_idle_input
                             wide_pet) in
  normal_tick example_ext example_PETS_DATA example_idle_input wide_pet = true
  /\ (x wide_pet < inject_Z (screen_width wide_pet - screen_width wide_pet / 4))%Q
  /\ screen_width wide_pet - screen_width wide_pet / 4 = 1440
  /\ screen_width wide_pet - width wide_pet = 1320
  /\ x q = inject_Z 1320
  /\ option_map name (state q) = Some "idle"%string
  /\ option_map direction (state wide_pet) = Some 1
  /\ option_map direction (state q) = Some 1.
Proof. vm_compute. repeat split. Qed.

(** ** The position after a tick *)

Lemma drag_move_spec (i : Input) (p : Pet) :
  x (drag_move i p)
  = py_max 0 (py_min (inject_Z (mouse_x i) - fst (drag_offset p))%Q
                     (inject_Z (screen_width p - width p)))
  /\ y (drag_move i p)
     = py_max 0 (py_min (inject_Z (mouse_y i) - snd (drag_offset p))%Q
                        (inject_Z (screen_height p - height p)))
  /\ screen_width (drag_move i p) = screen_width p
  /\ screen_height (drag_move i p) = screen_height p
  /\ width (drag_move i p) = width p /\ height (drag_move i p) = height p
  /\ state (drag_move i p) = state p /\ immunity (drag_move i p) = immunity p
  /\ dragging (drag_move i p) = dragging p
  /\ drag_offset (drag_move i p) = drag_offset p
  /\ drag_last_pos (drag_move i p) = Some (mouse_x i, mouse_y i).
Proof.
  unfold drag_move. destruct (drag_last_pos p) as [[lx ly] |]; repeat split.
Qed.

Lemma drag_move_on_screen (i : Input) (p : Pet) :
  fits_screen p -> on_screen (drag_move i p).
Proof.
  intros [Hx Hy]. unfold on_screen.
  destruct (drag_move_spec i p) as (-> & -> & -> & -> & -> & -> & _).
  split; apply clamp_range; change 0%Q with (inject_Z 0);
    rewrite <- Zle_Qle; assumption.
Qed.

Lemma throw_collide_frame (p : Pet) :
  screen_width (throw_collide p) = screen_width p
  /\ screen_height (throw_collide p) = screen_height p
  /\ width (throw_collide p) = width p /\ height (throw_collide p) = height p
  /\ state (throw_collide p) = state p
  /\ immunity (throw_collide p) = immunity p.
Proof.
  unfold throw_collide.
  repeat match goal with
         | |- context [if Qltb ?a ?b then _ else _] => destruct (Qltb a b)
         end; repeat split.
Qed.

Lemma throw_collide_on_screen (p : Pet) :
  fits_screen p -> on_screen (throw_collide p).
Proof.
  intros [Hx Hy]. unfold on_screen.
  destruct (throw_collide_frame p) as (-> & -> & -> & -> & _).
  destruct (throw_collide_x p Hx) as (X0 & X1 & X2).
  destruct (throw_collide_y p Hy) as (Y0 & Y1 & Y2).
  assert (Hmx : (0 <= inject_Z (screen_width p - width p))%Q)
    by (change 0%Q with (inject_Z 0); rewrite <- Zle_Qle; exact Hx).
  assert (Hmy : (0 <= inject_Z (screen_height p - height p))%Q)
    by (change 0%Q with (inject_Z 0); rewrite <- Zle_Qle; exact Hy).
  split.
  - destruct (Qlt_le_dec (x p) 0) as [H | H];
      [destruct (X0 H) as [-> _]; lra |].
    destruct (Qlt_le_dec (inject_Z (screen_width p - width p)) (x p)) as [H' | H'];
      [destruct (X1 H') as [-> _]; lra |].
    destruct (X2 (conj H H')) as [-> _]. lra.
  - destruct (Qlt_le_dec (y p) 0) as [H | H];
      [destruct (Y0 H) as [-> _]; lra |].
    destruct (Qlt_le_dec (inject_Z (screen_height p - height p)) (y p)) as [H' | H'];
      [destruct (Y1 H') as [-> _]; lra |].
    destruct (Y2 (conj H H')) as [-> _]. lra.
Qed.

(** C1, as the code has it.  Let [q] be the pet after a tick, and assume
    that [q] is not larger than the screen.  If the tick resolved a drag
    or a throw, the position of [q] satisfies
    0 <= x <= screen_width - width and 0 <= y <= screen_height - height.
    If it was a normal state update that ran on to the lateral constraint
    and left the pet with a state, x satisfies
    0 <= x <= screen_width - width; a normal state update never clamps y. *)
Theorem C1_position_after_tick (ext : Ext) (data : dict SpeciesData)
    (i : Input) (p : Pet) :
  let q := fst (update_state ext data i p) in
  fits_screen q ->
  (drag_active i p = true -> on_screen q)
  /\ (throw_active i p = true -> on_screen q)
  /\ (normal_tick ext data i p = true ->
      state q <> None -> 0 <= screen_width q ->
      (0 <= x q <= inject_Z (screen_width q - width q))%Q).
Proof.
  intros q Hfit. subst q. split; [| split].
  - intros Hd. rewrite (update_state_drag _ _ _ _ Hd) in *.
    set (p1 := begin_drag _ _ _) in *.
    apply drag_move_on_screen.
    destruct (drag_move_spec i p1) as (_ & _ & Esw & Esh & Ew & Eh & _).
    unfold fits_screen in *. rewrite Esw, Esh, Ew, Eh in Hfit. exact Hfit.
  - intros Ht. rewrite (update_state_throw _ _ _ _ Ht) in *.
    set (m := throw_move _) in *.
    apply throw_collide_on_screen.
    destruct (throw_collide_frame m) as (Esw & Esh & Ew & Eh & _).
    unfold fits_screen in *. rewrite Esw, Esh, Ew, Eh in Hfit. exact Hfit.
  - unfold normal_tick. intros Hn Hs Hsw.
    apply andb_true_iff in Hn. destruct Hn as [Hn Hb].
    apply andb_true_iff in Hn. destruct Hn as [Hd Ht].
    apply negb_true_iff in Hd, Ht.
    rewrite (update_state_normal _ _ _ _ Hd Ht) in *.
    destruct (behave ext data i (pre_behave i p)) as [r | r]; [discriminate |].
    destruct (lateral_frame r) as (Esw & Ew & _ & Est).
    assert (Hr : state r <> None) by (intros E; apply Hs, Est, E).
    destruct (lateral_x_range r Hr) as [Hle Hge]. cbv zeta in Hle, Hge.
    destruct Hfit as [Hfx _]. rewrite Esw, Ew in *.
    assert (Hmax : (0 <= inject_Z (screen_width r - width r))%Q)
      by (change 0%Q with (inject_Z 0); rewrite <- Zle_Qle; exact Hfx).
    assert (Hmin : (0 <= inject_Z (screen_width r - screen_width r / 4))%Q).
    { change 0%Q with (inject_Z 0). rewrite <- Zle_Qle.
      pose proof (Z.div_le_upper_bound (screen_width r) 4 (screen_width r)).
      lia. }
    split; [destruct Hge; lra | exact Hle].
Qed.

Lemma C1_position_after_tick_witness :
  on_screen (fst (update_state example_ext example_PETS_DATA
                               example_idle_input thrown_pet)).
Proof.
  assert (Hfit : fits_screen (fst (update_state example_ext example_PETS_DATA
                                                example_idle_input thrown_pet)))
    by (split; vm_compute; discriminate).
  destruct (C1_position_after_tick example_ext example_PETS_DATA
              example_idle_input thrown_pet Hfit) as (_ & H & _).
  apply H. reflexivity.
Defined.

(** A dog built by the constructor with size "original" rests on screen in
    its "idle" frames (60 x 40).  The pointer comes near; the tick is a
    normal state update that switches to "lie", whose frames are 80 x 60.
    The pet still fits on the screen, x is pulled back to 1840, and y
    stays 1040, which is below the lowest allowed y = 1080 - 60. *)
Lemma C1_counterexample :
  exists p : Pet,
    Pet__init__ example_ext example_PETS_DATA example_screen
                "dog" "akita" 8 "original" 0 0
    = Returns (Constructed p)
    /\ on_screen p
    /\ let q := fst (update_state example_ext example_PETS_DATA near_input p) in
       normal_tick example_ext example_PETS_DATA near_input p = true
       /\ fits_screen q
       /\ height q = 60
       /\ x q = inject_Z 1840
       /\ y q = inject_Z 1040
       /\ ~ on_screen q.
Proof.
  eexists. split; [vm_compute; reflexivity |].
  split; [split; split; vm_compute; discriminate |].
  cbv zeta. split; [vm_compute; reflexivity |].
  split; [split; vm_compute; discriminate |].
  split; [vm_compute; reflexivity |].
  split; [vm_compute; reflexivity |].
  split; [vm_compute; reflexivity |].
  intros [_ [_ H]]. vm_compute in H. apply H. reflexivity.
Qed.

(** ** The proximity override *)

Lemma begin_drag_idle (inb : bool) (i : Input) (p : Pet) :
  left_down i && (dragging p || inb) = false -> begin_drag inb i p = p.
Proof.
  unfold begin_drag.
  destruct (left_down i), (dragging p), inb; simpl; try discriminate; reflexivity.
Qed.

Lemma pre_throw_frame (i : Input) (p : Pet) :
  drag_active i p = false ->
  let r := pre_throw i p in
  x r = x p /\ y r = y p /\ height_lie r = height_lie p
  /\ immunity r = immunity p /\ wall_scene_step r = wall_scene_step p
  /\ species r = species p /\ color r = color p /\ state r = state p
  /\ lie_duration r = lie_duration p
  /\ screen_width r = screen_width p /\ width r = width p
  /\ screen_height r = screen_height p /\ height r = height p.
Proof.
  intros Hd. unfold pre_throw, drag_active in *.
  rewrite begin_drag_idle
    by (rewrite right_click_dragging; exact Hd).
  rewrite right_click_dragging.
  right_click_cases (in_bounds p i) i p; destruct (dragging p);
    repeat split.
Qed.

Lemma pre_behave_rest (i : Input) (p : Pet) :
  drag_active i p = false ->
  throw_active i p = false ->
  pre_behave i p = set_throw_velocity (0, 0)%Q (pre_throw i p).
Proof.
  intros Hd Ht. unfold throw_active in Ht. rewrite Hd in Ht. simpl in Ht.
  apply negb_false_iff in Ht. unfold pre_behave.
  rewrite (apply_throw_rest _ Ht). reflexivity.
Qed.

(** On a tick owned by neither drag nor throw, the code before the
    behaviour leaves the attributes read by the proximity override as
    they were. *)
Lemma pre_behave_frame (i : Input) (p : Pet) :
  drag_active i p = false ->
  throw_active i p = false ->
  let r := pre_behave i p in
  x r = x p /\ y r = y p /\ height_lie r = height_lie p
  /\ immunity r = immunity p /\ wall_scene_step r = wall_scene_step p
  /\ species r = species p /\ color r = color p /\ state r = state p
  /\ lie_duration r = lie_duration p.
Proof.
  intros Hd Ht r. subst r. rewrite (pre_behave_rest _ _ Hd Ht).
  destruct (pre_throw_frame i p Hd)
    as (? & ? & ? & ? & ? & ? & ? & ? & ? & _).
  simpl. repeat split; assumption.
Qed.

Lemma frame_animation_frame (ext : Ext) (p : Pet) :
  immunity (frame_animation ext p) = immunity p
  /\ x (frame_animation ext p) = x p /\ y (frame_animation ext p) = y p
  /\ screen_width (frame_animation ext p) = screen_width p
  /\ screen_height (frame_animation ext p) = screen_height p
  /\ _right_click_consumed (frame_animation ext p) = _right_click_consumed p
  /\ match state p with
     | None => state (frame_animation ext p) = None
     | Some s =>
         exists s', state (frame_animation ext p) = Some s'
                    /\ name s' = name s /\ direction s' = direction s
     end.
Proof.
  unfold frame_animation. simpl.
  destruct (state p) as [s |] eqn:Es; [| simpl; rewrite Es; repeat split].
  destruct (resize_frames _ _ _ _) as [fr | [fr [nh |]]];
    try (simpl; rewrite ?Es; repeat split; eexists; repeat split; fail).
  destruct fr as [| [w h] fr'];
    [simpl; rewrite ?Es; repeat split; eexists; repeat split |].
  destruct (Qeq_bool (st_speed_animation s) 0);
    [| destruct (fps p =? 0)];
    simpl; repeat split; eexists; repeat split.
Qed.

Lemma lateral_keeps (p : Pet) :
  immunity (lateral p) = immunity p
  /\ _right_click_consumed (lateral p) = _right_click_consumed p
  /\ match state p with
     | None => state (lateral p) = None
     | Some s =>
         exists s', state (lateral p) = Some s' /\ name s' = name s
     end.
Proof.
  unfold lateral, flip_direction.
  destruct (state p) as [s |] eqn:Es;
    repeat match goal with
           | |- context [if ?b then _ else _] =>
               destruct b; simpl; rewrite ?Es; simpl
           end;
    repeat split; eauto.
Qed.

Lemma drag_tick_keeps (ext : Ext) (data : dict SpeciesData) (i : Input)
    (p : Pet) :
  drag_active i p = true ->
  state (fst (update_state ext data i p)) = state p
  /\ immunity (fst (update_state ext data i p)) = immunity p.
Proof.
  intros Hd. rewrite (update_state_drag _ _ _ _ Hd).
  destruct (drag_move_spec i (begin_drag (in_bounds p i) i
                               (fst (right_click (in_bounds p i) i p))))
    as (_ & _ & _ & _ & _ & _ & -> & -> & _).
  unfold begin_drag.
  right_click_cases (in_bounds p i) i p;
    match goal with |- context [if ?b then _ else _] => destruct b end;
    split; reflexivity.
Qed.

Lemma throw_tick_keeps (ext : Ext) (data : dict SpeciesData) (i : Input)
    (p : Pet) :
  throw_active i p = true ->
  state (fst (update_state ext data i p)) = state p
  /\ immunity (fst (update_state ext data i p)) = immunity p.
Proof.
  intros Ht. rewrite (update_state_throw _ _ _ _ Ht).
  unfold throw_active in Ht. apply andb_true_iff in Ht. destruct Ht as [Hd _].
  apply negb_true_iff in Hd.
  destruct (throw_collide_frame (throw_move (pre_throw i p)))
    as (_ & _ & _ & _ & -> & ->).
  destruct (throw_move_frame (pre_throw i p)) as (_ & _ & _ & _ & -> & ->).
  destruct (pre_throw_frame i p Hd) as (_ & _ & _ & -> & _ & _ & _ & -> & _).
  split; reflexivity.
Qed.

(** C5, as the code has it.  Take a pet that is not in a wall scene and
    whose colour variant has a "lie" animation in the catalog.  On a tick
    that neither a drag nor a throw owns, if the distance between the
    pet's origin and the pointer is below [height_lie] and [immunity] is
    false: when the species has a "defaults" entry in the catalog, the
    tick ends in the state "lie", whatever the counter of the running
    state was, with [immunity] true; when it has none, line 174 raises
    and the tick changes neither the state nor [immunity].  A tick owned
    by a drag or by a throw changes neither the state nor [immunity]. *)
Theorem C5_lie_override (ext : Ext) (data : dict SpeciesData) (i : Input)
    (p : Pet) :
  let q := fst (update_state ext data i p) in
  (forall (sd : SpeciesData) (color_states : dict string) (gif_path : string),
      wall_scene_step p = None ->
      dict_get (species p) data = Some sd ->
      dict_get (color p) (sd_states sd) = Some color_states ->
      dict_get "lie" color_states = Some gif_path ->
      drag_active i p = false ->
      throw_active i p = false ->
      distance_lt p i (height_lie p) = true ->
      immunity p = false ->
      (sd_defaults sd <> None ->
       (exists s : State, state q = Some s /\ name s = "lie"%string)
       /\ immunity q = true)
      /\ (sd_defaults sd = None ->
          state q = state p /\ immunity q = false))
  /\ (drag_active i p = true -> state q = state p /\ immunity q = immunity p)
  /\ (throw_active i p = true -> state q = state p /\ immunity q = immunity p).
Proof.
  intros q. subst q. split; [| split].
  - intros sd cs gif_path Hw Hsd Hcs Hlie Hd Ht Hnear Him.
    rewrite (update_state_normal _ _ _ _ Hd Ht).
    destruct (pre_behave_frame i p Hd Ht)
      as (Ex & Ey & Eh & Ei & Ew & Esp & Eco & Est & _).
    set (r := pre_behave i p) in *.
    unfold behave. rewrite Ew, Hw, Esp, Hsd, Eco, Hcs, Hlie, Eh, Ei, Him.
    assert (Hn : distance_lt r i (height_lie p) = true).
    { unfold distance_lt, distance_sq in *. rewrite Ex, Ey. exact Hnear. }
    rewrite Hn. simpl andb. cbv iota zeta.
    destruct (sd_defaults sd) as [defaults |].
    + split; [intros _ | intros E; discriminate].
      set (r1 := set_immunity true _).
      destruct (frame_animation_frame ext r1) as (Fi & _ & _ & _ & _ & _ & Fs).
      change (state r1) with (Some (lie_state ext defaults gif_path r)) in Fs.
      destruct Fs as (s1 & Es1 & En1 & _).
      destruct (lateral_keeps (frame_animation ext r1)) as (Li & _ & Ls).
      rewrite Es1 in Ls. destruct Ls as (s2 & Es2 & En2).
      split.
      * exists s2. split; [exact Es2 |]. rewrite En2, En1. reflexivity.
      * rewrite Li, Fi. reflexivity.
    + split; [intros E; congruence | intros _].
      split; [exact Est | rewrite Ei; exact Him].
  - apply drag_tick_keeps.
  - apply throw_tick_keeps.
Qed.

Lemma C5_lie_override_witness :
  (exists s : State,
      state (fst (update_state example_ext example_PETS_DATA near_input
                               example_pet)) = Some s
      /\ name s = "lie"%string)
  /\ immunity (fst (update_state example_ext example_PETS_DATA near_input
                                 example_pet)) = true.
Proof.
  destruct (C5_lie_override example_ext example_PETS_DATA near_input
              example_pet) as (H & _ & _).
  cbv zeta in H.
  refine (proj1 (H _ _ _ eq_refl eq_refl eq_refl eq_refl eq_refl eq_refl
                   eq_refl eq_refl) _).
  discriminate.
Defined.

(** A snake rests next to the pointer with [immunity] false, no drag and
    no throw; its colour variant has no "lie" animation, and the tick
    leaves it in "idle" with [immunity] false.  Whatever the
    collaborators are, a tick of a pet in a wall scene is the tick of
    [squirrel_climb], which runs instead of the proximity test.  And a
    dog whose species has no "defaults" entry in the catalog stays in
    "idle" with [immunity] false although its colour has a "lie"
    animation. *)
Lemma C5_counterexample :
  (let q := fst (update_state example_ext example_PETS_DATA near_input
                              example_snake) in
   drag_active near_input example_snake = false
   /\ throw_active near_input example_snake = false
   /\ distance_lt example_snake near_input (height_lie example_snake) = true
   /\ immunity example_snake = false
   /\ (exists s : State, state q = Some s /\ name s = "idle"%string)
   /\ immunity q = false)
  /\ (forall ext : Ext,
        distance_lt climbing_pet near_input (height_lie climbing_pet) = true
        /\ immunity climbing_pet = false
        /\ fst (update_state ext example_PETS_DATA near_input climbing_pet)
           = squirrel_climb ext near_input climbing_pet)
  /\ (let q := fst (update_state example_ext bare_PETS_DATA near_input
                                 bare_pet) in
      drag_active near_input bare_pet = false
      /\ throw_active near_input bare_pet = false
      /\ distance_lt bare_pet near_input (height_lie bare_pet) = true
      /\ immunity bare_pet = false
      /\ (exists s : State, state q = Some s /\ name s = "idle"%string)
      /\ immunity q = false).
Proof.
  split; [| split].
  - cbv zeta. repeat split; try reflexivity.
    eexists. split; vm_compute; reflexivity.
  - intros ext. repeat split.
  - cbv zeta. repeat split; try reflexivity.
    eexists. split; vm_compute; reflexivity.
Qed.

(** ** Drag and release *)

Lemma right_click_frame (inb : bool) (i : Input) (p : Pet) :
  let r := fst (right_click inb i p) in
  x r = x p /\ y r = y p /\ drag_offset r = drag_offset p
  /\ drag_last_pos r = drag_last_pos p /\ throw_velocity r = throw_velocity p
  /\ screen_width r = screen_width p /\ width r = width p
  /\ screen_height r = screen_height p /\ height r = height p.
Proof. right_click_cases inb i p; repeat split. Qed.

Lemma pre_throw_release (i : Input) (p : Pet) :
  left_down i = false ->
  dragging p = true ->
  pre_throw i p = drag_release (fst (right_click (in_bounds p i) i p))
  /\ dragging (pre_throw i p) = false
  /\ drag_last_pos (pre_throw i p) = None
  /\ throw_velocity (pre_throw i p)
     = ((fst (throw_velocity p) * RELEASE)%Q,
        (snd (throw_velocity p) * RELEASE)%Q).
Proof.
  intros Hl Hd. unfold pre_throw.
  rewrite begin_drag_idle by (rewrite Hl; reflexivity).
  rewrite right_click_dragging, Hd.
  destruct (right_click_frame (in_bounds p i) i p)
    as (_ & _ & _ & _ & Ev & _).
  unfold drag_release. simpl. cbv zeta in Ev. rewrite Ev. repeat split.
Qed.

(** C6.  (1) When the primary button is down with the pointer inside the
    bounding box of a pet that is not being dragged, the tick records the
    offset between pointer and origin and the pointer position, sets the
    throw velocity to exactly (0, 0) and ends with the pet being dragged.
    (2) On every tick of an ongoing drag the position is the pointer
    position minus the offset, clamped by max(0, min(., bound)) on each
    axis, and the throw velocity is the pointer delta since the previous
    tick.  (3) On the tick that sees the button released, the pet enters
    the throw step no longer dragged, with the recorded velocity
    multiplied by 1.5 on each axis.  (4) So after a drag tick that
    recorded the pointer delta (dx, dy), a release starts the throw with
    the velocity (1.5 dx, 1.5 dy). *)
Theorem C6_drag_and_release (ext : Ext) (data : dict SpeciesData)
    (i : Input) (p : Pet) :
  let q := fst (update_state ext data i p) in
  let mx := inject_Z (mouse_x i) in
  let my := inject_Z (mouse_y i) in
  let max_x := inject_Z (screen_width p - width p) in
  let max_y := inject_Z (screen_height p - height p) in
  (left_down i = true -> in_bounds p i = true -> dragging p = false ->
     throw_velocity (begin_drag (in_bounds p i) i
                                (fst (right_click (in_bounds p i) i p)))
     = (0, 0)%Q
     /\ dragging q = true
     /\ drag_offset q = ((mx - x p)%Q, (my - y p)%Q)
     /\ drag_last_pos q = Some (mouse_x i, mouse_y i)
     /\ throw_velocity q = (0, 0)%Q)
  /\ (left_down i = true -> dragging p = true ->
      dragging q = true
      /\ x q = py_max 0 (py_min (mx - fst (drag_offset p))%Q max_x)
      /\ y q = py_max 0 (py_min (my - snd (drag_offset p))%Q max_y)
      /\ (fits_screen p ->
          on_screen q
          /\ (0 <= mx - fst (drag_offset p) <= max_x ->
              x q == mx - fst (drag_offset p))%Q
          /\ (0 <= my - snd (drag_offset p) <= max_y ->
              y q == my - snd (drag_offset p))%Q
          /\ (mx - fst (drag_offset p) < 0 -> x q = 0)%Q
          /\ (max_x < mx - fst (drag_offset p) -> x q == max_x)%Q
          /\ (my - snd (drag_offset p) < 0 -> y q = 0)%Q
          /\ (max_y < my - snd (drag_offset p) -> y q == max_y)%Q)
      /\ forall lx ly : Z,
           drag_last_pos p = Some (lx, ly) ->
           throw_velocity q
           = (inject_Z (mouse_x i - lx), inject_Z (mouse_y i - ly)))
  /\ (left_down i = false -> dragging p = true ->
      q = after_drag ext data i (pre_throw i p)
      /\ dragging (pre_throw i p) = false
      /\ (fst (throw_velocity (pre_throw i p))
          == (15 # 10) * fst (throw_velocity p))%Q
      /\ (snd (throw_velocity (pre_throw i p))
          == (15 # 10) * snd (throw_velocity p))%Q)
  /\ (left_down i = true -> dragging p = true ->
      forall (lx ly : Z) (i' : Input),
        drag_last_pos p = Some (lx, ly) ->
        left_down i' = false ->
        (fst (throw_velocity (pre_throw i' q))
         == (15 # 10) * inject_Z (mouse_x i - lx))%Q
        /\ (snd (throw_velocity (pre_throw i' q))
            == (15 # 10) * inject_Z (mouse_y i - ly))%Q).
Proof.
  intros q mx my max_x max_y.
  assert (Hongoing :
    left_down i = true -> dragging p = true ->
    q = drag_move i (fst (right_click (in_bounds p i) i p))).
  { intros Hl Hd. subst q.
    rewrite update_state_drag
      by (unfold drag_active; rewrite Hl, Hd; reflexivity).
    unfold begin_drag. rewrite right_click_dragging, Hd, andb_false_r.
    reflexivity. }
  destruct (right_click_frame (in_bounds p i) i p)
    as (Rx & Ry & Ro & Rl & Rv & Rsw & Rw & Rsh & Rh).
  cbv zeta in *.
  set (p1 := fst (right_click (in_bounds p i) i p)) in *.
  split; [| split; [| split]].
  - intros Hl Hin Hd.
    assert (Hd1 : dragging p1 = false)
      by (unfold p1; rewrite right_click_dragging; exact Hd).
    split.
    { unfold begin_drag. rewrite Hl, Hin, Hd1. reflexivity. }
    subst q. rewrite update_state_drag
      by (unfold drag_active; rewrite Hl, Hin, orb_true_r; reflexivity).
    fold p1. unfold begin_drag. rewrite Hl, Hin, Hd1.
    simpl andb. cbv iota.
    unfold drag_move. simpl. rewrite Rx, Ry, !Z.sub_diag.
    repeat split.
  - intros Hl Hd. rewrite (Hongoing Hl Hd).
    destruct (drag_move_spec i p1)
      as (Ex & Ey & Esw & Esh & Ew & Eh & _ & _ & Edr & _ & _).
    split; [rewrite Edr; unfold p1; rewrite right_click_dragging; exact Hd |].
    rewrite Ex, Ey, Ro, Rsw, Rw, Rsh, Rh.
    split; [reflexivity |]. split; [reflexivity |]. split.
    + intros Hfit. destruct Hfit as [Hx Hy].
      assert (Hmx : (0 <= max_x)%Q)
        by (subst max_x; change 0%Q with (inject_Z 0);
            rewrite <- Zle_Qle; exact Hx).
      assert (Hmy : (0 <= max_y)%Q)
        by (subst max_y; change 0%Q with (inject_Z 0);
            rewrite <- Zle_Qle; exact Hy).
      split; [| split; [| split; [| split; [| split; [| split]]]]].
      * unfold on_screen. rewrite Ex, Ey, Esw, Esh, Ew, Eh.
        rewrite Ro, Rsw, Rw, Rsh, Rh.
        split; apply clamp_range; assumption.
      * apply clamp_inside.
      * apply clamp_inside.
      * apply clamp_low; exact Hmx.
      * apply clamp_high; exact Hmx.
      * apply clamp_low; exact Hmy.
      * apply clamp_high; exact Hmy.
    + intros lx ly Hlast. unfold drag_move. rewrite Rl, Hlast. reflexivity.
  - intros Hl Hd.
    destruct (pre_throw_release i p Hl Hd) as (_ & Edr & _ & Ev).
    split; [| split; [exact Edr |]].
    + subst q. apply update_state_free. unfold drag_active.
      rewrite Hl. reflexivity.
    + rewrite Ev. simpl. unfold RELEASE. split; ring.
  - intros Hl Hd lx ly i' Hlast Hl'.
    assert (Hq : dragging q = true /\ throw_velocity q
                 = (inject_Z (mouse_x i - lx), inject_Z (mouse_y i - ly))).
    { rewrite (Hongoing Hl Hd).
      destruct (drag_move_spec i p1) as (_ & _ & _ & _ & _ & _ & _ & _ & Edr & _).
      split; [rewrite Edr; unfold p1; rewrite right_click_dragging; exact Hd |].
      unfold drag_move. rewrite Rl, Hlast. reflexivity. }
    destruct Hq as [Hdq Hvq].
    destruct (pre_throw_release i' q Hl' Hdq) as (_ & _ & _ & Ev).
    rewrite Ev, Hvq. simpl. unfold RELEASE. split; ring.
Qed.

Lemma C6_drag_and_release_witness :
  throw_velocity (fst (update_state example_ext example_PETS_DATA grab_input
                                    example_pet)) = (0, 0)%Q
  /\ (fst (throw_velocity
             (pre_throw drop_input
                (fst (update_state example_ext example_PETS_DATA pull_input
                        (fst (update_state example_ext example_PETS_DATA
                                           grab_input example_pet))))))
      == (15 # 10) * inject_Z (1840 - 1870))%Q.
Proof.
  split.
  - pose proof (C6_drag_and_release example_ext example_PETS_DATA grab_input
                  example_pet) as H.
    cbv zeta in H. destruct H as (H & _).
    destruct (H eq_refl eq_refl eq_refl) as (_ & _ & _ & _ & Hv). exact Hv.
  - pose proof (C6_drag_and_release example_ext example_PETS_DATA pull_input
                  (fst (update_state example_ext example_PETS_DATA grab_input
                                     example_pet))) as H.
    cbv zeta in H. destruct H as (_ & _ & _ & H).
    destruct (H eq_refl eq_refl 1870 1050 drop_input eq_refl eq_refl)
      as [Hx _].
    exact Hx.
Defined.

(** ** The secondary button *)

Lemma right_click_events (inb : bool) (i : Input) (p : Pet) :
  snd (right_click inb i p)
  = if right_down i && inb && negb (_right_click_consumed p) && main_window p
    then [check_messages] else [].
Proof.
  unfold right_click.
  destruct (right_down i && inb && negb (_right_click_consumed p));
    destruct (main_window p); reflexivity.
Qed.

Lemma right_click_flag (inb : bool) (i : Input) (p : Pet) :
  _right_click_consumed (fst (right_click inb i p))
  = right_down i && (_right_click_consumed p || inb).
Proof.
  unfold right_click.
  destruct (right_down i), inb, (_right_click_consumed p) eqn:E;
    simpl; rewrite ?E; reflexivity.
Qed.

Lemma update_state_events (ext : Ext) (data : dict SpeciesData) (i : Input)
    (p : Pet) :
  snd (update_state ext data i p) = snd (right_click (in_bounds p i) i p).
Proof.
  unfold update_state.
  destruct (right_click (in_bounds p i) i p) as [p1 ev]. simpl.
  destruct (dragging _); [destruct (left_down i) |]; reflexivity.
Qed.

Lemma apply_throw_flag (p : Pet) :
  _right_click_consumed (fst (_apply_throw p)) = _right_click_consumed p.
Proof.
  unfold _apply_throw. destruct (below_eps (throw_velocity p)); [reflexivity |].
  simpl. unfold throw_collide, throw_move. destruct (throw_velocity p).
  repeat match goal with
         | |- context [if Qltb ?a ?b then _ else _] => destruct (Qltb a b)
         end; reflexivity.
Qed.

Lemma behave_next_flag (ext : Ext) (i : Input) (p : Pet) :
  keeps_click_flag ext ->
  _right_click_consumed
    (match behave_next ext i p with inl q => q | inr q => lateral q end)
  = _right_click_consumed p.
Proof.
  intros K. unfold behave_next. destruct (state p); [| reflexivity].
  destruct (K i p) as (Kn & _ & _).
  destruct (State_next ext i p) as [p1 fin]. simpl in Kn.
  destruct fin.
  - destruct (lateral_keeps (frame_animation ext (set_immunity false
        (if (species p1 =? "squirrel")%string then go_climb ext i p1
         else set_state (random_state ext (STATES_INFO p1)
                (ExcList TRANSIENT_STATES) (rnd_name i) (rnd_dir i)) p1))))
      as (_ & -> & _).
    destruct (frame_animation_frame ext (set_immunity false
        (if (species p1 =? "squirrel")%string then go_climb ext i p1
         else set_state (random_state ext (STATES_INFO p1)
                (ExcList TRANSIENT_STATES) (rnd_name i) (rnd_dir i)) p1)))
      as (_ & _ & _ & _ & _ & -> & _).
    destruct (species p1 =? "squirrel")%string; simpl.
    + destruct (K i p1) as (_ & _ & ->). exact Kn.
    + exact Kn.
  - destruct (lateral_keeps p1) as (_ & -> & _). exact Kn.
Qed.

Lemma behave_flag (ext : Ext) (data : dict SpeciesData) (i : Input)
    (p : Pet) :
  keeps_click_flag ext ->
  _right_click_consumed
    (match behave ext data i p with inl q => q | inr q => lateral q end)
  = _right_click_consumed p.
Proof.
  intros K. unfold behave.
  destruct (wall_scene_step p); [apply (K i p) |].
  destruct (dict_get (species p) data) as [sd |]; [| reflexivity].
  destruct (dict_get (color p) (sd_states sd)) as [cs |]; [| reflexivity].
  destruct (dict_get "lie" cs) as [gif_path |];
    [| apply behave_next_flag; exact K].
  destruct (distance_lt p i (height_lie p) && negb (immunity p));
    [| apply behave_next_flag; exact K].
  destruct (sd_defaults sd) as [defaults |]; [| reflexivity].
  match goal with
  | |- context [lateral ?r] => destruct (lateral_keeps r) as (_ & -> & _)
  end.
  match goal with
  | |- context [frame_animation ext ?r] =>
      destruct (frame_animation_frame ext r) as (_ & _ & _ & _ & _ & -> & _)
  end.
  reflexivity.
Qed.

Lemma after_drag_flag (ext : Ext) (data : dict SpeciesData) (i : Input)
    (p : Pet) :
  keeps_click_flag ext ->
  _right_click_consumed (after_drag ext data i p) = _right_click_consumed p.
Proof.
  intros K. unfold after_drag.
  pose proof (apply_throw_flag p) as Hf.
  destruct (_apply_throw p) as [p1 active]. simpl in Hf.
  destruct active; [exact Hf |].
  rewrite (behave_flag ext data i p1 K). exact Hf.
Qed.

(** Only lines 131-136 write the flag of the secondary button. *)
Lemma update_state_flag (ext : Ext) (data : dict SpeciesData) (i : Input)
    (p : Pet) :
  keeps_click_flag ext ->
  _right_click_consumed (fst (update_state ext data i p))
  = right_down i && (_right_click_consumed p || in_bounds p i).
Proof.
  intros K. rewrite <- right_click_flag.
  destruct (drag_active i p) eqn:Hd.
  - rewrite (update_state_drag _ _ _ _ Hd).
    unfold drag_move, begin_drag.
    repeat match goal with
           | |- context [if ?b then _ else _] => destruct b
           | |- context [match drag_last_pos ?r with _ => _ end] =>
               destruct (drag_last_pos r) as [[? ?] |]
           end; reflexivity.
  - rewrite (update_state_free _ _ _ _ Hd), (after_drag_flag _ _ _ _ K).
    unfold pre_throw.
    rewrite begin_drag_idle by (rewrite right_click_dragging; exact Hd).
    destruct (dragging _); reflexivity.
Qed.

Lemma run_held_consumed (ext : Ext) (data : dict SpeciesData)
    (inputs : list Input) :
  keeps_click_flag ext ->
  (forall i : Input, In i inputs -> right_down i = true) ->
  forall p : Pet,
    _right_click_consumed p = true -> snd (run ext data inputs p) = [].
Proof.
  intros K. induction inputs as [| i inputs IH]; intros Hall p Hc;
    [reflexivity |].
  simpl.
  pose proof (update_state_events ext data i p) as He.
  pose proof (update_state_flag ext data i p K) as Hf.
  destruct (update_state ext data i p) as [p1 ev]. simpl in He, Hf.
  rewrite right_click_events, Hc in He. rewrite andb_false_r in He.
  simpl in He. subst ev.
  rewrite Hc, (Hall i (or_introl eq_refl)) in Hf. simpl in Hf.
  specialize (IH (fun j Hj => Hall j (or_intror Hj)) p1 Hf).
  destruct (run ext data inputs p1) as [q evs]. simpl in *. exact IH.
Qed.

(** C9, as the code has it.  A tick invokes the callback exactly when it
    polls the secondary button as down with the pointer inside the
    bounding box, the press not yet consumed and a main window attached;
    the button need not be released, and a tick that sees the button up
    invokes nothing.  And over any run of ticks during which the button
    stays down the callback is invoked at most once, provided the
    collaborators do not touch the flag. *)
Theorem C9_secondary_click (ext : Ext) (data : dict SpeciesData) :
  (forall (i : Input) (p : Pet),
      snd (update_state ext data i p)
      = if right_down i && in_bounds p i && negb (_right_click_consumed p)
           && main_window p
        then [check_messages] else [])
  /\ (forall (i : Input) (p : Pet),
        right_down i = false -> snd (update_state ext data i p) = [])
  /\ (keeps_click_flag ext ->
      forall (inputs : list Input) (p : Pet),
        (forall i : Input, In i inputs -> right_down i = true) ->
        (length (snd (run ext data inputs p)) <= 1)%nat).
Proof.
  split; [| split].
  - intros i p. rewrite update_state_events. apply right_click_events.
  - intros i p Hr. rewrite update_state_events, right_click_events, Hr.
    reflexivity.
  - intros K inputs. induction inputs as [| i inputs IH]; intros p Hall;
      [simpl; lia |].
    simpl.
    pose proof (update_state_events ext data i p) as He.
    pose proof (update_state_flag ext data i p K) as Hf.
    destruct (update_state ext data i p) as [p1 ev]. simpl in He, Hf.
    rewrite right_click_events in He.
    rewrite (Hall i (or_introl eq_refl)) in He, Hf. simpl in He, Hf.
    destruct (in_bounds p i && negb (_right_click_consumed p)
              && main_window p) eqn:Hfire.
    + assert (Hc : _right_click_consumed p1 = true).
      { rewrite Hf. apply andb_true_iff in Hfire. destruct Hfire as [Hfire _].
        apply andb_true_iff in Hfire. destruct Hfire as [-> _].
        apply orb_true_r. }
      pose proof (run_held_consumed ext data inputs K
                    (fun j Hj => Hall j (or_intror Hj)) p1 Hc) as Hrest.
      destruct (run ext data inputs p1) as [q evs]. simpl in *.
      subst ev evs. simpl. lia.
    + specialize (IH p1 (fun j Hj => Hall j (or_intror Hj))).
      destruct (run ext data inputs p1) as [q evs]. simpl in *.
      subst ev. simpl. exact IH.
Qed.

Lemma example_ext_keeps_click_flag : keeps_click_flag example_ext.
Proof.
  intros i p. simpl. unfold State_next_spec.
  destruct (state p); repeat split.
Qed.

Lemma C9_secondary_click_witness :
  (length (snd (run example_ext example_PETS_DATA
                    [press_input; press_input; press_input] example_pet))
   <= 1)%nat
  /\ snd (update_state example_ext example_PETS_DATA release_input example_pet)
     = [].
Proof.
  destruct (C9_secondary_click example_ext example_PETS_DATA)
    as (_ & Hup & Hheld).
  split.
  - apply (Hheld example_ext_keeps_click_flag).
    intros i [<- | [<- | [<- | []]]]; reflexivity.
  - apply Hup. reflexivity.
Defined.

(** The tick that polls the secondary button as down on the pet invokes
    the callback although the button has not been released; the tick that
    then sees it released invokes nothing. *)
Lemma C9_counterexample :
  right_down press_input = true
  /\ in_bounds example_pet press_input = true
  /\ _right_click_consumed example_pet = false
  /\ snd (update_state example_ext example_PETS_DATA press_input example_pet)
     = [check_messages]
  /\ right_down release_input = false
  /\ snd (update_state example_ext example_PETS_DATA release_input
            (fst (update_state example_ext example_PETS_DATA press_input
                               example_pet)))
     = [].
Proof. repeat split. Qed.

(** ** A throw seen from [update_state] *)

Lemma bounce_x_same (b : Z) (p p' : Pet) :
  same_motion p p' -> same_motion (bounce_x b p) (bounce_x b p').
Proof.
  intros (Hx & Hy & Hv). unfold same_motion, bounce_x. simpl.
  rewrite Hy, Hv. auto.
Qed.

Lemma bounce_y_same (b : Z) (p p' : Pet) :
  same_motion p p' -> same_motion (bounce_y b p) (bounce_y b p').
Proof.
  intros (Hx & Hy & Hv). unfold same_motion, bounce_y. simpl.
  rewrite Hx, Hv. auto.
Qed.

Lemma throw_move_same (p p' : Pet) :
  same_motion p p' -> same_motion (throw_move p) (throw_move p').
Proof.
  intros (Hx & Hy & Hv). unfold same_motion, throw_move.
  rewrite Hv. destruct (throw_velocity p') as [vx vy]. simpl.
  rewrite Hx, Hy. auto.
Qed.

(** The throw step only reads the position, the velocity and the sizes of
    pet and screen. *)
Lemma throw_collide_same (p p' : Pet) :
  same_motion p p' ->
  screen_width p = screen_width p' -> width p = width p' ->
  screen_height p = screen_height p' -> height p = height p' ->
  same_motion (throw_collide p) (throw_collide p').
Proof.
  intros H Hsw Hw Hsh Hh. unfold throw_collide. rewrite Hsw, Hw, Hsh, Hh.
  set (a := if Qltb (x p) 0 then bounce_x 0 p else p).
  set (a' := if Qltb (x p') 0 then bounce_x 0 p' else p').
  assert (Ha : same_motion a a').
  { subst a a'. rewrite (proj1 H).
    destruct (Qltb (x p') 0); [apply bounce_x_same |]; exact H. }
  set (b := if Qltb _ (x a) then bounce_x _ a else a).
  set (b' := if Qltb _ (x a') then bounce_x _ a' else a').
  assert (Hb : same_motion b b').
  { subst b b'. rewrite (proj1 Ha).
    destruct (Qltb _ (x a')); [apply bounce_x_same |]; exact Ha. }
  set (c := if Qltb (y b) 0 then bounce_y 0 b else b).
  set (c' := if Qltb (y b') 0 then bounce_y 0 b' else b').
  assert (Hc : same_motion c c').
  { subst c c'. rewrite (proj1 (proj2 Hb)).
    destruct (Qltb (y b') 0); [apply bounce_y_same |]; exact Hb. }
  rewrite (proj1 (proj2 Hc)).
  destruct (Qltb _ (y c')); [apply bounce_y_same |]; exact Hc.
Qed.

(** With no button pressed and no drag in progress, a tick on which the
    throw is active moves the pet exactly as [_apply_throw] does. *)
Lemma update_state_idle_throw (ext : Ext) (data : dict SpeciesData)
    (i : Input) (p : Pet) :
  left_down i = false ->
  dragging p = false ->
  below_eps (throw_velocity p) = false ->
  same_motion (fst (update_state ext data i p)) (fst (_apply_throw p)).
Proof.
  intros Hl Hd Hb.
  assert (Hda : drag_active i p = false)
    by (unfold drag_active; rewrite Hl; reflexivity).
  assert (Hpre : pre_throw i p = fst (right_click (in_bounds p i) i p)).
  { unfold pre_throw. rewrite begin_drag_idle
      by (rewrite right_click_dragging; exact Hda).
    rewrite right_click_dragging, Hd. reflexivity. }
  destruct (right_click_frame (in_bounds p i) i p)
    as (Rx & Ry & _ & _ & Rv & Rsw & Rw & Rsh & Rh).
  cbv zeta in *.
  rewrite update_state_throw
    by (unfold throw_active; rewrite Hda, Hpre, Rv, Hb; reflexivity).
  rewrite Hpre. unfold _apply_throw. rewrite Hb. simpl fst.
  set (p1 := fst (right_click (in_bounds p i) i p)) in *.
  assert (Hm : same_motion (throw_move p1) (throw_move p))
    by (apply throw_move_same; repeat split; assumption).
  destruct (throw_move_frame p1) as (E1 & E2 & E3 & E4 & _).
  destruct (throw_move_frame p) as (F1 & F2 & F3 & F4 & _).
  apply throw_collide_same; [exact Hm | congruence ..].
Qed.

(** ** State selection *)

Lemma str_in_In (s : string) (l : list string) : str_in s l = true <-> In s l.
Proof.
  induction l as [| t l IH]; simpl; [split; [discriminate | tauto] |].
  rewrite orb_true_iff, String.eqb_eq, IH. split; intros [H | H]; auto.
Qed.

Lemma list_remove_In (s k : string) (l : list string) :
  In k (list_remove s l) -> In k l.
Proof.
  induction l as [| t l IH]; simpl; [tauto |].
  destruct (String.eqb_spec s t); simpl; intuition.
Qed.

Lemma list_remove_other (s k : string) (l : list string) :
  k <> s -> In k l -> In k (list_remove s l).
Proof.
  intros Hne. induction l as [| t l IH]; simpl; [tauto |].
  destruct (String.eqb_spec s t) as [-> | Hst]; simpl; intuition congruence.
Qed.

Lemma list_remove_NoDup (s : string) (l : list string) :
  List.NoDup l -> List.NoDup (list_remove s l) /\ ~ In s (list_remove s l).
Proof.
  induction 1 as [| t l Hnot Hnd [IH1 IH2]]; simpl.
  - split; [constructor | tauto].
  - destruct (String.eqb_spec s t) as [-> | Hst].
    + split; assumption.
    + split.
      * constructor; [| exact IH1]. intros Hin. apply Hnot.
        eapply list_remove_In. exact Hin.
      * simpl. intros [E | Hin]; [congruence | tauto].
Qed.

(** After the exclusion loop, the keys are the catalog keys that are not
    excluded. *)
Lemma remove_excluded_spec (exs keys : list string) :
  List.NoDup keys ->
  List.NoDup (remove_excluded keys exs)
  /\ forall k : string,
       In k (remove_excluded keys exs) <-> In k keys /\ ~ In k exs.
Proof.
  revert keys. unfold remove_excluded.
  induction exs as [| ex exs IH]; intros keys Hnd; simpl.
  - split; [exact Hnd |]. intros k. tauto.
  - destruct (str_in ex keys) eqn:Hin.
    + destruct (list_remove_NoDup ex keys Hnd) as [Hnd' Hnot].
      destruct (IH _ Hnd') as [IH1 IH2]. split; [exact IH1 |].
      intros k. rewrite IH2. split.
      * intros [Hk Hex]. split; [eapply list_remove_In; exact Hk |].
        intros [-> | H]; tauto.
      * intros [Hk Hex]. split; [| tauto].
        apply list_remove_other; [| exact Hk]. intros ->. tauto.
    + destruct (IH _ Hnd) as [IH1 IH2]. split; [exact IH1 |].
      intros k. rewrite IH2. split.
      * intros [Hk Hex]. split; [exact Hk |].
        intros [-> | H]; [| tauto].
        apply str_in_In in Hk. congruence.
      * intros [Hk Hex]. tauto.
Qed.

Lemma choice_In {A : Type} (r : nat) (seq : list A) :
  seq <> [] -> exists a : A, choice r seq = Some a /\ In a seq.
Proof.
  intros Hne. unfold choice. destruct seq as [| a0 seq']; [congruence |].
  set (l := a0 :: seq').
  assert (Hlt : (r mod length l < length l)%nat)
    by (apply Nat.mod_upper_bound; subst l; simpl; lia).
  destruct (nth_error l (r mod length l)) as [a |] eqn:E.
  - exists a. split; [reflexivity |]. eapply nth_error_In. exact E.
  - apply nth_error_None in E. lia.
Qed.

Lemma dict_get_In {V : Type} (k : string) (d : dict V) :
  In k (dict_keys d) -> exists v : V, dict_get k d = Some v.
Proof.
  induction d as [| [k' v'] d IH]; simpl; [tauto |].
  intros [E | Hin]; destruct (String.eqb_spec k k'); eauto; congruence.
Qed.

(** [d[k] = v] keeps the keys of a dictionary distinct. *)
Lemma dict_set_keys {V : Type} (k : string) (v : V) (d : dict V) :
  (forall k' : string,
      In k' (dict_keys (dict_set k v d)) <-> k' = k \/ In k' (dict_keys d))
  /\ (List.NoDup (dict_keys d) -> List.NoDup (dict_keys (dict_set k v d))).
Proof.
  induction d as [| [k0 v0] d [IH1 IH2]]; simpl.
  - split; [intros k'; simpl; intuition | intros _; repeat constructor; simpl; tauto].
  - destruct (String.eqb_spec k k0) as [-> | Hne]; simpl.
    + split; [intros k'; intuition | auto].
    + split.
      * intros k'. rewrite IH1. intuition.
      * intros Hnd. inversion Hnd as [| ? ? Hnot Hnd']; subst.
        constructor; [| auto]. rewrite IH1. intros [E | Hin]; congruence.
Qed.

Lemma build_STATES_INFO_NoDup (fps : Z) (defaults : dict StateDefaults)
    (color_states : dict string) :
  List.NoDup (dict_keys (build_STATES_INFO fps defaults color_states)).
Proof.
  unfold build_STATES_INFO.
  assert (H : forall acc : dict StateInfo,
             List.NoDup (dict_keys acc) ->
             List.NoDup (dict_keys
                      (fold_left
                         (fun acc kv =>
                            dict_set (fst kv)
                              (state_info fps defaults (fst kv) (snd kv)) acc)
                         color_states acc))).
  { induction color_states as [| kv l IH]; intros acc Hacc; simpl; [exact Hacc |].
    apply IH. apply dict_set_keys. exact Hacc. }
  apply H. constructor.
Qed.

(** C2.  For a catalog [info] with at least one state (its keys are
    distinct, as the keys of a dictionary are), every exclusion argument,
    every draw of the random source and every constructor of [State]:
    [random_state] returns a state;
    its name is a key of the catalog and its fields are those of that
    catalog entry; if some catalog state is not excluded, the returned
    state is not excluded; and if every catalog state is excluded, the
    returned state is the one drawn from the full list of catalog keys. *)
Theorem C2_random_state (ext : Ext) (info : dict StateInfo)
    (exception : Exception) (r_name r_dir : nat) :
  List.NoDup (dict_keys info) ->
  info <> [] ->
  exists s : State,
    random_state ext info exception r_name r_dir = Some s
    /\ In (name s) (dict_keys info)
    /\ dict_get (name s) info
       = Some {| gif := st_gif s; hold := st_hold s;
                 movement_speed := st_movement_speed s;
                 speed_animation := st_speed_animation s |}
    /\ ((exists k : string,
            In k (dict_keys info) /\ ~ In k (exception_names exception)) ->
        ~ In (name s) (exception_names exception))
    /\ ((forall k : string,
            In k (dict_keys info) -> In k (exception_names exception)) ->
        choice r_name (dict_keys info) = Some (name s)).
Proof.
  intros Hnd Hne. unfold random_state.
  destruct (remove_excluded_spec (exception_names exception) (dict_keys info) Hnd)
    as [_ Hrem].
  set (keys1 := remove_excluded (dict_keys info) (exception_names exception)) in *.
  set (keys2 := match keys1 with [] => dict_keys info | _ => keys1 end).
  assert (Hkeys : dict_keys info <> [])
    by (destruct info; [congruence | discriminate]).
  assert (H2 : keys2 <> []) by (subst keys2; destruct keys1; congruence).
  assert (Hsub : forall k, In k keys2 -> In k (dict_keys info)).
  { subst keys2. destruct keys1 eqn:E; [auto |].
    intros k Hk. apply Hrem. exact Hk. }
  destruct (choice_In r_name keys2 H2) as (nm & Hch & Hin). rewrite Hch.
  destruct (dict_get_In nm info (Hsub nm Hin)) as [inf Hget]. rewrite Hget.
  destruct (choice_In r_dir [-1; 1]) as (d & Hd & _); [discriminate |].
  rewrite Hd. eexists. split; [reflexivity |]. simpl.
  split; [apply Hsub; exact Hin |].
  split; [rewrite Hget; destruct inf; reflexivity |].
  split.
  - intros (k & Hk & Hex).
    assert (Hk1 : In k keys1) by (apply Hrem; tauto).
    subst keys2. destruct keys1 as [| k0 l] eqn:E; [destruct Hk1 |].
    apply (Hrem nm). exact Hin.
  - intros Hall.
    assert (E : keys1 = []).
    { destruct keys1 as [| k0 l] eqn:E; [reflexivity |].
      destruct (proj1 (Hrem k0) (or_introl eq_refl)) as [Hk Hex].
      elim Hex. apply Hall. exact Hk. }
    subst keys2. rewrite E in Hch. exact Hch.
Qed.

Lemma C2_random_state_witness :
  exists s : State,
    random_state example_ext (STATES_INFO example_pet)
                 (ExcList TRANSIENT_STATES) 3 0
    = Some s
    /\ ~ In (name s) TRANSIENT_STATES.
Proof.
  destruct (C2_random_state example_ext (STATES_INFO example_pet)
              (ExcList TRANSIENT_STATES) 3 0
              (build_STATES_INFO_NoDup _ _ _))
    as (s & Hs & _ & _ & Hex & _); [discriminate |].
  exists s. split; [exact Hs |].
  apply Hex. exists "idle"%string. split; [left; reflexivity |].
  simpl. intuition discriminate.
Defined.

(** With nothing left after the exclusion the choice is made in the full
    catalog: a catalog that only holds "with_ball" yields "with_ball". *)
Example random_state_fallback :
  option_map name
    (random_state example_ext
                  [("with_ball"%string,
                    {| gif := "media/dog/akita_with_ball_8fps.gif";
                       hold := 16; movement_speed := 0;
                       speed_animation := 1 |})]
                  (ExcList TRANSIENT_STATES) 5 1)
  = Some "with_ball"%string.
Proof. reflexivity. Qed.

(** An empty catalog makes [random.choice] raise; the method returns
    [None]. *)
Example random_state_empty_catalog :
  random_state example_ext [] (ExcList TRANSIENT_STATES) 0 0 = None.
Proof. reflexivity. Qed.

(** ** Construction with a missing catalog entry *)

(** C8, as the code has it.  When the species, or the colour of the
    species, is absent from the catalog, [Pet.__init__] does not raise:
    the [KeyError] of the lookup is caught and printed inside the
    constructor, which returns an object that has no state, position or
    size and whose [STATES_INFO] is unset or empty.  The asset loader of
    the old demo, [load_deskpets_mapping], does raise a [KeyError] to its
    caller for such a pair. *)
Theorem C8_missing_catalog_entry (ext : Ext) (data : dict SpeciesData)
    (scr : Screen) (species color : string) (fps : Z) (size : string)
    (r_name r_dir : nat) :
  dict_get species data = None
  \/ (exists sd : SpeciesData,
         dict_get species data = Some sd
         /\ dict_get color (sd_states sd) = None) ->
  (exists h : HalfPet,
      Pet__init__ ext data scr species color fps size r_name r_dir
      = Returns (HalfConstructed h)
      /\ h_state h = None
      /\ (h_STATES_INFO h = None \/ h_STATES_INFO h = Some []))
  /\ (forall root : DeskRoot,
        pets_data_json root = Some data ->
        load_deskpets_mapping root species color = Raises (KeyError species)
        \/ load_deskpets_mapping root species color = Raises (KeyError color)).
Proof.
  intros [Hs | (sd & Hs & Hc)].
  - split.
    + unfold Pet__init__, init_body. rewrite Hs.
      eexists. split; [reflexivity |]. simpl. auto.
    + intros root Hd. left. unfold load_deskpets_mapping.
      rewrite Hd, Hs. reflexivity.
  - split.
    + unfold Pet__init__, init_body. rewrite Hs, Hc.
      eexists. split; [reflexivity |]. simpl. auto.
    + intros root Hd. right. unfold load_deskpets_mapping.
      rewrite Hd, Hs, Hc. reflexivity.
Qed.

Lemma C8_missing_catalog_entry_witness :
  exists h : HalfPet,
    Pet__init__ example_ext example_PETS_DATA example_screen
                "dog" "husky" 8 "small" 0 0
    = Returns (HalfConstructed h)
    /\ h_state h = None.
Proof.
  assert (Habsent :
    dict_get "dog" example_PETS_DATA = None
    \/ (exists sd : SpeciesData,
           dict_get "dog" example_PETS_DATA = Some sd
           /\ dict_get "husky" (sd_states sd) = None)).
  { right. eexists. split; reflexivity. }
  destruct (C8_missing_catalog_entry example_ext example_PETS_DATA
              example_screen "dog" "husky" 8 "small" 0 0 Habsent)
    as ((h & Hh & Hst & _) & _).
  exists h. split; assumption.
Defined.

(** The catalog has no dragon: the constructor returns, and what it
    returns is an object without catalog, state or position. *)
Lemma C8_counterexample :
  dict_get "dragon" example_PETS_DATA = None
  /\ Pet__init__ example_ext example_PETS_DATA example_screen
                 "dragon" "red" 8 "small" 0 0
     = Returns (HalfConstructed
                  {| h_species := "dragon"; h_color := "red"; h_fps := 8;
                     h_size := "small"; h_screen_width := 1920;
                     h_screen_height := 1080; h_STATES_INFO := None;
                     h_state := None |})
  /\ forall e : PyExn,
       Pet__init__ example_ext example_PETS_DATA example_screen
                   "dragon" "red" 8 "small" 0 0
       <> Raises e.
Proof. repeat split. intros e. discriminate. Qed.

(** ** The mailbox *)

Lemma dict_get_set_same {V : Type} (k : string) (v : V) (d : dict V) :
  dict_get k (dict_set k v d) = Some v.
Proof.
  induction d as [| [k' v'] d IH]; simpl.
  - rewrite String.eqb_refl. reflexivity.
  - destruct (String.eqb_spec k k') as [-> | Hne]; simpl.
    + rewrite String.eqb_refl. reflexivity.
    + destruct (String.eqb_spec k k'); [congruence | exact IH].
Qed.

Lemma dict_get_set_other {V : Type} (k k0 : string) (v : V) (d : dict V) :
  k0 <> k -> dict_get k0 (dict_set k v d) = dict_get k0 d.
Proof.
  intros Hne. induction d as [| [k' v'] d IH]; simpl.
  - destruct (String.eqb_spec k0 k); [congruence | reflexivity].
  - destruct (String.eqb_spec k k') as [-> | Hkk]; simpl.
    + destruct (String.eqb_spec k0 k'); [congruence | reflexivity].
    + destruct (String.eqb_spec k0 k'); [reflexivity | exact IH].
Qed.

Lemma mark_delivered_is_delivered (t : Q) (d : dict json) :
  is_delivered (mark_delivered t d) = true.
Proof.
  unfold is_delivered, mark_delivered.
  rewrite dict_get_set_other by discriminate.
  rewrite dict_get_set_same. reflexivity.
Qed.


Lemma mark_delivered_text (t : Q) (d : dict json) :
  row_text (mark_delivered t d) = row_text d.
Proof.
  unfold row_text, mark_delivered.
  rewrite !dict_get_set_other by discriminate. reflexivity.
Qed.

Lemma delivered_row_delivered (t : Q) (r : json) :
  message_row r = true -> row_delivered (delivered_row t r) = true.
Proof.
  destruct r as [| | | | | d]; try discriminate. intros _. simpl.
  destruct (is_delivered d) eqn:E; simpl;
    [exact E | apply mark_delivered_is_delivered].
Qed.

Lemma delivered_row_message (t : Q) (r : json) :
  message_row r = true -> message_row (delivered_row t r) = true.
Proof.
  destruct r as [| | | | | d]; try discriminate. simpl.
  destruct (is_delivered d); simpl; [auto |].
  rewrite mark_delivered_text. auto.
Qed.


Lemma deliver_rows_done (t : Q) (rows : list json) :
  forallb message_row rows = true ->
  forallb row_delivered rows = true ->
  deliver_rows t rows = Returns (rows, [], false).
Proof.
  induction rows as [| r rows IH]; [reflexivity |].
  simpl. intros Hm Hd.
  apply andb_true_iff in Hm. destruct Hm as [Hr Hrows].
  apply andb_true_iff in Hd. destruct Hd as [Hdr Hdrows].
  destruct r as [| | | | | d]; try discriminate. simpl in *.
  rewrite Hdr, (IH Hrows Hdrows). reflexivity.
Qed.

Lemma parsed_rows_map (rows : list json) :
  parsed_rows (map Parsed rows) = rows.
Proof. induction rows as [| r rows IH]; simpl; congruence. Qed.

Lemma forallb_map_delivered (t : Q) (rows : list json) :
  forallb message_row rows = true ->
  forallb message_row (map (delivered_row t) rows) = true
  /\ forallb row_delivered (map (delivered_row t) rows) = true.
Proof.
  induction rows as [| r rows IH]; simpl; [auto |].
  intros H. apply andb_true_iff in H. destruct H as [Hr Hrows].
  destruct (IH Hrows) as [IH1 IH2].
  rewrite (delivered_row_message t r Hr), (delivered_row_delivered t r Hr).
  auto.
Qed.




(** [send_message] appends a message that [fetch_undelivered] accepts. *)
Example send_then_fetch :
  fst (fetch_undelivered
         (send_message (∅ : files) example_shared "sanga" "jinho" "  on my way "
                       "7f0c" 1700000000)
         example_shared "jinho" 1700000100)
  = Returns [JObj [("msg_id", JStr "7f0c"); ("sender", JStr "sanga");
                   ("receiver", JStr "jinho"); ("created_at", JNum 1700000000);
                   ("text", JStr "on my way"); ("delivered", JBool true);
                   ("delivered_at", JNum 1700000100)]%string].
Proof. vm_compute. reflexivity. Qed.

(** A line that holds JSON but no object makes the call raise, and the
    file is left as it was. *)
Example fetch_raises_on_non_object :
  let fs : files := {[ inbox_path example_shared "jinho" := [Parsed (JNum 42)] ]} in
  fetch_undelivered fs example_shared "jinho" 1700000100
  = (Raises AttributeError, fs).
Proof. vm_compute. reflexivity. Qed.


(** * Further properties *)

(** ** Strings *)

Lemma str_app_cons (c : ascii) (s t : string) :
  (String c s +:+ t)%string = String c (s +:+ t)%string.
Proof. reflexivity. Qed.

Lemma str_app_nil_l (t : string) : (EmptyString +:+ t)%string = t.
Proof. reflexivity. Qed.

Lemma str_app_nil_r (s : string) : (s +:+ "")%string = s.
Proof.
  induction s as [| c s IH]; [reflexivity |].
  rewrite str_app_cons, IH. reflexivity.
Qed.

Lemma str_app_assoc (s t u : string) :
  ((s +:+ t) +:+ u)%string = (s +:+ (t +:+ u))%string.
Proof.
  induction s as [| c s IH]; [reflexivity |].
  rewrite !str_app_cons, IH. reflexivity.
Qed.


Lemma string_rev_app (s t : string) :
  string_rev (s +:+ t) = (string_rev t +:+ string_rev s)%string.
Proof.
  induction s as [| c s IH].
  - rewrite str_app_nil_l. simpl. rewrite str_app_nil_r. reflexivity.
  - rewrite str_app_cons. simpl. rewrite IH, str_app_assoc. reflexivity.
Qed.

Lemma string_rev_involutive (s : string) : string_rev (string_rev s) = s.
Proof.
  induction s as [| c s IH]; simpl; [reflexivity |].
  rewrite string_rev_app, IH. reflexivity.
Qed.


Lemma str_app_length (s1 s2 : string) :
  String.length (s1 +:+ s2) = (String.length s1 + String.length s2)%nat.
Proof.
  induction s1 as [| c s1 IH]; [rewrite str_app_nil_l; reflexivity |].
  rewrite str_app_cons. simpl. rewrite IH. reflexivity.
Qed.

Lemma string_rev_length (s : string) :
  String.length (string_rev s) = String.length s.
Proof.
  induction s as [| c s IH]; [reflexivity |].
  simpl. rewrite str_app_length, IH. simpl. lia.
Qed.

Section Strip.

Variable p1 : ascii -> bool.
Variable p2 : ascii -> ascii -> bool.
Variable p3 : ascii -> ascii -> ascii -> bool.

Lemma lstrip_with_clean (s : string) :
  head_space p1 p2 p3 s = false -> lstrip_with p1 p2 p3 s = s.
Proof.
  destruct s as [| c1 [| c2 [| c3 s3]]]; simpl; [reflexivity | | |].
  - destruct (p1 c1); [discriminate | reflexivity].
  - destruct (p1 c1); [discriminate |].
    destruct (p2 c1 c2); [discriminate | reflexivity].
  - destruct (p1 c1); [discriminate |].
    destruct (p2 c1 c2); [discriminate |].
    destruct (p3 c1 c2 c3); [discriminate | reflexivity].
Qed.

(** A string that begins with white space is stripped like what follows
    its first character. *)
Lemma lstrip_with_step (s : string) :
  head_space p1 p2 p3 s = true ->
  exists a s' : string,
    s = (a +:+ s')%string /\ a <> EmptyString
    /\ lstrip_with p1 p2 p3 s = lstrip_with p1 p2 p3 s'.
Proof.
  destruct s as [| c1 s1]; [discriminate |]. intros H.
  destruct (p1 c1) eqn:E1.
  { exists (String c1 EmptyString), s1. simpl. rewrite E1.
    repeat split. discriminate. }
  destruct s1 as [| c2 s2]; [simpl in H; rewrite E1 in H; discriminate |].
  destruct (p2 c1 c2) eqn:E2.
  { exists (String c1 (String c2 EmptyString)), s2. simpl. rewrite E1, E2.
    repeat split. discriminate. }
  destruct s2 as [| c3 s3];
    [simpl in H; rewrite E1, E2 in H; discriminate |].
  destruct (p3 c1 c2 c3) eqn:E3.
  { exists (String c1 (String c2 (String c3 EmptyString))), s3. simpl.
    rewrite E1, E2, E3. repeat split. discriminate. }
  simpl in H. rewrite E1, E2, E3 in H. discriminate.
Qed.

(** What is left begins with no white space, and it is the end of the
    string. *)
Lemma lstrip_with_spec (s : string) :
  head_space p1 p2 p3 (lstrip_with p1 p2 p3 s) = false
  /\ exists a : string, s = (a +:+ lstrip_with p1 p2 p3 s)%string.
Proof.
  remember (String.length s) as n eqn:En.
  revert s En. induction n as [n IH] using lt_wf_ind. intros s En.
  destruct (head_space p1 p2 p3 s) eqn:H.
  - destruct (lstrip_with_step s H) as (a & s' & Es & Ha & El).
    assert (Hlen : (String.length s' < n)%nat).
    { subst n. rewrite Es, str_app_length.
      destruct a; [congruence | simpl; lia]. }
    destruct (IH _ Hlen s' eq_refl) as [Hc [a' Ha']].
    rewrite El. split; [exact Hc |].
    exists (a +:+ a')%string. rewrite str_app_assoc, <- Ha'. exact Es.
  - rewrite (lstrip_with_clean s H). split; [exact H |].
    exists EmptyString. reflexivity.
Qed.

Lemma lstrip_with_idempotent (s : string) :
  lstrip_with p1 p2 p3 (lstrip_with p1 p2 p3 s) = lstrip_with p1 p2 p3 s.
Proof. apply lstrip_with_clean. apply (lstrip_with_spec s). Qed.

(** A string that begins with white space still does when text is put
    behind it. *)
Lemma head_space_app (s t : string) :
  head_space p1 p2 p3 s = true -> head_space p1 p2 p3 (s +:+ t) = true.
Proof.
  destruct s as [| c1 [| c2 [| c3 s3]]]; [discriminate | | |];
    rewrite ?str_app_cons, ?str_app_nil_l; simpl.
  - rewrite orb_false_r. intros ->. reflexivity.
  - rewrite orb_false_r. intros H. apply orb_true_iff in H.
    destruct H as [-> | ->]; [reflexivity |].
    destruct t; rewrite ?orb_true_r; reflexivity.
  - auto.
Qed.

End Strip.

Lemma rstrip_prefix (s : string) :
  exists b : string, s = (rstrip s +:+ b)%string.
Proof.
  unfold rstrip.
  destruct (lstrip_with_spec is_space (fun c2 c1 => is_space2 c1 c2)
              (fun c3 c2 c1 => is_space3 c1 c2 c3) (string_rev s))
    as [_ [a Ha]].
  exists (string_rev a).
  rewrite <- string_rev_app, <- Ha, string_rev_involutive. reflexivity.
Qed.

Lemma rstrip_idempotent (s : string) : rstrip (rstrip s) = rstrip s.
Proof.
  unfold rstrip. rewrite string_rev_involutive, lstrip_with_idempotent.
  reflexivity.
Qed.

(** What [strip] returns has no white space left at either end, so
    stripping it again changes nothing. *)
Lemma strip_idempotent (s : string) : strip (strip s) = strip s.
Proof.
  unfold strip. set (y := lstrip s).
  assert (Hy : head_space is_space is_space2 is_space3 y = false)
    by (apply (lstrip_with_spec is_space is_space2 is_space3 s)).
  destruct (rstrip_prefix y) as [b Hb].
  assert (Hz : head_space is_space is_space2 is_space3 (rstrip y) = false).
  { destruct (head_space is_space is_space2 is_space3 (rstrip y)) eqn:E;
      [| reflexivity].
    rewrite Hb, (head_space_app _ _ _ _ b E) in Hy. discriminate. }
  unfold lstrip at 1. rewrite (lstrip_with_clean _ _ _ _ Hz).
  apply rstrip_idempotent.
Qed.

(** A non-breaking space and an ideographic space are stripped like a
    blank. *)
Example strip_unicode :
  strip (String "194" (String "160" (String " " "ok"))) = "ok"%string
  /\ strip (String "227" (String "128" (String "128" EmptyString)))
     = EmptyString
  /\ strip ("ok" +:+ String "226" (String "128" (String "168" EmptyString)))
     = "ok"%string.
Proof. vm_compute. repeat split. Qed.

(** ** The mailbox files *)

Lemma parsed_rows_app (ls ls' : list line) :
  parsed_rows (ls ++ ls') = parsed_rows ls ++ parsed_rows ls'.
Proof.
  induction ls as [| l ls IH]; [reflexivity |].
  destruct l as [| text | v | | [v |] |]; simpl; rewrite ?IH; reflexivity.
Qed.


Lemma last_split (ls : list line) (l : line) :
  List.last ls Blank = l -> l <> Blank -> ls = removelast ls ++ [l].
Proof.
  intros E Hl. destruct ls as [| l0 ls']; [simpl in E; congruence |].
  rewrite <- E. apply app_removelast_last. discriminate.
Qed.

(** The rows read after an append, by the end of the file before it. *)
Lemma append_line_rows (ls : list line) (obj : json) :
  parsed_rows (append_line ls obj)
  = match List.last ls Blank with
    | OpenText _ => parsed_rows (removelast ls)
    | _ => parsed_rows ls ++ [obj]
    end
  /\ match List.last ls Blank with
     | OpenText row =>
         parsed_rows ls = parsed_rows (removelast ls) ++ open_row row
     | _ => True
     end.
Proof.
  unfold append_line.
  destruct (List.last ls Blank) as [| text | v | | row |] eqn:E;
    rewrite ?parsed_rows_app; try (split; [reflexivity | exact I]).
  - split; [| exact I].
    rewrite (last_split ls OpenBlank E) at 2 by discriminate.
    rewrite parsed_rows_app. simpl. rewrite app_nil_r. reflexivity.
  - split; [simpl; apply app_nil_r |].
    rewrite (last_split ls (OpenText row) E) at 1 by discriminate.
    rewrite parsed_rows_app. destruct row; reflexivity.
Qed.



(** Whatever the end of the file was, the rows read after an append are
    rows read before it or the appended row. *)
Lemma append_rows_from (fs : files) (path : string) (obj : json)
    (f : json -> bool) :
  forallb f (read_jsonl fs path) = true -> f obj = true ->
  forallb f (read_jsonl (atomic_append_jsonl fs path obj) path) = true.
Proof.
  intros Hrows Hobj. unfold atomic_append_jsonl, read_jsonl in *.
  destruct (fs !! path) as [ls |] eqn:E; rewrite lookup_insert_eq;
    [| simpl; rewrite Hobj; reflexivity].
  destruct (append_line_rows ls obj) as [H1 H2]. rewrite H1.
  destruct (List.last ls Blank) as [| text | v | | row |];
    try (rewrite forallb_app, Hrows; simpl; rewrite Hobj; reflexivity).
  rewrite H2, forallb_app in Hrows. apply andb_true_iff in Hrows.
  apply Hrows.
Qed.


Lemma overwrite_read (fs : files) (path tmp : string) (rows : list json) :
  read_jsonl (overwrite_jsonl fs path tmp rows) path = rows.
Proof.
  unfold overwrite_jsonl, read_jsonl. rewrite lookup_insert_eq.
  apply parsed_rows_map.
Qed.

Lemma overwrite_other (fs : files) (path tmp other : string)
    (rows : list json) :
  other <> path -> other <> tmp ->
  overwrite_jsonl fs path tmp rows !! other = fs !! other.
Proof.
  intros H1 H2. unfold overwrite_jsonl.
  rewrite lookup_insert_ne by congruence.
  rewrite lookup_delete_ne by congruence.
  rewrite lookup_insert_ne by congruence. reflexivity.
Qed.



(** Rewriting a file and reading it back gives the rows written; the
    temporary file is gone afterwards and no other file is touched.
    Rewriting a file with the rows read from it keeps one line per parsed
    row: blank lines and lines that are not JSON are dropped. *)
Theorem overwrite_then_read (fs : files) (path tmp : string)
    (rows : list json) :
  read_jsonl (overwrite_jsonl fs path tmp rows) path = rows
  /\ (tmp <> path -> overwrite_jsonl fs path tmp rows !! tmp = None)
  /\ (forall other : string,
         other <> path -> other <> tmp ->
         overwrite_jsonl fs path tmp rows !! other = fs !! other)
  /\ overwrite_jsonl fs path tmp (read_jsonl fs path) !! path
     = Some (map Parsed (read_jsonl fs path)).
Proof.
  split; [apply overwrite_read |]. split; [| split].
  - intros Hne. unfold overwrite_jsonl.
    rewrite lookup_insert_ne by congruence. apply lookup_delete_eq.
  - intros other. apply overwrite_other.
  - unfold overwrite_jsonl. apply lookup_insert_eq.
Qed.

Lemma overwrite_then_read_witness :
  overwrite_jsonl example_inbox (inbox_path example_shared "jinho")
                  (tmp_path example_shared "jinho") []
    !! tmp_path example_shared "jinho"
  = None.
Proof.
  destruct (overwrite_then_read example_inbox (inbox_path example_shared "jinho")
              (tmp_path example_shared "jinho") []) as (_ & H & _).
  apply H. discriminate.
Defined.

(** ** Delivery *)

Lemma deliver_rows_readable (t : Q) (rows : list json) :
  forallb row_readable rows = true ->
  deliver_rows t rows
  = Returns (map (delivered_row t) rows,
             map (delivered_row t) (List.filter row_wanted rows),
             existsb (fun r => negb (row_delivered r)) rows).
Proof.
  induction rows as [| r rows IH]; [reflexivity |].
  simpl. intros H. apply andb_true_iff in H. destruct H as [Hr Hrows].
  specialize (IH Hrows).
  destruct r as [| | | | | d]; try discriminate. simpl in *.
  destruct (is_delivered d) eqn:Ed; simpl in *.
  - rewrite IH, ?Ed. reflexivity.
  - rewrite mark_delivered_text, IH.
    destruct (row_text d) as [text |]; [| discriminate].
    destruct (String.eqb text ""); simpl; rewrite ?Ed; reflexivity.
Qed.

Lemma deliver_rows_unreadable (t : Q) (rows : list json) :
  forallb row_readable rows = false ->
  deliver_rows t rows = Raises AttributeError.
Proof.
  induction rows as [| r rows IH]; [discriminate |].
  simpl. intros H. apply andb_false_iff in H.
  destruct r as [| | | | | d]; try reflexivity. simpl in *.
  destruct (is_delivered d) eqn:Ed; simpl in *.
  - destruct H as [H | H]; [discriminate |]. rewrite (IH H). reflexivity.
  - rewrite mark_delivered_text.
    destruct (row_text d) as [text |]; [| reflexivity].
    destruct H as [H | H]; [discriminate |]. rewrite (IH H). reflexivity.
Qed.

Lemma fetch_undelivered_readable (fs : files) (shared_dir : Dir)
    (user_id : string) (t : Q) :
  let path := inbox_path shared_dir user_id in
  let rows := read_jsonl fs path in
  forallb row_readable rows = true ->
  fetch_undelivered fs shared_dir user_id t
  = (Returns (map (delivered_row t) (List.filter row_wanted rows)),
     if existsb (fun r => negb (row_delivered r)) rows
     then overwrite_jsonl fs path (tmp_path shared_dir user_id)
                          (map (delivered_row t) rows)
     else fs).
Proof.
  intros path rows H. unfold fetch_undelivered. fold path. fold rows.
  destruct rows as [| r0 rows0] eqn:E; [reflexivity |].
  rewrite (deliver_rows_readable t _ H). reflexivity.
Qed.

Lemma message_row_readable (rows : list json) :
  forallb message_row rows = true -> forallb row_readable rows = true.
Proof.
  induction rows as [| r rows IH]; simpl; [auto |].
  intros H. apply andb_true_iff in H. destruct H as [Hr Hrows].
  rewrite (IH Hrows), andb_true_r.
  destruct r as [| | | | | d]; try discriminate. simpl in *.
  destruct (row_text d); [apply orb_true_r | discriminate].
Qed.

(** [fetch_undelivered] returns exactly when every parsed row of the inbox
    is a JSON object that is already delivered or whose text can be read.
    Otherwise it raises [AttributeError], and then no file is changed:
    nothing is marked delivered. *)
Theorem fetch_undelivered_raises_iff (fs : files)
    (shared_dir : Dir) (user_id : string) (t : Q) :
  let rows := read_jsonl fs (inbox_path shared_dir user_id) in
  (forallb row_readable rows = true ->
   fst (fetch_undelivered fs shared_dir user_id t)
   = Returns (map (delivered_row t) (List.filter row_wanted rows)))
  /\ (forallb row_readable rows = false ->
      fetch_undelivered fs shared_dir user_id t = (Raises AttributeError, fs)).
Proof.
  intros rows. split; intros H.
  - rewrite (fetch_undelivered_readable fs shared_dir user_id t H).
    reflexivity.
  - unfold fetch_undelivered. fold rows.
    destruct rows as [| r0 rows0] eqn:E; [discriminate |].
    rewrite (deliver_rows_unreadable t _ H). reflexivity.
Qed.

Lemma fetch_undelivered_raises_iff_witness :
  let fs : files :=
    {[ inbox_path example_shared "jinho" :=
         [Parsed (example_message "hi" false);
          Parsed (JObj [("text", JNum 7)]%string)] ]} in
  fetch_undelivered fs example_shared "jinho" 1700000100
  = (Raises AttributeError, fs).
Proof.
  cbv zeta.
  apply (fetch_undelivered_raises_iff _ example_shared "jinho" 1700000100).
  reflexivity.
Defined.

(** The call of a user only writes that user's inbox file and its
    temporary file. *)
Lemma fetch_undelivered_other_files (fs : files) (shared_dir : Dir)
    (user_id : string) (t : Q) (other : string) :
  other <> inbox_path shared_dir user_id ->
  other <> tmp_path shared_dir user_id ->
  snd (fetch_undelivered fs shared_dir user_id t) !! other = fs !! other.
Proof.
  intros H1 H2. unfold fetch_undelivered.
  destruct (read_jsonl fs (inbox_path shared_dir user_id)) as [| r0 rows0];
    [reflexivity |].
  destruct (deliver_rows t (r0 :: rows0)) as [[[rows' out] changed] | e];
    [| reflexivity].
  destruct changed; [| reflexivity]. simpl.
  apply overwrite_other; assumption.
Qed.





(** ** Sending and fetching *)

Lemma send_message_blank (fs : files) (shared_dir : Dir)
    (sender receiver text msg_id : string) (now : Q) :
  strip text = EmptyString ->
  send_message fs shared_dir sender receiver text msg_id now = fs.
Proof. intros E. unfold send_message. rewrite E. reflexivity. Qed.

Lemma send_message_appends (fs : files) (shared_dir : Dir)
    (sender receiver text msg_id : string) (now : Q) :
  strip text <> EmptyString ->
  send_message fs shared_dir sender receiver text msg_id now
  = atomic_append_jsonl fs (inbox_path shared_dir receiver)
      (new_message sender receiver text msg_id now).
Proof.
  intros Hne. unfold send_message.
  destruct (String.eqb_spec (strip text) ""); [congruence | reflexivity].
Qed.

Lemma new_message_facts (sender receiver text msg_id : string) (now : Q) :
  strip text <> EmptyString ->
  message_row (new_message sender receiver text msg_id now) = true
  /\ row_wanted (new_message sender receiver text msg_id now) = true
  /\ row_delivered (new_message sender receiver text msg_id now) = false.
Proof.
  intros Hne.
  assert (Ht : row_text [("msg_id", JStr msg_id); ("sender", JStr sender);
                         ("receiver", JStr receiver); ("created_at", JNum now);
                         ("text", JStr (strip text));
                         ("delivered", JBool false)]%string
               = Some (strip text)).
  { unfold row_text. simpl.
    destruct (String.eqb_spec (strip text) ""); [congruence |]. simpl.
    rewrite strip_idempotent. reflexivity. }
  unfold new_message, message_row, row_wanted, row_delivered.
  rewrite Ht. simpl.
  destruct (String.eqb_spec (strip text) ""); [congruence |].
  repeat split.
Qed.




(** The two operations keep an inbox made of messages: if every parsed row
    of an inbox is a message, it still is after any [send_message] and
    after any [fetch_undelivered] of its owner. *)
Theorem inbox_stays_ok (fs : files) (shared_dir : Dir) (user_id : string) :
  inbox_ok fs (inbox_path shared_dir user_id) ->
  (forall (sender text msg_id : string) (now : Q),
      inbox_ok (send_message fs shared_dir sender user_id text msg_id now)
               (inbox_path shared_dir user_id))
  /\ (forall t : Q,
        inbox_ok (snd (fetch_undelivered fs shared_dir user_id t))
                 (inbox_path shared_dir user_id)).
Proof.
  intros Hok. split.
  - intros sender text msg_id now. unfold inbox_ok in *.
    destruct (String.eqb_spec (strip text) "") as [E | Hne].
    + rewrite (send_message_blank _ _ _ _ _ _ _ E). exact Hok.
    + rewrite (send_message_appends _ _ _ _ _ _ _ Hne).
      apply append_rows_from; [exact Hok |].
      apply (new_message_facts sender user_id text msg_id now Hne).
  - intros t. unfold inbox_ok in *.
    rewrite (fetch_undelivered_readable fs shared_dir user_id t
               (message_row_readable _ Hok)).
    simpl snd.
    destruct (existsb _ _) eqn:Ech; [| exact Hok].
    rewrite overwrite_read. apply forallb_map_delivered. exact Hok.
Qed.

Lemma inbox_stays_ok_witness :
  inbox_ok (snd (fetch_undelivered example_inbox example_shared "jinho" 1700000100))
           (inbox_path example_shared "jinho").
Proof.
  assert (Hok : inbox_ok example_inbox (inbox_path example_shared "jinho"))
    by reflexivity.
  destruct (inbox_stays_ok example_inbox example_shared "jinho" Hok) as [_ H].
  apply H.
Defined.

(** ** The catalog of a pet *)

Lemma dict_set_fresh {V : Type} (k : string) (v : V) (d : dict V) :
  ~ In k (dict_keys d) -> dict_set k v d = d ++ [(k, v)].
Proof.
  induction d as [| [k' v'] d IH]; simpl; [reflexivity |].
  intros Hnot. destruct (String.eqb_spec k k') as [-> | Hne]; [tauto |].
  rewrite IH by tauto. reflexivity.
Qed.

Lemma build_STATES_INFO_app (fps : Z) (defaults : dict StateDefaults)
    (color_states : dict string) (acc : dict StateInfo) :
  List.NoDup (dict_keys acc ++ dict_keys color_states) ->
  fold_left (fun acc kv =>
               dict_set (fst kv) (state_info fps defaults (fst kv) (snd kv)) acc)
            color_states acc
  = acc ++ map (fun kv => (fst kv, state_info fps defaults (fst kv) (snd kv)))
               color_states.
Proof.
  revert acc. induction color_states as [| [k g] cs IH]; intros acc Hnd; simpl.
  - rewrite app_nil_r. reflexivity.
  - assert (Hk : ~ In k (dict_keys acc)).
    { apply NoDup_remove_2 in Hnd. intros Hin. apply Hnd.
      apply in_or_app. left. exact Hin. }
    rewrite (dict_set_fresh _ _ _ Hk), IH.
    + rewrite <- app_assoc. reflexivity.
    + unfold dict_keys in *. rewrite map_app. simpl.
      rewrite <- app_assoc. exact Hnd.
Qed.

Lemma dict_get_map {V W : Type} (f : string -> V -> W) (k : string)
    (d : dict V) :
  dict_get k (map (fun kv => (fst kv, f (fst kv) (snd kv))) d)
  = option_map (f k) (dict_get k d).
Proof.
  induction d as [| [k' v'] d IH]; simpl; [reflexivity |].
  destruct (String.eqb_spec k k') as [-> | Hne]; [reflexivity | exact IH].
Qed.

(** The catalog that the constructor builds for a colour has the state
    names of that colour, in the same order; each entry holds the gif of
    the state and the values of the state's [defaults] entry, and for a
    state without such an entry the fallbacks: hold = fps, movement speed
    0, animation speed 1. *)
Theorem build_STATES_INFO_lookup (fps : Z) (defaults : dict StateDefaults)
    (color_states : dict string) :
  List.NoDup (dict_keys color_states) ->
  let info := build_STATES_INFO fps defaults color_states in
  dict_keys info = dict_keys color_states
  /\ (forall state_name : string,
         dict_get state_name info
         = option_map (state_info fps defaults state_name)
                      (dict_get state_name color_states))
  /\ (forall state_name gif_path : string,
         dict_get state_name color_states = Some gif_path ->
         dict_get state_name defaults = None ->
         dict_get state_name info
         = Some {| gif := gif_path; hold := fps; movement_speed := 0;
                   speed_animation := 1 |}).
Proof.
  intros Hnd info.
  assert (E : info
              = map (fun kv => (fst kv, state_info fps defaults (fst kv) (snd kv)))
                    color_states).
  { subst info. unfold build_STATES_INFO.
    rewrite build_STATES_INFO_app; [reflexivity | exact Hnd]. }
  split; [| split].
  - rewrite E. unfold dict_keys. rewrite map_map. reflexivity.
  - intros state_name. rewrite E. apply dict_get_map.
  - intros state_name gif_path Hg Hd. rewrite E, dict_get_map, Hg. simpl.
    unfold state_info. rewrite Hd. reflexivity.
Qed.

Lemma build_STATES_INFO_lookup_witness :
  dict_get "lie" (STATES_INFO example_snake) = None
  /\ dict_get "idle" (STATES_INFO example_snake)
     = Some {| gif := "media/snake/green_idle_8fps.gif"; hold := 8;
               movement_speed := 0; speed_animation := 1 # 2 |}.
Proof.
  assert (Hnd : List.NoDup (dict_keys
                  [("idle", "media/snake/green_idle_8fps.gif")]%string)).
  { constructor; [intros [] | constructor]. }
  destruct (build_STATES_INFO_lookup 8 example_defaults _ Hnd) as (_ & H & _).
  split; apply H.
Defined.

(** ** What the state selection can return *)

Lemma choice_at {A : Type} (seq : list A) (n : nat) (a : A) :
  nth_error seq n = Some a -> choice n seq = Some a.
Proof.
  intros H. unfold choice. destruct seq as [| a0 seq']; [destruct n; discriminate |].
  assert (Hlt : (n < length (a0 :: seq'))%nat)
    by (apply nth_error_Some; congruence).
  rewrite Nat.mod_small by exact Hlt. exact H.
Qed.

(** For a catalog with distinct keys: every state that is not excluded can
    be returned, namely for a suitable draw of the random source and then
    with each of the two directions; and the direction of a returned
    state is -1 or 1. *)
Theorem random_state_reachable (ext : Ext) (info : dict StateInfo)
    (exception : Exception) :
  List.NoDup (dict_keys info) ->
  (forall k : string,
      In k (dict_keys info) -> ~ In k (exception_names exception) ->
      exists r_name : nat,
        (exists s : State,
            random_state ext info exception r_name 0 = Some s
            /\ name s = k /\ direction s = -1)
        /\ (exists s : State,
               random_state ext info exception r_name 1 = Some s
               /\ name s = k /\ direction s = 1))
  /\ (forall (r_name r_dir : nat) (s : State),
         random_state ext info exception r_name r_dir = Some s ->
         direction s = -1 \/ direction s = 1).
Proof.
  intros Hnd. split.
  - intros k Hk Hex.
    destruct (remove_excluded_spec (exception_names exception)
                (dict_keys info) Hnd) as [_ Hrem].
    assert (Hin : In k (remove_excluded (dict_keys info)
                          (exception_names exception)))
      by (apply Hrem; tauto).
    destruct (In_nth_error _ _ Hin) as [n Hn].
    destruct (dict_get_In k info Hk) as [i Hi].
    exists n. unfold random_state.
    destruct (remove_excluded (dict_keys info) (exception_names exception))
      as [| k0 l] eqn:E; [destruct Hin |].
    rewrite (choice_at _ _ _ Hn), Hi.
    split; eexists; (split; [reflexivity | split; reflexivity]).
  - intros r_name r_dir s. unfold random_state.
    destruct (choice r_name _) as [nm |]; [| discriminate].
    destruct (dict_get nm info) as [i |]; [| discriminate].
    unfold choice at 1.
    assert (Hlt : (r_dir mod 2 < 2)%nat) by (apply Nat.mod_upper_bound; lia).
    simpl length.
    destruct (r_dir mod 2)%nat as [| [| n]] eqn:Em; simpl.
    + intros [= <-]. simpl. auto.
    + intros [= <-]. simpl. auto.
    + lia.
Qed.

Lemma random_state_reachable_witness :
  exists r_name : nat,
    option_map name
      (random_state example_ext (STATES_INFO example_pet)
                    (ExcList TRANSIENT_STATES) r_name 1)
    = Some "lie"%string.
Proof.
  destruct (random_state_reachable example_ext (STATES_INFO example_pet)
              (ExcList TRANSIENT_STATES) (build_STATES_INFO_NoDup _ _ _))
    as [H _].
  destruct (H "lie"%string) as (r & _ & s & Hs & Hn & _).
  - right. left. reflexivity.
  - simpl. intuition discriminate.
  - exists r. rewrite Hs. simpl. rewrite Hn. reflexivity.
Defined.

(** ** Loading the frames of a state *)

Lemma bucket_height_known (size : string) (h h' : Z) :
  bucket_height size h <> None -> bucket_height size h' <> None.
Proof.
  unfold bucket_height.
  repeat match goal with
         | |- context [if ?b then _ else _] => destruct b
         end; congruence.
Qed.

Lemma resize_frames_ok (ext : Ext) (size : string) (src acc : list (Z * Z))
    (last : option Z) :
  bucket_height size 0 <> None ->
  all_tall src = true ->
  all_resizable ext size src = true ->
  exists out : list (Z * Z),
    resize_frames ext size src acc last
    = inr (acc ++ out,
           match src with
           | [] => last
           | _ => bucket_height size (snd (List.last src (0, 0)))
           end)
    /\ map Some out = map (resized_for size) src.
Proof.
  intros Hk. revert acc last.
  induction src as [| [w h] src IH]; intros acc last Htall Hres.
  - exists []. simpl. rewrite app_nil_r. auto.
  - simpl in Htall. apply andb_true_iff in Htall. destruct Htall as [Hh Hrest].
    apply negb_true_iff in Hh. simpl in Hh.
    cbn [all_resizable forallb] in Hres. apply andb_true_iff in Hres.
    destruct Hres as [Hr Hres].
    destruct (bucket_height size h) as [nh |] eqn:Eb;
      [| exfalso; eapply (bucket_height_known size 0 h); eauto].
    unfold resized_for, resized in Hr. cbn [fst snd] in Hr. rewrite Eb in Hr.
    apply negb_true_iff in Hr.
    destruct (IH (acc ++ [(Z.quot (w * nh) h, nh)]) (Some nh) Hrest Hres)
      as (out & Eo & Em).
    exists ((Z.quot (w * nh) h, nh) :: out). split.
    + cbn [resize_frames]. rewrite Eb, Hh, Hr, Eo, <- app_assoc.
      destruct src as [| f src']; [simpl; rewrite Eb; reflexivity |].
      reflexivity.
    + cbn [map]. unfold resized_for at 1. cbn [snd fst]. rewrite Eb, Em.
      reflexivity.
Qed.

Lemma resize_frames_refused (ext : Ext) (size : string)
    (src acc : list (Z * Z)) (last : option Z) :
  bucket_height size 0 <> None ->
  all_tall src = true ->
  all_resizable ext size src = false ->
  exists fr : list (Z * Z), resize_frames ext size src acc last = inl fr.
Proof.
  intros Hk. revert acc last.
  induction src as [| [w h] src IH]; intros acc last Htall Hres;
    [discriminate |].
  simpl in Htall. apply andb_true_iff in Htall. destruct Htall as [Hh Hrest].
  apply negb_true_iff in Hh. simpl in Hh.
  cbn [all_resizable forallb] in Hres.
  destruct (bucket_height size h) as [nh |] eqn:Eb;
    [| exfalso; eapply (bucket_height_known size 0 h); eauto].
  unfold resized_for, resized in Hres. cbn [fst snd] in Hres.
  rewrite Eb in Hres. cbn [resize_frames]. rewrite Eb, Hh.
  destruct (resize_raises ext (w, h) (Z.quot (w * nh) h, nh)) eqn:Er.
  - eexists. reflexivity.
  - simpl in Hres. apply (IH _ _ Hrest Hres).
Qed.

(** Take a pet whose gif has at least one frame, none of height 0, and
    whose size setting is one of the six known ones.  When [resize]
    accepts every target size, [frame_animation] resizes every frame to
    the height of the setting (its own height for "original") and to the
    width trunc(width * new_height / height); the pet takes the size of
    the first resized frame, [height_lie] the new height of the last
    frame, the frame cursor and the counter of the state go back to 0,
    and the frame interval becomes 1 / (fps * speed_animation) unless the
    speed is 0 (interval kept) or fps is 0 (the division raises).  When
    [resize] refuses a target size, as it does for a width below 1, only
    the frame list is replaced: size, [height_lie], frame count, frame
    cursor, frame interval and state stay as they were.  The position is
    not changed in either case. *)
Theorem frame_animation_loads (ext : Ext) (p : Pet) (s : State)
    (f0 : Z * Z) (rest : list (Z * Z)) :
  state p = Some s ->
  load_gif_frames ext (st_gif s) = f0 :: rest ->
  bucket_height (size p) 0 <> None ->
  all_tall (f0 :: rest) = true ->
  let q := frame_animation ext p in
  (all_resizable ext (size p) (f0 :: rest) = true ->
   exists nh0 nh_last : Z,
     bucket_height (size p) (snd f0) = Some nh0
     /\ bucket_height (size p) (snd (List.last (f0 :: rest) (0, 0)))
        = Some nh_last
     /\ width q = Z.quot (fst f0 * nh0) (snd f0)
     /\ height q = nh0
     /\ height_lie q = nh_last
     /\ map Some (frames q) = map (resized_for (size p)) (f0 :: rest)
     /\ frame_count q = Z.of_nat (length (f0 :: rest))
     /\ current_frame q = 0
     /\ state q = Some (set_counter 0 s)
     /\ x q = x p /\ y q = y p
     /\ (Qeq_bool (st_speed_animation s) 0 = true ->
         frame_interval q = frame_interval p)
     /\ (Qeq_bool (st_speed_animation s) 0 = false -> fps p <> 0 ->
         frame_interval q
         = Some (1 / (inject_Z (fps p) * st_speed_animation s))%Q)
     /\ (Qeq_bool (st_speed_animation s) 0 = false -> fps p = 0 ->
         frame_interval q = frame_interval p))
  /\ (all_resizable ext (size p) (f0 :: rest) = false ->
      width q = width p /\ height q = height p
      /\ height_lie q = height_lie p
      /\ frame_count q = frame_count p /\ current_frame q = current_frame p
      /\ frame_interval q = frame_interval p
      /\ state q = state p /\ x q = x p /\ y q = y p).
Proof.
  intros Es El Hk Htall q. split.
  - intros Hres.
    destruct (resize_frames_ok ext (size p) (f0 :: rest) [] None Hk Htall Hres)
      as (out & Er & Em).
    destruct out as [| [w h] out']; [discriminate |].
    destruct (bucket_height (size p) (snd f0)) as [nh0 |] eqn:E0;
      [| exfalso; eapply (bucket_height_known (size p) 0 (snd f0)); eauto].
    destruct (bucket_height (size p) (snd (List.last (f0 :: rest) (0, 0))))
      as [nhl |] eqn:El';
      [| exfalso; eapply (bucket_height_known (size p) 0); eauto].
    assert (Ewh : (w, h) = resized nh0 f0).
    { cbn [map] in Em. unfold resized_for at 1 in Em. rewrite E0 in Em.
      congruence. }
    exists nh0, nhl. split; [reflexivity |]. split; [reflexivity |].
    assert (Elen : length ((w, h) :: out') = length (f0 :: rest)).
    { apply (f_equal (@length _)) in Em. rewrite !length_map in Em.
      exact Em. }
    subst q. unfold frame_animation.
    change (state (set_frames [] p)) with (state p).
    change (size (set_frames [] p)) with (size p).
    rewrite Es, El. rewrite Er. cbn [app].
    inversion Ewh; subst w h. unfold resized in *. cbn [fst snd] in *.
    rewrite Elen. simpl.
    destruct (Qeq_bool (st_speed_animation s) 0) eqn:Esp;
      [| destruct (fps p =? 0) eqn:Ef].
    + simpl. repeat split; try reflexivity; try exact Em;
        intros; try discriminate; try congruence.
    + apply Z.eqb_eq in Ef. simpl.
      repeat split; try reflexivity; try exact Em;
        intros; try discriminate; try congruence.
    + apply Z.eqb_neq in Ef. simpl.
      repeat split; try reflexivity; try exact Em;
        intros; try discriminate; try congruence.
  - intros Hres.
    destruct (resize_frames_refused ext (size p) (f0 :: rest) [] None Hk
                Htall Hres) as (fr & Er).
    subst q. unfold frame_animation.
    change (state (set_frames [] p)) with (state p).
    change (size (set_frames [] p)) with (size p).
    rewrite Es, El, Er. simpl. rewrite Es. repeat split.
Qed.

Lemma frame_animation_loads_witness :
  (let q := frame_animation example_ext
              (set_state (Some (lie_state example_ext example_defaults
                                  "media/dog/akita_lie_8fps.gif" example_pet))
                         example_pet) in
   width q = 53 /\ height q = 40 /\ frame_count q = 2 /\ height_lie q = 40)
  /\ (let q := frame_animation thin_ext tiny_pet in
      width q = 60 /\ height q = 40 /\ frame_count q = 3).
Proof.
  cbv zeta. split.
  - set (s := lie_state example_ext _ _ example_pet).
    assert (Hk : bucket_height (size (set_state (Some s) example_pet)) 0
                 <> None) by discriminate.
    destruct (frame_animation_loads example_ext
                (set_state (Some s) example_pet)
                s (80, 60) [(80, 60)] eq_refl eq_refl Hk eq_refl)
      as [H _].
    destruct (H eq_refl)
      as (nh0 & nhl & E0 & El & Hw & Hh & Hl & _ & Hc & _).
    injection E0 as <-. injection El as <-.
    rewrite Hw, Hh, Hl, Hc. repeat split.
  - assert (Hk : bucket_height (size tiny_pet) 0 <> None) by discriminate.
    destruct (frame_animation_loads thin_ext tiny_pet example_idle
                (1, 100) [] eq_refl eq_refl Hk eq_refl)
      as [_ H].
    destruct (H eq_refl) as (Hw & Hh & _ & Hc & _).
    rewrite Hw, Hh, Hc. repeat split.
Defined.

(** When the pet has no state, the gif yields no frame, or the size
    setting is none of the six known ones, [frame_animation] only empties
    the frame list: size, [height_lie], frame cursor, frame count, frame
    interval, state (with its counter) and position stay as they were. *)
Theorem frame_animation_without_frames (ext : Ext) (p : Pet) :
  state p = None
  \/ (exists s : State,
         state p = Some s
         /\ (load_gif_frames ext (st_gif s) = []
             \/ bucket_height (size p) 0 = None)) ->
  let q := frame_animation ext p in
  frames q = []
  /\ width q = width p /\ height q = height p
  /\ height_lie q = height_lie p
  /\ frame_count q = frame_count p /\ current_frame q = current_frame p
  /\ frame_interval q = frame_interval p
  /\ state q = state p /\ x q = x p /\ y q = y p.
Proof.
  intros H q. subst q. unfold frame_animation.
  change (state (set_frames [] p)) with (state p).
  change (size (set_frames [] p)) with (size p).
  destruct H as [E | (s & E & [El | Hb])]; rewrite E.
  - simpl. rewrite ?E. repeat split.
  - rewrite El. simpl. rewrite ?E. repeat split.
  - destruct (load_gif_frames ext (st_gif s)) as [| [w h] src];
      [simpl; rewrite ?E; repeat split |].
    cbn [resize_frames].
    destruct (bucket_height (size p) h) eqn:Eb;
      [| simpl; rewrite ?E; repeat split].
    exfalso. eapply (bucket_height_known (size p) h 0); congruence.
Qed.

Lemma frame_animation_without_frames_witness :
  let p := odd_size_pet in
  height (frame_animation example_ext p) = 40
  /\ frames (frame_animation example_ext p) = [].
Proof.
  cbv zeta.
  assert (H : state odd_size_pet = None
              \/ (exists s : State,
                     state odd_size_pet = Some s
                     /\ (load_gif_frames example_ext (st_gif s) = []
                         \/ bucket_height (size odd_size_pet) 0 = None))).
  { right. eexists. split; [reflexivity |]. right. reflexivity. }
  destruct (frame_animation_without_frames example_ext odd_size_pet H)
    as (Hf & _ & Hh & _).
  split; [rewrite Hh; reflexivity | exact Hf].
Defined.

(** ** A constructed pet *)

Lemma frames_loaded_state (ext : Ext) (size : string) (st : option State) :
  frames_loaded ext size st = true ->
  exists (s : State) (f : Z * Z) (fr : list (Z * Z)) (nh : Z),
    st = Some s
    /\ resize_frames ext size (load_gif_frames ext (st_gif s)) [] None
       = inr (f :: fr, Some nh).
Proof.
  unfold frames_loaded. destruct st as [s |]; [| discriminate].
  destruct (resize_frames ext size (load_gif_frames ext (st_gif s)) [] None)
    as [fr | [[| f fr] [nh |]]] eqn:E; simpl; try discriminate.
  intros _. exists s, f, fr, nh. auto.
Qed.

(** When the species and the colour are in the catalog, the constructor
    builds the pet exactly when the frames of the state it drew can be
    loaded.  The pet then stands in the lower right corner: x is
    [screen_width - width], y is [screen_height - height], lowered by the
    taskbar height when the taskbar is at the bottom and does not hide;
    it is not dragged, has no throw velocity, no immunity, no wall scene
    and no main window, its [height_lie] is 20, and its state is the one
    drawn, with the counter at 0.  It is on the screen when it is not
    wider than the screen and the taskbar leaves room for it.  When the
    frames cannot be loaded the constructor returns a half-built object
    that holds the catalog and the state but no position.  For a gif with
    at least one frame, none of height 0, and a known size setting, the
    frames load exactly when [resize] accepts every target size. *)
Theorem init_constructs (ext : Ext) (data : dict SpeciesData) (scr : Screen)
    (species color : string) (fps : Z) (size : string) (r_name r_dir : nat)
    (sd : SpeciesData) (color_states : dict string) :
  dict_get species data = Some sd ->
  dict_get color (sd_states sd) = Some color_states ->
  let info := build_STATES_INFO fps (defaults_or_empty sd) color_states in
  let st := random_state ext info (ExcList TRANSIENT_STATES) r_name r_dir in
  let made := Pet__init__ ext data scr species color fps size r_name r_dir in
  (frames_loaded ext size st = true ->
   exists (p : Pet) (s : State),
     made = Returns (Constructed p)
     /\ st = Some s /\ state p = Some (set_counter 0 s)
     /\ STATES_INFO p = info
     /\ screen_width p = metrics_width scr
     /\ screen_height p = metrics_height scr
     /\ x p = inject_Z (screen_width p - width p)
     /\ y p = inject_Z (y_def p)
     /\ y_def p
        = (if taskbar_autohide scr || negb (taskbar_edge scr =? 3)
           then screen_height p - height p
           else screen_height p - height p - taskbar_height scr)
     /\ dragging p = false /\ throw_velocity p = (0, 0)%Q
     /\ immunity p = false /\ wall_scene_step p = None
     /\ height_lie p = 20 /\ lie_duration p = 24 /\ main_window p = false
     /\ (0 <= screen_width p - width p -> 0 <= y_def p ->
         0 <= taskbar_height scr -> on_screen p))
  /\ (frames_loaded ext size st = false ->
      made = Returns (HalfConstructed
                        {| h_species := species; h_color := color;
                           h_fps := fps; h_size := size;
                           h_screen_width := metrics_width scr;
                           h_screen_height := metrics_height scr;
                           h_STATES_INFO := Some info;
                           h_state := Some st |}))
  /\ (forall (s : State) (f0 : Z * Z) (rest : list (Z * Z)),
         st = Some s ->
         load_gif_frames ext (st_gif s) = f0 :: rest ->
         bucket_height size 0 <> None ->
         all_tall (f0 :: rest) = true ->
         frames_loaded ext size st = all_resizable ext size (f0 :: rest)).
Proof.
  intros Hs Hc info st made. subst made.
  unfold Pet__init__, init_body. rewrite Hs, Hc. fold info. fold st.
  split; [| split]; [intros Hl; rewrite Hl | intros Hl; rewrite Hl; reflexivity
                    | ].
  2:{ intros s f0 rest Est El Hk Htall. unfold frames_loaded.
      rewrite Est, El.
      destruct (all_resizable ext size (f0 :: rest)) eqn:Hres.
      - destruct (resize_frames_ok ext size (f0 :: rest) [] None Hk Htall Hres)
          as (out & Er & Em).
        rewrite Er. destruct out as [| f out']; [discriminate |].
        cbn [app].
        destruct (bucket_height size (snd (List.last (f0 :: rest) (0, 0))))
          eqn:Eb; [reflexivity |].
        exfalso. eapply (bucket_height_known size 0); eauto.
      - destruct (resize_frames_refused ext size (f0 :: rest) [] None Hk
                    Htall Hres) as (fr & Er).
        rewrite Er. reflexivity. }
  destruct (frames_loaded_state ext size st Hl) as (s & f & fr & nh & Est & Er).
  eexists. exists s. split; [reflexivity |]. split; [exact Est |].
  assert (Hstate :
    state (frame_animation ext
             {| species := species; color := color; fps := fps; size := size;
                screen_width := metrics_width scr;
                screen_height := metrics_height scr;
                dragging := false; drag_offset := (0%Q, 0%Q);
                drag_last_pos := None; throw_velocity := (0%Q, 0%Q);
                _right_click_consumed := false;
                STATES_INFO := info; state := st; frames := [];
                width := 0; height := 0; frame_count := 0;
                current_frame := 0; frame_interval := None;
                y_def := 0; x := 0%Q; y := 0%Q; immunity := false;
                lie_duration := 24; wall_scene_step := None;
                height_lie := 20; main_window := false |})
    = Some (set_counter 0 s)).
  { unfold frame_animation. simpl. rewrite Est. rewrite Er. destruct f as [w h].
    destruct (Qeq_bool (st_speed_animation s) 0);
      [| destruct (fps =? 0)]; reflexivity. }
  cbn [state STATES_INFO screen_width screen_height x y y_def dragging
       throw_velocity immunity wall_scene_step height_lie lie_duration
       main_window width height].
  split; [exact Hstate |].
  destruct (frame_animation_frame ext
             {| species := species; color := color; fps := fps; size := size;
                screen_width := metrics_width scr;
                screen_height := metrics_height scr;
                dragging := false; drag_offset := (0%Q, 0%Q);
                drag_last_pos := None; throw_velocity := (0%Q, 0%Q);
                _right_click_consumed := false;
                STATES_INFO := info; state := st; frames := [];
                width := 0; height := 0; frame_count := 0;
                current_frame := 0; frame_interval := None;
                y_def := 0; x := 0%Q; y := 0%Q; immunity := false;
                lie_duration := 24; wall_scene_step := None;
                height_lie := 20; main_window := false |})
    as (_ & _ & _ & Esw & Esh & _).
  cbn [screen_width screen_height] in Esw, Esh.
  repeat (split; [first [reflexivity | exact Esw | exact Esh] |]).
  intros Hx Hy Ht. unfold on_screen.
  cbn [x y y_def screen_width screen_height width height] in *.
  split; split.
  - change 0%Q with (inject_Z 0). rewrite <- Zle_Qle. exact Hx.
  - apply Qle_refl.
  - change 0%Q with (inject_Z 0). rewrite <- Zle_Qle. exact Hy.
  - rewrite <- Zle_Qle.
    destruct (taskbar_autohide scr || negb (taskbar_edge scr =? 3)); lia.
Qed.

Lemma init_constructs_witness :
  (exists p : Pet,
      Pet__init__ example_ext example_PETS_DATA example_screen
                  "dog" "akita" 8 "small" 0 0
      = Returns (Constructed p)
      /\ y p = inject_Z (y_def p) /\ immunity p = false /\ height_lie p = 20)
  /\ exists h : HalfPet,
       Pet__init__ thin_ext example_PETS_DATA example_screen
                   "dog" "akita" 8 "very small" 0 0
       = Returns (HalfConstructed h).
Proof.
  split.
  - pose proof (init_constructs example_ext example_PETS_DATA example_screen
                  "dog" "akita" 8 "small" 0 0 _ _ eq_refl eq_refl) as H.
    cbv zeta in H. destruct H as [H _].
    destruct (H eq_refl)
      as (p & s & Hm & _ & _ & _ & _ & _ & _ & Hy & _ & _ & _ & Hi & _ & Hl
          & _).
    exists p. repeat split; assumption.
  - pose proof (init_constructs thin_ext example_PETS_DATA example_screen
                  "dog" "akita" 8 "very small" 0 0 _ _ eq_refl eq_refl) as H.
    cbv zeta in H. destruct H as (_ & H & _).
    eexists. apply H. reflexivity.
Defined.

(** ** Every throw ends *)

Lemma damping_pow_pos (k : nat) : (0 < damping_pow k)%Q.
Proof.
  induction k as [| k IH]; simpl; [reflexivity |].
  unfold DAMPING. nra.
Qed.

(** Bernoulli's inequality for 20/17 = 1 + 3/17. *)
Lemma damping_pow_bound (k : nat) :
  (damping_pow k * (17 + 3 * inject_Z (Z.of_nat k)) <= 17)%Q.
Proof.
  induction k as [| k IH].
  - vm_compute. discriminate.
  - pose proof (damping_pow_pos k) as Hp.
    assert (Hk : (0 <= inject_Z (Z.of_nat k))%Q).
    { change 0%Q with (inject_Z 0). rewrite <- Zle_Qle. lia. }
    assert (H1 : (damping_pow k <= 1)%Q) by nra.
    rewrite Nat2Z.inj_succ. unfold Z.succ. rewrite inject_Z_plus.
    simpl damping_pow. change (inject_Z 1) with 1%Q.
    unfold DAMPING. nra.
Qed.

Lemma throw_ticks_damped (p : Pet) (k : nat) :
  (Qabs (fst (throw_velocity (throw_ticks k p)))
   <= Qabs (fst (throw_velocity p)) * damping_pow k
   /\ Qabs (snd (throw_velocity (throw_ticks k p)))
      <= Qabs (snd (throw_velocity p)) * damping_pow k)%Q.
Proof.
  induction k as [| k [IHx IHy]].
  - simpl. split; lra.
  - rewrite throw_ticks_S. set (q := throw_ticks k p) in *.
    pose proof (damping_pow_pos k) as Hp.
    pose proof (Qabs_nonneg (fst (throw_velocity p))) as Hx0.
    pose proof (Qabs_nonneg (snd (throw_velocity p))) as Hy0.
    destruct (below_eps (throw_velocity q)) eqn:Hb.
    + rewrite (apply_throw_rest q Hb).
      cbn [fst snd throw_velocity set_throw_velocity].
      change (Qabs 0) with 0%Q. simpl damping_pow. unfold DAMPING.
      split; nra.
    + destruct (apply_throw_velocity q Hb) as (cx & cy & Hx & Hy & Ex & Ey).
      apply bounce_factor_abs in Hx, Hy.
      pose proof (Qabs_nonneg cx). pose proof (Qabs_nonneg cy).
      pose proof (Qabs_nonneg (fst (throw_velocity q))).
      pose proof (Qabs_nonneg (snd (throw_velocity q))).
      rewrite Ex, Ey, !Qabs_Qmult.
      change (Qabs DAMPING) with DAMPING. simpl damping_pow.
      unfold DAMPING in *. split; nra.
Qed.

Lemma throw_bound_enough (v : Q * Q) :
  let k := throw_bound v in
  (Qabs (fst v) * damping_pow k < THROW_EPS
   /\ Qabs (snd v) * damping_pow k < THROW_EPS)%Q.
Proof.
  intros k.
  pose proof (Qabs_nonneg (fst v)) as Hx0.
  pose proof (Qabs_nonneg (snd v)) as Hy0.
  set (m := (Qabs (fst v) + Qabs (snd v))%Q) in *.
  assert (Hk : (29 * m <= inject_Z (Z.of_nat k))%Q).
  { subst k. unfold throw_bound. fold m.
    pose proof (Qle_ceiling (29 * m)) as Hc.
    rewrite Z2Nat.id; [exact Hc |].
    assert (H0 : (inject_Z 0 <= inject_Z (Qceiling (29 * m)))%Q).
    { eapply Qle_trans; [| exact Hc]. change (inject_Z 0) with 0%Q.
      subst m. lra. }
    rewrite <- Zle_Qle in H0. exact H0. }
  pose proof (damping_pow_bound k) as Hd.
  pose proof (damping_pow_pos k) as Hp.
  set (d := damping_pow k) in *. set (n := inject_Z (Z.of_nat k)) in *.
  assert (Hm : (m * d < THROW_EPS)%Q).
  { unfold THROW_EPS.
    assert (H1 : (29 * m * d <= n * d)%Q) by nra.
    assert (H2 : (3 * (n * d) <= 17 - 17 * d)%Q) by nra.
    nra. }
  subst m. split; nra.
Qed.

Lemma throw_ticks_rest_pos (p : Pet) (m : nat) :
  throw_velocity p = (0, 0)%Q ->
  x (throw_ticks m p) = x p /\ y (throw_ticks m p) = y p.
Proof.
  revert p. induction m as [| m IH]; intros p Hv; [split; reflexivity |].
  simpl. rewrite apply_throw_rest by (rewrite Hv; reflexivity).
  cbn [fst]. destruct (IH (set_throw_velocity (0, 0)%Q p) eq_refl) as [Ex Ey].
  rewrite Ex, Ey. split; reflexivity.
Qed.

Lemma throw_first_rest (p : Pet) :
  exists n : nat,
    (n <= throw_bound (throw_velocity p))%nat
    /\ below_eps (throw_velocity (throw_ticks n p)) = true
    /\ forall k : nat,
         (k < n)%nat -> below_eps (throw_velocity (throw_ticks k p)) = false.
Proof.
  set (b := throw_bound (throw_velocity p)).
  assert (Hb : below_eps (throw_velocity (throw_ticks b p)) = true).
  { destruct (throw_ticks_damped p b) as [Bx By].
    destruct (throw_bound_enough (throw_velocity p)) as [Ex Ey].
    apply below_eps_true. fold b in Ex, Ey. split.
    - eapply Qle_lt_trans; [exact Bx | exact Ex].
    - eapply Qle_lt_trans; [exact By | exact Ey]. }
  exact (first_true (fun k => below_eps (throw_velocity (throw_ticks k p)))
           b Hb).
Qed.

(** Whatever the velocity, the position and the screen of a thrown pet,
    the throw ends: there is a first step [n], not later than
    [throw_bound], at which both velocity components are below 0.2;
    [_apply_throw] returns [True] on every step before it and [False] on
    it; from then on the velocity is exactly zero and the pet stays where
    it is. *)
Theorem throw_always_ends (p : Pet) :
  exists n : nat,
    (n <= throw_bound (throw_velocity p))%nat
    /\ (forall k : nat,
           (k < n)%nat -> snd (_apply_throw (throw_ticks k p)) = true)
    /\ snd (_apply_throw (throw_ticks n p)) = false
    /\ forall m : nat,
         (n < m)%nat ->
         throw_velocity (throw_ticks m p) = (0, 0)%Q
         /\ snd (_apply_throw (throw_ticks m p)) = false
         /\ x (throw_ticks m p) = x (throw_ticks n p)
         /\ y (throw_ticks m p) = y (throw_ticks n p).
Proof.
  destruct (throw_first_rest p) as (n & Hn & Pn & Hlt).
  exists n. split; [exact Hn |].
  pose proof (apply_throw_rest _ Pn) as Hrest.
  split; [| split].
  - intros k Hk. unfold _apply_throw. rewrite (Hlt k Hk). reflexivity.
  - rewrite Hrest. reflexivity.
  - intros m Hm. replace m with (S n + (m - S n))%nat by lia.
    rewrite throw_ticks_add.
    assert (Hv : throw_velocity (throw_ticks (S n) p) = (0, 0)%Q)
      by (rewrite throw_ticks_S, Hrest; reflexivity).
    assert (Hxy : x (throw_ticks (S n) p) = x (throw_ticks n p)
                  /\ y (throw_ticks (S n) p) = y (throw_ticks n p))
      by (rewrite throw_ticks_S, Hrest; split; reflexivity).
    pose proof (throw_ticks_rest (throw_ticks (S n) p) (m - S n) Hv) as Hv'.
    destruct (throw_ticks_rest_pos (throw_ticks (S n) p) (m - S n) Hv)
      as [Ex Ey].
    split; [exact Hv' |]. split.
    + rewrite apply_throw_rest by (rewrite Hv'; reflexivity). reflexivity.
    + rewrite Ex, Ey. exact Hxy.
Qed.

(** ** A released pet flies until the throw has run out *)

Lemma run_cons_fst (ext : Ext) (data : dict SpeciesData) (i : Input)
    (inputs : list Input) (p : Pet) :
  fst (run ext data (i :: inputs) p)
  = fst (run ext data inputs (fst (update_state ext data i p))).
Proof.
  simpl. destruct (update_state ext data i p) as [p1 ev]. cbn [fst].
  destruct (run ext data inputs p1) as [q evs]. reflexivity.
Qed.

Lemma throw_step_dragging (p : Pet) :
  dragging (throw_collide (throw_move p)) = dragging p.
Proof.
  unfold throw_collide, throw_move. destruct (throw_velocity p) as [vx vy].
  cbv zeta.
  repeat match goal with
         | |- context [if ?c then _ else _] => destruct c
         end; reflexivity.
Qed.

Lemma apply_throw_same_flight (p p' : Pet) :
  same_flight p p' ->
  below_eps (throw_velocity p') = false ->
  same_flight (fst (_apply_throw p)) (fst (_apply_throw p')).
Proof.
  intros (Hm & Hsw & Hw & Hsh & Hh) Hb.
  assert (Hb' : below_eps (throw_velocity p) = false)
    by (rewrite (proj2 (proj2 Hm)); exact Hb).
  unfold _apply_throw. rewrite Hb, Hb'. cbn [fst].
  destruct (throw_move_frame p) as (E1 & E2 & E3 & E4 & _).
  destruct (throw_move_frame p') as (F1 & F2 & F3 & F4 & _).
  destruct (throw_collide_frame (throw_move p)) as (G1 & G2 & G3 & G4 & _).
  destruct (throw_collide_frame (throw_move p')) as (K1 & K2 & K3 & K4 & _).
  split; [| repeat split; congruence].
  apply throw_collide_same; [apply throw_move_same; exact Hm | congruence ..].
Qed.

(** One tick with the button up, on a pet that is not dragged and whose
    throw is still active. *)
Lemma idle_throw_tick (ext : Ext) (data : dict SpeciesData) (i : Input)
    (p : Pet) :
  left_down i = false ->
  dragging p = false ->
  below_eps (throw_velocity p) = false ->
  let q := fst (update_state ext data i p) in
  same_flight q (fst (_apply_throw p))
  /\ dragging q = false /\ state q = state p /\ immunity q = immunity p.
Proof.
  intros Hl Hd Hb q. subst q.
  assert (Hda : drag_active i p = false)
    by (unfold drag_active; rewrite Hl; reflexivity).
  assert (Hpre : pre_throw i p = fst (right_click (in_bounds p i) i p)).
  { unfold pre_throw. rewrite begin_drag_idle
      by (rewrite right_click_dragging; exact Hda).
    rewrite right_click_dragging, Hd. reflexivity. }
  destruct (right_click_frame (in_bounds p i) i p)
    as (Rx & Ry & _ & _ & Rv & Rsw & Rw & Rsh & Rh).
  cbv zeta in *.
  assert (Hta : throw_active i p = true)
    by (unfold throw_active; rewrite Hda, Hpre, Rv, Hb; reflexivity).
  pose proof (update_state_idle_throw ext data i p Hl Hd Hb) as Hm.
  destruct (throw_tick_keeps ext data i p Hta) as [Hs Hi].
  rewrite (update_state_throw _ _ _ _ Hta) in *.
  rewrite Hpre in *.
  set (p1 := fst (right_click (in_bounds p i) i p)) in *.
  destruct (throw_move_frame p1) as (E1 & E2 & E3 & E4 & _).
  destruct (throw_collide_frame (throw_move p1)) as (G1 & G2 & G3 & G4 & _).
  assert (Hf : forall r : Pet,
             r = fst (_apply_throw p) ->
             screen_width r = screen_width p /\ width r = width p
             /\ screen_height r = screen_height p /\ height r = height p).
  { intros r ->. unfold _apply_throw. rewrite Hb. cbn [fst].
    destruct (throw_move_frame p) as (F1 & F2 & F3 & F4 & _).
    destruct (throw_collide_frame (throw_move p)) as (K1 & K2 & K3 & K4 & _).
    repeat split; congruence. }
  destruct (Hf _ eq_refl) as (A1 & A2 & A3 & A4).
  split; [| split; [| split]].
  - split; [exact Hm |]. repeat split; congruence.
  - rewrite throw_step_dragging. subst p1.
    rewrite right_click_dragging. exact Hd.
  - exact Hs.
  - exact Hi.
Qed.

Lemma same_flight_refl (p : Pet) : same_flight p p.
Proof. repeat split. Qed.

Lemma same_flight_trans (p q r : Pet) :
  same_flight p q -> same_flight q r -> same_flight p r.
Proof.
  intros ((A1 & A2 & A3) & A4 & A5 & A6 & A7)
         ((B1 & B2 & B3) & B4 & B5 & B6 & B7).
  repeat split; congruence.
Qed.

Lemma run_idle_throw (ext : Ext) (data : dict SpeciesData)
    (inputs : list Input) :
  forall p p' : Pet,
    same_flight p p' ->
    dragging p = false ->
    hands_off inputs ->
    (forall k : nat,
        (k < length inputs)%nat ->
        below_eps (throw_velocity (throw_ticks k p')) = false) ->
    let q := fst (run ext data inputs p) in
    same_flight q (throw_ticks (length inputs) p')
    /\ dragging q = false /\ state q = state p /\ immunity q = immunity p.
Proof.
  induction inputs as [| i inputs IH]; intros p p' Hf Hd Hoff Hact q; subst q.
  - simpl. repeat split; try exact Hd; apply Hf.
  - rewrite run_cons_fst. inversion Hoff as [| ? ? Hl Hoff']; subst.
    assert (Hb' : below_eps (throw_velocity p') = false)
      by (apply (Hact 0%nat); simpl; lia).
    assert (Hb : below_eps (throw_velocity p) = false).
    { destruct Hf as ((_ & _ & Hv) & _). rewrite Hv. exact Hb'. }
    destruct (idle_throw_tick ext data i p Hl Hd Hb) as (T1 & T2 & T3 & T4).
    cbv zeta in *.
    set (p1 := fst (update_state ext data i p)) in *.
    assert (Hf1 : same_flight p1 (fst (_apply_throw p'))).
    { eapply same_flight_trans; [exact T1 |].
      apply apply_throw_same_flight; assumption. }
    destruct (IH p1 (fst (_apply_throw p')) Hf1 T2 Hoff') as (I1 & I2 & I3 & I4).
    + intros k Hk. apply (Hact (S k)). simpl. lia.
    + cbv zeta in *. simpl length. simpl throw_ticks.
      split; [exact I1 |]. split; [exact I2 |]. split; congruence.
Qed.

(** A pet that is not dragged, with any throw velocity, and whose ticks
    see the primary button up: there is a number [n] of ticks, at most
    [throw_bound], such that the first [n] ticks only carry out the throw
    - position and velocity are those of [n] throw steps, state and
    [immunity] are untouched, no drag begins - and the tick after them is
    owned neither by a drag nor by the throw, so that it reaches the
    behaviour code. *)
Theorem released_pet_resumes (ext : Ext) (data : dict SpeciesData) (p : Pet) :
  dragging p = false ->
  exists n : nat,
    (n <= throw_bound (throw_velocity p))%nat
    /\ forall inputs : list Input,
         hands_off inputs ->
         let q := fst (run ext data inputs p) in
         ((length inputs <= n)%nat ->
          same_motion q (throw_ticks (length inputs) p)
          /\ dragging q = false /\ state q = state p
          /\ immunity q = immunity p)
         /\ (length inputs = n ->
             forall i : Input,
               left_down i = false ->
               drag_active i q = false /\ throw_active i q = false).
Proof.
  intros Hd. destruct (throw_first_rest p) as (n & Hn & Pn & Hlt).
  exists n. split; [exact Hn |]. intros inputs Hoff q.
  assert (Hrun : (length inputs <= n)%nat ->
                 same_flight q (throw_ticks (length inputs) p)
                 /\ dragging q = false /\ state q = state p
                 /\ immunity q = immunity p).
  { intros Hlen. apply run_idle_throw;
      [apply same_flight_refl | exact Hd | exact Hoff |].
    intros k Hk. apply Hlt. lia. }
  split.
  - intros Hlen. destruct (Hrun Hlen) as ((Hm & _) & H2 & H3 & H4).
    repeat split; try assumption; apply Hm.
  - intros Hlen i Hl.
    destruct (Hrun ltac:(lia)) as (((_ & _ & Hv) & _) & Hdq & _).
    assert (Hda : drag_active i q = false)
      by (unfold drag_active; rewrite Hl; reflexivity).
    split; [exact Hda |].
    unfold throw_active. rewrite Hda. cbn [negb andb].
    assert (Hpre : pre_throw i q = fst (right_click (in_bounds q i) i q)).
    { unfold pre_throw. rewrite begin_drag_idle
        by (rewrite right_click_dragging; exact Hda).
      rewrite right_click_dragging, Hdq. reflexivity. }
    destruct (right_click_frame (in_bounds q i) i q)
      as (_ & _ & _ & _ & Rv & _).
    cbv zeta in Rv. rewrite Hpre, Rv, Hv, Hlen, Pn. reflexivity.
Qed.

Lemma released_pet_resumes_witness :
  exists n : nat,
    (n <= 290)%nat
    /\ forall inputs : list Input,
         hands_off inputs ->
         length inputs = n ->
         throw_active example_idle_input
           (fst (run example_ext example_PETS_DATA inputs flying_pet))
         = false.
Proof.
  destruct (released_pet_resumes example_ext example_PETS_DATA flying_pet
              eq_refl) as (n & Hn & H).
  exists n. split; [exact Hn |].
  intros inputs Hoff Hlen. destruct (H inputs Hoff) as [_ H2].
  destruct (H2 Hlen example_idle_input eq_refl) as [_ Ht]. exact Ht.
Defined.

(** ** The lateral band is stable *)

Lemma set_direction_twice (s : State) :
  set_direction (- - direction s) (set_direction (- direction s) s) = s.
Proof. destruct s. unfold set_direction. simpl. f_equal. lia. Qed.

Lemma set_state_same (p : Pet) (s : State) :
  state p = Some s -> set_state (Some s) p = p.
Proof. intros H. destruct p. simpl in H. subst. reflexivity. Qed.

Ltac qltb_case a b :=
  let E := fresh "E" in
  destruct (Qltb a b) eqn:E;
  [apply Qltb_lt in E | apply Qltb_ge in E]; try (exfalso; lra).

(** The pet that line 190 and the lines after it leave, by cases on the
    position. *)
Lemma lateral_cases (p : Pet) (s : State) :
  state p = Some s ->
  let min_x := inject_Z (screen_width p - screen_width p / 4) in
  let max_x := inject_Z (screen_width p - width p) in
  let turn := turned_state in
  ((x p < min_x -> min_x <= max_x ->
      lateral p = set_state (Some (turn s)) (set_x min_x p))
   /\ (x p < min_x -> max_x < min_x ->
       lateral p = set_state (Some (turn (turn s))) (set_x max_x p))
   /\ (min_x <= x p -> max_x < x p ->
       lateral p = set_state (Some (turn s)) (set_x max_x p))
   /\ (min_x <= x p <= max_x -> lateral p = p))%Q.
Proof.
  intros Hs min_x max_x turn. subst turn. unfold turned_state.
  unfold lateral. fold min_x max_x. cbv zeta.
  rewrite (flip_direction_eq (set_x min_x p) s Hs).
  remember min_x as mn. remember max_x as mx. clear Heqmn Heqmx min_x max_x.
  repeat split.
  - intros H1 H2. qltb_case (x p) mn.
    destruct (String.eqb (name s) "walldig") eqn:Ew; simpl.
    + qltb_case mx mn. rewrite set_state_same by exact Hs. reflexivity.
    + qltb_case mx mn. reflexivity.
  - intros H1 H2. qltb_case (x p) mn.
    destruct (String.eqb (name s) "walldig") eqn:Ew; simpl.
    + qltb_case mx mn. unfold flip_direction. simpl. rewrite Hs, Ew.
      simpl. rewrite ?set_state_same by exact Hs. reflexivity.
    + qltb_case mx mn. unfold flip_direction. simpl. rewrite ?Hs, ?Ew. simpl.
      rewrite ?Ew.
      replace (- direction s * -1) with (- - direction s) by lia.
      reflexivity.
  - intros H1 H2. qltb_case (x p) mn. qltb_case mx (x p).
    unfold flip_direction. simpl. rewrite Hs.
    destruct (String.eqb (name s) "walldig") eqn:Ew; simpl;
      [rewrite set_state_same by exact Hs
      | replace (direction s * -1) with (- direction s) by lia]; reflexivity.
  - intros [H1 H2]. qltb_case (x p) mn. qltb_case mx (x p). reflexivity.
Qed.

Lemma turned_state_twice (s : State) : turned_state (turned_state s) = s.
Proof.
  unfold turned_state.
  destruct (String.eqb (name s) "walldig") eqn:Ew; [rewrite Ew; reflexivity |].
  simpl. rewrite Ew. apply set_direction_twice.
Qed.

(** For a pet that has a state, the lateral band is stable: applying the
    lines 190-199 to their own result changes nothing.  A pet wider than
    a quarter of the screen has an empty band ([max_x < min_x]); it is
    put at [max_x], and when it was left of [min_x] its direction is
    turned twice, that is, kept. *)
Theorem lateral_settles (p : Pet) (s : State) :
  state p = Some s ->
  let min_x := inject_Z (screen_width p - screen_width p / 4) in
  let max_x := inject_Z (screen_width p - width p) in
  lateral (lateral p) = lateral p
  /\ ((max_x < min_x)%Q ->
      x (lateral p) = max_x
      /\ ((x p < min_x)%Q -> lateral p = set_x max_x p)
      /\ ((min_x <= x p)%Q ->
          lateral p = set_state (Some (turned_state s)) (set_x max_x p))).
Proof.
  intros Hs min_x max_x.
  destruct (lateral_cases p s Hs) as (A & B & C & D). cbv zeta in *.
  fold min_x max_x in A, B, C, D.
  assert (Hwide : forall (r : Pet) (s' : State),
             r = set_state (Some s') (set_x max_x p) ->
             (max_x < min_x)%Q -> lateral r = r).
  { intros r s' -> Hlt.
    destruct (lateral_cases (set_state (Some s') (set_x max_x p)) s' eq_refl)
      as (_ & B' & _). cbv zeta in B'. simpl in B'.
    fold min_x max_x in B'. rewrite (B' Hlt Hlt), turned_state_twice.
    reflexivity. }
  assert (Hband : forall (r : Pet) (s' : State) (v : Q),
             r = set_state (Some s') (set_x v p) ->
             (min_x <= v <= max_x)%Q -> lateral r = r).
  { intros r s' v -> Hv.
    destruct (lateral_cases (set_state (Some s') (set_x v p)) s' eq_refl)
      as (_ & _ & _ & D'). cbv zeta in D'. simpl in D'.
    fold min_x max_x in D'. apply D'. exact Hv. }
  split.
  - destruct (Qlt_le_dec (x p) min_x) as [H1 | H1];
      destruct (Qlt_le_dec max_x min_x) as [H2 | H2].
    + rewrite (B H1 H2). eapply Hwide; [reflexivity | exact H2].
    + rewrite (A H1 H2). eapply Hband; [reflexivity | lra].
    + assert (H3 : (max_x < x p)%Q) by lra. rewrite (C H1 H3).
      eapply Hwide; [reflexivity | exact H2].
    + destruct (Qlt_le_dec max_x (x p)) as [H3 | H3].
      * rewrite (C H1 H3). eapply Hband; [reflexivity | lra].
      * rewrite (D (conj H1 H3)). apply D. split; assumption.
  - intros H2. split; [| split].
    + destruct (Qlt_le_dec (x p) min_x) as [H1 | H1].
      * rewrite (B H1 H2). reflexivity.
      * assert (H3 : (max_x < x p)%Q) by lra. rewrite (C H1 H3). reflexivity.
    + intros H1. rewrite (B H1 H2), turned_state_twice.
      apply set_state_same. exact Hs.
    + intros H1. apply C; [exact H1 | lra].
Qed.

Lemma lateral_settles_witness :
  lateral (lateral strayed_pet) = lateral strayed_pet
  /\ x (lateral strayed_pet) = 1440%Q.
Proof.
  destruct (lateral_settles strayed_pet example_idle eq_refl) as [H _].
  split; [exact H | reflexivity].
Defined.

(** ** The message bubble *)

Import MainWindow.

Lemma sender_of_mark_delivered (t : Q) (d : dict json) :
  sender_of (mark_delivered t d) = sender_of d.
Proof.
  unfold sender_of, mark_delivered.
  rewrite !dict_get_set_other by discriminate. reflexivity.
Qed.

Lemma row_wanted_inv (r : json) :
  row_wanted r = true ->
  exists (d : dict json) (text : string),
    r = JObj d /\ is_delivered d = false /\ row_text d = Some text
    /\ String.eqb text "" = false.
Proof.
  destruct r as [| | | | | d]; try discriminate. simpl. intros H.
  apply andb_true_iff in H. destruct H as [H1 H2].
  destruct (row_text d) as [text |] eqn:Et; [| discriminate].
  exists d, text. split; [reflexivity |]. split; [| split].
  - destruct (is_delivered d); [discriminate | reflexivity].
  - exact Et.
  - destruct (String.eqb text ""); [discriminate | reflexivity].
Qed.

Lemma chunks_of_wanted (py_str : json -> string) (t : Q) (rows : list json) :
  forallb row_wanted rows = true ->
  chunks_of py_str (map (delivered_row t) rows)
  = Some (map (row_chunk py_str) rows).
Proof.
  induction rows as [| r rows IH]; [reflexivity |].
  cbn [forallb]. intros H. apply andb_true_iff in H. destruct H as [Hr Hrs].
  destruct (row_wanted_inv r Hr) as (d & text & -> & Hd & Ht & Hne).
  cbn [map delivered_row chunks_of]. rewrite Hd.
  cbn [chunks_of]. rewrite mark_delivered_text, Ht, (IH Hrs), Hne.
  rewrite sender_of_mark_delivered. cbn [row_chunk]. rewrite Ht.
  reflexivity.
Qed.

Lemma forallb_filter_self {A : Type} (f : A -> bool) (l : list A) :
  forallb f (List.filter f l) = true.
Proof.
  apply forallb_forall. intros a Ha. apply List.filter_In in Ha. tauto.
Qed.

Lemma forallb_firstn {A : Type} (f : A -> bool) (n : nat) (l : list A) :
  forallb f l = true -> forallb f (firstn n l) = true.
Proof.
  revert n. induction l as [| a l IH]; intros [| n] H; try reflexivity.
  cbn [forallb firstn] in *. apply andb_true_iff in H. destruct H as [-> H].
  rewrite (IH n H). reflexivity.
Qed.

Lemma all_delivered (rows : list json) :
  existsb (fun r => negb (row_delivered r)) rows = false ->
  forallb row_delivered rows = true.
Proof.
  induction rows as [| r rows IH]; [reflexivity |]. cbn [existsb forallb].
  intros H. apply orb_false_iff in H. destruct H as [H1 H2].
  rewrite (IH H2). destruct (row_delivered r); [reflexivity | discriminate].
Qed.

(** What a fetch leaves behind in an inbox whose rows are messages. *)
Lemma fetch_leaves_delivered (fs : files) (dir : Dir) (user : string) (t : Q) :
  let path := inbox_path dir user in
  let fs' := snd (fetch_undelivered fs dir user t) in
  forallb message_row (read_jsonl fs path) = true ->
  forallb message_row (read_jsonl fs' path) = true
  /\ forallb row_delivered (read_jsonl fs' path) = true.
Proof.
  intros path fs' Hok. subst fs'.
  rewrite (fetch_undelivered_readable fs dir user t)
    by (apply message_row_readable; exact Hok).
  fold path. cbn [snd].
  destruct (existsb (fun r => negb (row_delivered r)) (read_jsonl fs path))
    eqn:Ex.
  - rewrite overwrite_read. apply forallb_map_delivered. exact Hok.
  - split; [exact Hok | apply all_delivered; exact Ex].
Qed.

Lemma fetch_nothing_new (fs : files) (dir : Dir) (user : string) (t : Q) :
  let path := inbox_path dir user in
  forallb message_row (read_jsonl fs path) = true ->
  forallb row_delivered (read_jsonl fs path) = true ->
  fetch_undelivered fs dir user t = (Returns [], fs).
Proof.
  intros path Hok Hd. unfold fetch_undelivered. fold path.
  destruct (read_jsonl fs path) as [| r rows] eqn:E; [reflexivity |].
  rewrite (deliver_rows_done t (r :: rows) Hok Hd). reflexivity.
Qed.

(** The outcome of [check_messages] in a configured window whose inbox
    holds messages only. *)
Lemma check_messages_configured (py_str : json -> string) (w : t)
    (dir : Dir) (user : string) (force : bool) (now : Q) (fs : files) :
  configured w dir user ->
  inbox_ok fs (inbox_path dir user) ->
  let wanted := List.filter row_wanted (read_jsonl fs (inbox_path dir user)) in
  let fs' := snd (fetch_undelivered fs dir user now) in
  let bubble_text :=
    bubble_text_of (map (row_chunk py_str) (firstn 5 wanted)) in
  check_messages py_str w force now fs
  = match wanted with
    | [] => (if force then [bubble_show_text "Inbox empty." 3] else [], fs')
    | _ =>
        match pets w with
        | [] => ([bubble_show_text bubble_text 12], fs')
        | Constructed pet :: _ =>
            ([bubble_set_anchor
                (py_int (x pet + inject_Z (width pet) + 10))
                (py_int (y pet - 10));
              bubble_show_text bubble_text 12], fs')
        | HalfConstructed _ :: _ => ([], fs')
        end
    end.
Proof.
  intros (Hdir & Hme & Hne) Hok wanted fs' bubble_text.
  unfold check_messages. rewrite Hdir, Hme.
  apply String.eqb_neq in Hne. rewrite Hne.
  subst fs'.
  rewrite (fetch_undelivered_readable fs dir user now)
    by (apply message_row_readable; exact Hok).
  fold wanted. cbn [snd].
  set (fs' := if existsb _ _ then _ else fs).
  destruct wanted as [| r rest] eqn:Ew; [reflexivity |].
  assert (Hw : forallb row_wanted (firstn 5 (r :: rest)) = true).
  { apply forallb_firstn. rewrite <- Ew. apply forallb_filter_self. }
  cbn [map]. rewrite <- (map_cons (delivered_row now) r rest).
  rewrite firstn_map, (chunks_of_wanted py_str now _ Hw).
  subst bubble_text. cbn [firstn map]. reflexivity.
Qed.

(** A second call finds nothing new, whatever the window shows. *)
Lemma check_messages_again (py_str : json -> string) (w : t)
    (dir : Dir) (user : string) (force : bool) (now now' : Q) (fs : files) :
  configured w dir user ->
  inbox_ok fs (inbox_path dir user) ->
  let fs' := snd (fetch_undelivered fs dir user now) in
  check_messages py_str w force now' fs'
  = (if force then [bubble_show_text "Inbox empty." 3] else [], fs').
Proof.
  intros Hc Hok fs'.
  destruct (fetch_leaves_delivered fs dir user now Hok) as [Hm Hd].
  cbv zeta in Hm, Hd. fold fs' in Hm, Hd.
  pose proof (fetch_nothing_new fs' dir user now' Hm Hd) as Hf.
  destruct Hc as (Hdir & Hme & Hne).
  unfold check_messages. rewrite Hdir, Hme.
  apply String.eqb_neq in Hne. rewrite Hne, Hf. reflexivity.
Qed.

(** In a configured window whose inbox holds messages only and whose
    first pet, if any, has a position: when undelivered messages with a
    text are waiting, one bubble is shown, built from the first five of
    them only; when none is waiting, "Inbox empty." is shown on request
    and nothing otherwise.  In both cases every row of the inbox is
    marked delivered afterwards, so that a later call shows nothing of
    them: a sixth and later waiting message is never displayed. *)
Theorem check_messages_first_five (py_str : json -> string) (w : t)
    (dir : Dir) (user : string) (force : bool) (now : Q) (fs : files) :
  configured w dir user ->
  inbox_ok fs (inbox_path dir user) ->
  first_pet_placed w ->
  let path := inbox_path dir user in
  let wanted := List.filter row_wanted (read_jsonl fs path) in
  let calls := fst (check_messages py_str w force now fs) in
  let fs' := snd (check_messages py_str w force now fs) in
  (wanted <> [] ->
   shown calls
   = [bubble_text_of (map (row_chunk py_str) (firstn 5 wanted))])
  /\ (wanted = [] ->
      calls = if force then [bubble_show_text "Inbox empty." 3] else [])
  /\ forallb row_delivered (read_jsonl fs' path) = true
  /\ forall (force' : bool) (now' : Q),
       check_messages py_str w force' now' fs'
       = (if force' then [bubble_show_text "Inbox empty." 3] else [], fs').
Proof.
  intros Hc Hok Hpet path wanted calls fs'.
  pose proof (check_messages_configured py_str w dir user force now fs Hc Hok)
    as E.
  cbv zeta in E. fold path in E. fold wanted in E.
  assert (Efs : fs' = snd (fetch_undelivered fs dir user now)).
  { subst fs'. rewrite E. destruct wanted; [reflexivity |].
    destruct (pets w) as [| [pet | h] ps]; reflexivity. }
  split; [| split; [| split]].
  - intros Hw. subst calls. rewrite E.
    destruct wanted as [| r rest]; [congruence |].
    unfold first_pet_placed in Hpet.
    destruct (pets w) as [| [pet | h] ps]; [reflexivity | reflexivity |].
    destruct Hpet.
  - intros Hw. subst calls. rewrite E, Hw. reflexivity.
  - rewrite Efs. apply (fetch_leaves_delivered fs dir user now Hok).
  - intros force' now'. rewrite Efs.
    apply check_messages_again; assumption.
Qed.

Lemma check_messages_first_five_witness :
  let calls :=
    fst (check_messages example_py_str example_window false 1700000100
                        crowded_inbox) in
  exists text : string,
    shown calls = [text]
    /\ text
       = bubble_text_of
           (map (fun body => chunk example_py_str (JStr "sanga") body)
                ["one"; "two"; "three"; "four"; "five"]%string).
Proof.
  cbv zeta.
  assert (Hc : configured example_window example_shared "jinho")
    by (repeat split; discriminate).
  assert (Hok : inbox_ok crowded_inbox (inbox_path example_shared "jinho"))
    by reflexivity.
  destruct (check_messages_first_five example_py_str example_window
              example_shared "jinho" false 1700000100 crowded_inbox Hc Hok I)
    as (H & _).
  cbv zeta in H. eexists. split; [apply H; discriminate | reflexivity].
Defined.



Lemma py_len_app (s1 s2 : string) :
  py_len (s1 +:+ s2) = (py_len s1 + py_len s2)%nat.
Proof.
  induction s1 as [| c s1 IH]; [rewrite str_app_nil_l; reflexivity |].
  rewrite str_app_cons. simpl. rewrite IH.
  destruct (is_continuation c); reflexivity.
Qed.

Lemma py_take_len (n : nat) (s : string) : (py_len (py_take n s) <= n)%nat.
Proof.
  revert n. induction s as [| c s IH]; intros n; simpl; [lia |].
  destruct (is_continuation c) eqn:E; simpl; rewrite ?E; [apply IH |].
  destruct n as [| n]; simpl; rewrite ?E; [lia |].
  specialize (IH n). lia.
Qed.

(** The text of a bubble has at most 805 characters. *)
Lemma bubble_text_length (chunks : list string) :
  (py_len (bubble_text_of chunks) <= 805)%nat.
Proof.
  unfold bubble_text_of. cbv zeta.
  destruct (800 <? py_len (String.concat SEPARATOR chunks))%nat eqn:E.
  - rewrite py_len_app.
    pose proof (py_take_len 800 (String.concat SEPARATOR chunks)).
    change (py_len ELLIPSIS) with 5%nat. lia.
  - apply Nat.ltb_ge in E. lia.
Qed.

(** A text of 300 characters of three bytes each is shown in full. *)
Example bubble_text_counts_characters :
  let hangul := String "237" (String "149" (String "156" EmptyString)) in
  let text := String.concat "" (repeat hangul 300) in
  String.length text = 900%nat /\ py_len text = 300%nat
  /\ bubble_text_of [text] = text.
Proof. vm_compute. repeat split. Qed.

(** Whatever the window, the inbox and its content: one call shows at
    most one bubble, and its text never has more than 805 characters (800
    of the joined messages and the five of the ellipsis); the tray
    message appears only on request in a window that is not configured,
    and then no file is touched; when the fetch raises, nothing is shown
    and no file is changed; the files of other users are never touched. *)
Theorem check_messages_bounded (py_str : json -> string) (w : t)
    (force : bool) (now : Q) (fs : files) :
  let calls := fst (check_messages py_str w force now fs) in
  let fs' := snd (check_messages py_str w force now fs) in
  (length (shown calls) <= 1)%nat
  /\ Forall (fun text => (py_len text <= 805)%nat) (shown calls)
  /\ (forall (title body : string) (icon : MessageIcon) (msecs : Z),
         In (tray_showMessage title body icon msecs) calls ->
         force = true /\ fs' = fs
         /\ (shared_dir w = None \/ me w = None \/ me w = Some ""%string))
  /\ (forall (dir : Dir) (user : string),
         configured w dir user ->
         (forall e : PyExn,
             fst (fetch_undelivered fs dir user now) = Raises e ->
             calls = [] /\ fs' = fs)
         /\ forall other : string,
              other <> inbox_path dir user ->
              other <> tmp_path dir user ->
              fs' !! other = fs !! other).
Proof.
  intros calls fs'. subst calls fs'.
  assert (Hnc : forall r : list Ui * files,
             r = (if force
                  then [tray_showMessage "DeskPets Messaging" NOT_CONFIGURED
                                         Warning 4000]
                  else [], fs) ->
             (shared_dir w = None \/ me w = None \/ me w = Some ""%string) ->
             (length (shown (fst r)) <= 1)%nat
             /\ Forall (fun text => (py_len text <= 805)%nat)
                       (shown (fst r))
             /\ (forall (title body : string) (icon : MessageIcon) (msecs : Z),
                    In (tray_showMessage title body icon msecs) (fst r) ->
                    force = true /\ snd r = fs
                    /\ (shared_dir w = None \/ me w = None
                        \/ me w = Some ""%string))
             /\ (forall (dir : Dir) (user : string),
                    configured w dir user ->
                    (forall e : PyExn,
                        fst (fetch_undelivered fs dir user now) = Raises e ->
                        fst r = [] /\ snd r = fs)
                    /\ forall other : string,
                         other <> inbox_path dir user ->
                         other <> tmp_path dir user ->
                         snd r !! other = fs !! other)).
  { intros r -> Hwhy. destruct force; simpl.
    - split; [lia |]. split; [constructor |]. split.
      + intros title body icon msecs _. auto.
      + intros dir user (Hd & Hm & Hne). exfalso.
        destruct Hwhy as [H | [H | H]]; congruence.
    - split; [lia |]. split; [constructor |]. split.
      + intros title body icon msecs [].
      + intros dir user (Hd & Hm & Hne). exfalso.
        destruct Hwhy as [H | [H | H]]; congruence. }
  unfold check_messages.
  destruct (shared_dir w) as [dir |] eqn:Hdir;
    [| apply Hnc; [destruct (me w); reflexivity | auto]].
  destruct (me w) as [user |] eqn:Hme; [| apply Hnc; [reflexivity | auto]].
  destruct (String.eqb_spec user "") as [-> | Hne];
    [apply Hnc; [reflexivity | auto] |].
  pose proof (fetch_undelivered_other_files fs dir user now) as Hother.
  destruct (fetch_undelivered fs dir user now) as [[msgs | e] fs1] eqn:Ef.
  - assert (Hcfg : forall (calls : list Ui) (dir' : Dir) (user' : string),
               configured w dir' user' ->
               (forall e : PyExn,
                   fst (fetch_undelivered fs dir' user' now) = Raises e ->
                   calls = [] /\ fs1 = fs)
               /\ forall other : string,
                    other <> inbox_path dir' user' ->
                    other <> tmp_path dir' user' ->
                    fs1 !! other = fs !! other).
    { intros calls dir' user' (Hd & Hm & _).
      assert (dir' = dir) by congruence. assert (user' = user) by congruence.
      subst. split.
      - intros e He. rewrite Ef in He. discriminate.
      - intros other H1 H2. apply (Hother other H1 H2). }
    destruct msgs as [| m msgs].
    + destruct force; cbn [fst snd shown length].
      * split; [lia |].
        split; [constructor; [simpl; lia | constructor] |].
        split; [| apply Hcfg].
        intros title body icon msecs [H | []]. discriminate.
      * split; [lia |]. split; [constructor |].
        split; [| apply Hcfg]. intros title body icon msecs [].
    + destruct (chunks_of py_str (firstn 5 (m :: msgs))) as [[| c cs] |];
        try (cbn [fst snd shown length]; split; [lia |];
             split; [constructor |];
             split; [intros title body icon msecs [] | apply Hcfg]).
      pose proof (bubble_text_length (c :: cs)) as Hlen.
      destruct (pets w) as [| [pet | h] ps]; cbn [fst snd shown length].
      * split; [lia |].
        split; [constructor; [exact Hlen | constructor] |].
        split; [| apply Hcfg].
        intros title body icon msecs [H | []]. discriminate.
      * split; [lia |].
        split; [constructor; [exact Hlen | constructor] |].
        split; [| apply Hcfg].
        intros title body icon msecs [H | [H | []]]; discriminate.
      * split; [lia |]. split; [constructor |].
        split; [| apply Hcfg]. intros title body icon msecs [].
  - simpl. split; [lia |]. split; [constructor |]. split.
    + intros title body icon msecs [].
    + intros dir' user' (Hd & Hm & _).
      assert (dir' = dir) by congruence. assert (user' = user) by congruence.
      subst. split.
      * intros e' _. split; [reflexivity |].
        unfold fetch_undelivered in Ef.
        destruct (read_jsonl fs (inbox_path dir user)); [discriminate |].
        destruct (deliver_rows now (j :: l)) as [[[rows' out] changed] | e0];
          congruence.
      * intros other H1 H2. apply (Hother other H1 H2).
Qed.
